(** * spotdl: the download orchestrator and the song object, embedded in Rocq

  The development follows the Python sources
    - [spotdl/search/songObj.py] and [spotdl/search/songGatherer.py]
      (the [SongObj] record, its dump and its reconstruction), and
    - [spotdl/download/downloader.py] (the [Downloader] class: the
      per-track pipeline [search_and_download], the bounded pool
      [pool_download] and the batch entry [download_multiple_songs]).

  Python values that are dictionaries coming from the metadata provider
  are modelled by an untyped value tree; the downloader is modelled in a
  state-and-exception monad over an explicit world (file system, known
  songs, error list, archive, event trace). *)

From Stdlib Require Import ZArith Lia.
From stdpp Require Import base gmap strings list fin_maps pretty.

Set Warnings "-register-all".
Open Scope string_scope.
Open Scope list_scope.

(** ** Python exceptions and results *)

(** The classes are the ones the sources name or can provoke.  Every class
  below derives from [Exception]; process-level signals
  ([KeyboardInterrupt], [SystemExit]) are outside the model. *)
Inductive exn_class :=
| KeyError | TypeError | ValueError | LookupError
| DownloaderError | FFmpegError | MetadataError
| OSError | PermissionError | FileNotFoundError
| UnicodeEncodeError
| OtherException (name : string).

Record exn := Exn { exn_cls : exn_class; exn_msg : string }.

(** [exception.__class__.__name__] *)
Definition class_name (c : exn_class) : string :=
match c with
| KeyError => "KeyError" | TypeError => "TypeError"
| ValueError => "ValueError" | LookupError => "LookupError"
| DownloaderError => "DownloaderError" | FFmpegError => "FFmpegError"
| MetadataError => "MetadataError" | OSError => "OSError"
| PermissionError => "PermissionError"
| FileNotFoundError => "FileNotFoundError"
| UnicodeEncodeError => "UnicodeEncodeError"
| OtherException n => n
end.

(** [isinstance(e, (PermissionError, OSError))] *)
Definition is_OSError (c : exn_class) : bool :=
match c with
| OSError | PermissionError | FileNotFoundError => true
| _ => false
end.

Definition is_UnicodeEncodeError (c : exn_class) : bool :=
match c with UnicodeEncodeError => true | _ => false end.

Inductive res (A : Type) :=
| Returned (a : A)
| Raised (e : exn).
Arguments Returned {A} a.
Arguments Raised {A} e.

Definition res_bind {A B} (r : res A) (k : A → res B) : res B :=
match r with Returned a => k a | Raised e => Raised e end.

(** ** Untyped Python values: the raw provider metadata *)
Module Py.

Inductive pyval :=
  | PNone
  | PBool (b : bool)
  | PInt (z : Z)
  | PStr (s : string)
  | PList (l : list pyval)
  | PDict (d : list (string * pyval)).

Fixpoint assoc (k : string) (d : list (string * pyval)) : option pyval :=
  match d with
  | [] => None
  | (k', v) :: d' => if String.eqb k k' then Some v else assoc k d'
  end.

(** [v[key]] with a string key *)
Definition getitem (v : pyval) (key : string) : res pyval :=
  match v with
  | PDict d =>
      match assoc key d with
      | Some x => Returned x
      | None => Raised (Exn KeyError key)
      end
  | PStr _ => Raised (Exn TypeError "string indices must be integers")
  | PList _ => Raised (Exn TypeError "list indices must be integers or slices, not str")
  | _ => Raised (Exn TypeError "object is not subscriptable")
  end.

Fixpoint chars (s : string) : list pyval :=
  match s with
  | EmptyString => []
  | String c s' => PStr (String c EmptyString) :: chars s'
  end.

(** [for x in v] *)
Definition iterate (v : pyval) : res (list pyval) :=
  match v with
  | PList l => Returned l
  | PDict d => Returned (map (λ kv, PStr kv.1) d)
  | PStr s => Returned (chars s)
  | _ => Raised (Exn TypeError "object is not iterable")
  end.

End Py.

(** ** [spotdl/search/songObj.py] *)
Module SongObj.
Import Py.

(** The five private attributes set by [__init__]. *)
Record t := mk {
  rawTrackMeta : pyval;
  rawAlbumMeta : pyval;
  rawArtistMeta : pyval;
  youtubeLink : pyval;
  lyrics : pyval;
}.

(** [get_data_dump]: the dictionary saved to the tracking file. *)
Definition get_data_dump (s : t) : pyval :=
  PDict [ ("youtubeLink", youtubeLink s);
          ("rawTrackMeta", rawTrackMeta s);
          ("rawAlbumMeta", rawAlbumMeta s);
          ("rawArtistMeta", rawArtistMeta s);
          ("lyrics", lyrics s) ].

(** [SongObj.from_dump] (class method).  As in the source, the artist
    metadata is read from the key ['rawAlbumMeta']. *)
Definition from_dump (dataDump : pyval) : res t :=
  res_bind (getitem dataDump "rawTrackMeta") (λ rawTrackMeta,
  res_bind (getitem dataDump "rawAlbumMeta") (λ rawAlbumMeta,
  res_bind (getitem dataDump "rawAlbumMeta") (λ rawArtistMeta,
  res_bind (getitem dataDump "youtubeLink") (λ youtubeLink,
  res_bind (getitem dataDump "lyrics") (λ lyrics,
  Returned (mk rawTrackMeta rawAlbumMeta rawArtistMeta youtubeLink lyrics)))))).

Definition get_youtube_link (s : t) : pyval := youtubeLink s.

Definition get_song_name (s : t) : res pyval :=
  getitem (rawTrackMeta s) "name".

(** The loop [for artist in ...: contributingArtists.append(artist['name'])] *)
Fixpoint names_of (artists : list pyval) : res (list pyval) :=
  match artists with
  | [] => Returned []
  | artist :: rest =>
      res_bind (getitem artist "name") (λ n,
      res_bind (names_of rest) (λ ns, Returned (n :: ns)))
  end.

Definition get_contributing_artists (s : t) : res (list pyval) :=
  res_bind (getitem (rawTrackMeta s) "artists") (λ artists,
  res_bind (iterate artists) names_of).

Definition get_lyrics (s : t) : pyval := lyrics s.

(** The Spotify identifier of the track, as the gatherer reads it from a
    track object ([track["id"]]). *)
Definition track_id (s : t) : res pyval :=
  getitem (rawTrackMeta s) "id".

End SongObj.

(** ** [spotdl/search/songGatherer.py], the function [from_dump] *)
Module SongGatherer.
Import Py.

Definition from_dump (dataDump : pyval) : res SongObj.t :=
  res_bind (getitem dataDump "rawTrackMeta") (λ rawTrackMeta,
  res_bind (getitem dataDump "rawAlbumMeta") (λ rawAlbumMeta,
  res_bind (getitem dataDump "rawAlbumMeta") (λ rawArtistMeta,
  res_bind (getitem dataDump "youtubeLink") (λ youtubeLink,
  res_bind (getitem dataDump "lyrics") (λ lyrics,
  Returned (SongObj.mk rawTrackMeta rawAlbumMeta rawArtistMeta
              youtubeLink lyrics)))))).

End SongGatherer.

(** ** [spotdl/download/downloader.py] *)
Module Downloader.

(** *** State and exceptions

    A computation reads and updates a state and either returns a value or
    raises; the effects performed before a [raise] stay in the state, as
    they do in Python. *)
Definition ST (S A : Type) : Type := S → res A * S.

Definition ret {S A} (a : A) : ST S A := λ s, (Returned a, s).

Definition raise {S A} (e : exn) : ST S A := λ s, (Raised e, s).

Definition bind {S A B} (m : ST S A) (k : A → ST S B) : ST S B :=
  λ s, match m s with
       | (Returned a, s') => k a s'
       | (Raised e, s') => (Raised e, s')
       end.

(** [try: m  except <classes> as exc: h exc] *)
Definition try_except {S A} (m : ST S A) (catches : exn_class → bool)
    (h : exn → ST S A) : ST S A :=
  λ s, match m s with
       | (Raised e, s') =>
           if catches (exn_cls e) then h e s' else (Raised e, s')
       | r => r
       end.

(** A call of a function that touches nothing of the state. *)
Definition call {S A} (r : res A) : ST S A := λ s, (r, s).

Declare Scope st_scope.
Delimit Scope st_scope with st.
Notation "x <- c1 ;; c2" := (bind c1 (λ x, c2))
  (at level 20, c1 at level 99, c2 at level 200, only parsing) : st_scope.
Notation "' pat <- c1 ;; c2" :=
  (bind c1 (λ x, match x with pat => c2 end))
  (at level 20, pat pattern, c1 at level 99, c2 at level 200, only parsing)
  : st_scope.
Notation "e1 ;; e2" := (bind e1 (λ _, e2))
  (at level 100, e2 at level 200, only parsing, right associativity)
  : st_scope.
Open Scope st_scope.

Definition when {S} (b : bool) (m : ST S unit) : ST S unit :=
  if b then m else ret ().

(** [for x in xs: body x] *)
Fixpoint for_each {S A} (xs : list A) (body : A → ST S unit) : ST S unit :=
  match xs with
  | [] => ret ()
  | x :: xs' => body x ;; for_each xs' body
  end.

(** [[f x for x in xs]] with an effectful [f] *)
Fixpoint map_st {S A B} (f : A → ST S B) (xs : list A) : ST S (list B) :=
  match xs with
  | [] => ret []
  | x :: xs' => y <- f x ;; ys <- map_st f xs' ;; ret (y :: ys)
  end.

(** [[x for x in xs if p x]] with an effectful [p] *)
Fixpoint filter_st {S A} (p : A → ST S bool) (xs : list A) : ST S (list A) :=
  match xs with
  | [] => ret []
  | x :: xs' =>
      b <- p x ;; ys <- filter_st p xs' ;; ret (if b then x :: ys else ys)
  end.

(** *** Data *)

(** Paths are kept as strings; the operations of [pathlib] the code uses
    ([absolute], [with_suffix], [/], [parent]) are taken from the
    environment below. *)
Abbreviation Path := string.

(** Modelled from the spec: the class [spotdl.types.Song] is not among the
    sources.  It is the Track of the specification, with the attributes
    that the downloader reads or writes: title, artist list and primary
    artist, identity (the URL), resolved audio source, lyrics. *)
Record Song := mkSong {
  song_name : option string;
  song_artists : list string;
  song_artist : string;
  song_url : string;
  song_download_url : option string;
  song_lyrics : option string;
}.

Definition set_lyrics (s : Song) (l : string) : Song :=
  mkSong (song_name s) (song_artists s) (song_artist s) (song_url s)
         (song_download_url s) (Some l).

Definition set_download_url (s : Song) (u : string) : Song :=
  mkSong (song_name s) (song_artists s) (song_artist s) (song_url s)
         (Some u) (song_lyrics s).

(** Truth value of a Python string and of an optional string. *)
Definition str_truthy (s : string) : bool := negb (String.eqb s "").
Definition opt_truthy (o : option string) : bool :=
  match o with Some s => str_truthy s | None => false end.
Definition nonempty {A} (l : list A) : bool :=
  match l with [] => false | _ => true end.

(** Modelled from the spec: the type [DownloaderOptions] of the settings
    dictionary is not among the sources.  The record holds the keys that
    the three methods read in [self.settings]; a path or a bitrate that is
    not set is [None]. *)
Record Settings := mkSettings {
  output : string;
  format : string;
  restrict : bool;
  overwrite : string;
  bitrate : option string;
  ffmpeg_args : option string;
  sponsor_block : bool;
  playlist_numbering : bool;
  archive : option string;
  m3u : option string;
  save_file : option string;
  print_errors : bool;
  threads : Z;
}.

(** What [get_download_metadata] returns (a dictionary made by yt-dlp),
    the keys that are used; [di_abr] is the integer part of the average
    bitrate. *)
Record DownloadInfo := mkInfo {
  di_id : string;
  di_ext : string;
  di_abr : option Z;
  di_filepath : option string;
  di_chapters : list string;
}.

Definition set_filepath (d : DownloadInfo) (p : string) : DownloadInfo :=
  mkInfo (di_id d) (di_ext d) (di_abr d) (Some p) (di_chapters d).

(** JSON documents, for the results file. *)
Inductive JSON :=
  | JNull
  | JBool (b : bool)
  | JNum (z : Z)
  | JStr (s : string)
  | JArr (l : list JSON)
  | JObj (d : list (string * JSON)).

(** *** The file system

    Regular files with a modification time and a content.  Modification
    times are only compared; they are kept as integers.  [denied] holds
    the paths on which a removal, a rename or a write is refused by the
    operating system.  Directories are not kept: every path is taken to
    lie in a directory that exists, so that what a missing directory
    makes fail is outside the model. *)
Record File := mkFile { mtime : Z; data : string }.

Record FS := mkFS {
  files : gmap string File;
  denied : gset string;
  clock : Z;
}.

(** The errors of the operating system, with the text that [str] gives
    them on POSIX, for paths that hold neither a quote nor a backslash. *)
Definition quoted (p : Path) : string := "'" +:+ p +:+ "'".

Definition no_such_file (p : Path) : exn :=
  Exn FileNotFoundError ("[Errno 2] No such file or directory: " +:+ quoted p).

Definition no_such_file2 (src dst : Path) : exn :=
  Exn FileNotFoundError ("[Errno 2] No such file or directory: "
                         +:+ quoted src +:+ " -> " +:+ quoted dst).

Definition not_permitted (p : Path) : exn :=
  Exn PermissionError ("[Errno 13] Permission denied: " +:+ quoted p).

Definition not_permitted2 (src dst : Path) : exn :=
  Exn PermissionError ("[Errno 13] Permission denied: "
                       +:+ quoted src +:+ " -> " +:+ quoted dst).

Definition fs_exists (p : Path) (fs : FS) : bool :=
  match files fs !! p with Some _ => true | None => false end.

Definition fs_stat_mtime (p : Path) (fs : FS) : res Z :=
  match files fs !! p with
  | Some f => Returned (mtime f)
  | None => Raised (no_such_file p)
  end.

Definition fs_unlink (p : Path) (fs : FS) : res unit * FS :=
  match files fs !! p with
  | None => (Raised (no_such_file p), fs)
  | Some _ =>
      if decide (p ∈ denied fs) then (Raised (not_permitted p), fs)
      else (Returned (), mkFS (delete p (files fs)) (denied fs) (clock fs))
  end.

(** [src.replace(dst)]: rename, replacing [dst] when it exists.  The
    directory of [dst] is taken to exist, as every directory is. *)
Definition fs_replace (src dst : Path) (fs : FS) : res unit * FS :=
  match files fs !! src with
  | None => (Raised (no_such_file2 src dst), fs)
  | Some f =>
      if decide (src ∈ denied fs ∨ dst ∈ denied fs)
      then (Raised (not_permitted2 src dst), fs)
      else (Returned (),
            mkFS (<[dst := f]> (delete src (files fs))) (denied fs) (clock fs))
  end.

(** [with open(p, "w") as f: f.write(text)] *)
Definition fs_write (p : Path) (text : string) (fs : FS) : res unit * FS :=
  if decide (p ∈ denied fs) then (Raised (not_permitted p), fs)
  else (Returned (),
        mkFS (<[p := mkFile (clock fs) text]> (files fs)) (denied fs) (clock fs)).

(** [p.mkdir(parents=True, exist_ok=True)]; directories are not kept. *)
Definition fs_mkdir (p : Path) (fs : FS) : res unit * FS :=
  if decide (p ∈ denied fs) then (Raised (not_permitted p), fs)
  else (Returned (), fs).

(** *** Events: what the progress handler and the collaborators are asked *)
Inductive Event :=
  | EvLog (msg : string)
  | EvDebug (msg : string)
  | EvError (msg : string)
  | EvSetSongCount (n : nat)
  | EvNewTracker (url : string)
  | EvNotifySkip (url : string)
  | EvNotifyDownloadComplete (url : string)
  | EvNotifyConversionComplete (url : string)
  | EvNotifyComplete (url : string)
  | EvNotifyError (url : string) (e : exn)
  | EvReinit (url : string)
  | EvGetLyrics (provider : string)
  | EvAudioSearch (provider : string)
  | EvFetch (download_url : string)
  | EvConvert (input out : string)
  | EvEmbed (p : string)
  | EvSponsorBlock
  | EvModifyChapters
  | EvUnlink (p : string)
  | EvReplace (src dst : string)
  | EvMkdir (p : string)
  | EvWrite (p : string)
  | EvArchiveSave (p : string)
  | EvM3u (p : string).

(** *** The world of a downloader

    [known_songs] is a dictionary whose values are list objects: the
    dictionary holds references into [w_heap], so that appending to a list
    obtained from the dictionary is seen by later look-ups, and appending
    to a list that is not stored in it is not. *)
Record World := mkWorld {
  w_fs : FS;
  w_heap : gmap nat (list string);
  w_next : nat;
  known_songs : gmap string nat;
  errors : list string;
  url_archive : gset string;
  trace : list Event;
}.

Definition M := ST World.

Definition emit (ev : Event) : M unit :=
  λ w, (Returned (),
        mkWorld (w_fs w) (w_heap w) (w_next w) (known_songs w) (errors w)
                (url_archive w) (trace w ++ [ev])).

Definition with_fs {A} (op : FS → res A * FS) : M A :=
  λ w, match op (w_fs w) with
       | (r, fs') =>
           (r, mkWorld fs' (w_heap w) (w_next w) (known_songs w) (errors w)
                       (url_archive w) (trace w))
       end.

Definition read_fs {A} (f : FS → A) : M A := λ w, (Returned (f (w_fs w)), w).

(** [self.errors.append(msg)] *)
Definition errors_append (msg : string) : M unit :=
  λ w, (Returned (),
        mkWorld (w_fs w) (w_heap w) (w_next w) (known_songs w)
                (errors w ++ [msg]) (url_archive w) (trace w)).

(** Modelled from the spec: the class [Archive] is not among the sources;
    it is a set of item identifiers.  [self.url_archive.add(u)] *)
Definition archive_add (u : string) : M unit :=
  λ w, (Returned (),
        mkWorld (w_fs w) (w_heap w) (w_next w) (known_songs w) (errors w)
                ({[u]} ∪ url_archive w) (trace w)).

(** [self.known_songs.get(key, [])]: the list stored under [key], or a
    fresh empty list, which the dictionary does not hold. *)
Definition known_get_default (key : string) : M nat :=
  λ w, match known_songs w !! key with
       | Some l => (Returned l, w)
       | None =>
           (Returned (w_next w),
            mkWorld (w_fs w) (<[w_next w := []]> (w_heap w)) (S (w_next w))
                    (known_songs w) (errors w) (url_archive w) (trace w))
       end.

Definition list_read (l : nat) : M (list string) :=
  λ w, (Returned (default [] (w_heap w !! l)), w).

(** [lst.append(x)] on the list object [l] *)
Definition list_append (l : nat) (x : string) : M unit :=
  λ w, (Returned (),
        mkWorld (w_fs w) (alter (λ xs, xs ++ [x]) l (w_heap w)) (w_next w)
                (known_songs w) (errors w) (url_archive w) (trace w)).

(** What a look-up of [key] in the known-files index yields. *)
Definition known_paths (w : World) (key : string) : list string :=
  match known_songs w !! key with
  | Some l => default [] (w_heap w !! l)
  | None => []
  end.

Definition log (msg : string) : M unit := emit (EvLog msg).
Definition debug (msg : string) : M unit := emit (EvDebug msg).

Definition path_exists (p : Path) : M bool := read_fs (fs_exists p).
Definition stat_mtime (p : Path) : M Z := λ w, (fs_stat_mtime p (w_fs w), w).
Definition unlink (p : Path) : M unit :=
  emit (EvUnlink p) ;; with_fs (fs_unlink p).
Definition replace_file (src dst : Path) : M unit :=
  emit (EvReplace src dst) ;; with_fs (fs_replace src dst).
Definition write_text (p : Path) (text : string) : M unit :=
  emit (EvWrite p) ;; with_fs (fs_write p text).
Definition mkdir (p : Path) : M unit :=
  emit (EvMkdir p) ;; with_fs (fs_mkdir p).

(** *** The collaborators

    Everything the three methods call that lives outside this module:
    provider objects, the formatter, the configuration paths, [pathlib],
    the clock, yt-dlp, ffmpeg, the metadata embedder, the archive and the
    playlist writer.  A collaborator either returns or raises; the ones
    that work on files transform the file system. *)
Record LyricsProvider := mkLyricsProvider {
  lp_name : string;
  get_lyrics : option string → list string → res (option string);
}.

Record AudioProvider := mkAudioProvider {
  ap_name : string;
  ap_search : Song → res (option string);
}.

Record Env := mkEnv {
  settings : Settings;
  ffmpeg : string;
  lyrics_providers : list LyricsProvider;
  audio_providers : list AudioProvider;
  (* spotdl.types.Song *)
  display_name : Song → string;
  song_json : Song → JSON;
  (* spotdl.utils.search *)
  reinit_song : Song → bool → res Song;
  (* spotdl.utils.formatter *)
  create_file_name : Song → string → string → res string;
  restrict_filename : string → res string;
  (* spotdl.utils.config *)
  get_temp_path : res string;
  get_errors_path : res string;
  (* pathlib *)
  absolute : string → string;
  with_suffix : string → string → string;
  joinpath : string → string → string;
  parent : string → string;
  (* builtins and datetime *)
  str_strip : string → string;
  now_stamp : string;
  json_dumps : JSON → string;
  (* AudioProvider(...).get_download_metadata(url, download=True) *)
  get_download_metadata : string → FS → res (option DownloadInfo) * FS;
  (* spotdl.utils.ffmpeg.convert: input, output, ffmpeg, format, bitrate, args *)
  convert : string → string → string → string → option string →
            option string → FS → res (bool * option (list (string * string))) * FS;
  (* spotdl.utils.metadata.embed_metadata *)
  embed_metadata : string → Song → FS → res unit * FS;
  (* yt-dlp post processors *)
  sponsorblock_run : DownloadInfo → FS → res DownloadInfo * FS;
  modify_chapters_run : DownloadInfo → FS → res (list string * DownloadInfo) * FS;
  (* spotdl.utils.m3u.gen_m3u_files and Archive.save *)
  gen_m3u_files : list Song → string → string → string → FS → res unit * FS;
  archive_save : gset string → string → FS → res unit * FS;
}.

(** *** Small string helpers for the f-strings *)
Definition nl : string := String (Ascii.ascii_of_nat 10) EmptyString.
Definition dquote : string := String (Ascii.ascii_of_nat 34) EmptyString.

Fixpoint join (sep : string) (l : list string) : string :=
  match l with
  | [] => ""
  | [x] => x
  | x :: rest => x +:+ sep +:+ join sep rest
  end.

(** [str] of a list of paths *)
Definition paths_repr (l : list string) : string :=
  "[" +:+ join ", " (map (λ p, "PosixPath('" +:+ p +:+ "')") l) +:+ "]".

Definition as_truthy (o : option string) : option string :=
  match o with
  | Some s => if str_truthy s then Some s else None
  | None => None
  end.

(** [max(paths, key=...)] on the keys already computed: the first element
    whose key is the greatest. *)
Fixpoint max_by_key (best : string) (best_key : Z) (rest : list (string * Z))
    : string :=
  match rest with
  | [] => best
  | (p, k) :: rest' =>
      if (best_key <? k)%Z then max_by_key p k rest'
      else max_by_key best best_key rest'
  end.

Definition max_path (l : list (string * Z)) : option string :=
  match l with
  | [] => None
  | (p, k) :: rest => Some (max_by_key p k rest)
  end.

Section Pipeline.
Variable E : Env.

(** The per-track pipeline runs on a frame: the local variable [song]
    (rebound by [reinit_song], mutated by the assignments to its
    attributes, read by the handler and returned at the end) and the
    world. *)
Definition P := ST (Song * World).

Definition up {A} (m : M A) : P A :=
  λ sw, match m sw.2 with (r, w') => (r, (sw.1, w')) end.

Definition get_song : P Song := λ sw, (Returned sw.1, sw).

(** An assignment to an attribute of [song]. *)
Definition assign_song (f : Song → Song) : P unit :=
  λ sw, (Returned (), (f sw.1, sw.2)).

(** [song = f(song)] for a call that may raise. *)
Definition rebind_song (f : Song → res Song) : P unit :=
  λ sw, match f sw.1 with
        | Returned s => (Returned (), (s, sw.2))
        | Raised e => (Raised e, sw)
        end.

(** [Downloader.search] *)
Fixpoint search_from (providers : list AudioProvider) (song : Song) : M string :=
  match providers with
  | [] => raise (Exn LookupError
                   ("No results found for song: " +:+ display_name E song))
  | audio_provider :: rest =>
      emit (EvAudioSearch (ap_name audio_provider)) ;;
      url <- call (ap_search audio_provider song) ;;
      match as_truthy url with
      | Some u => ret u
      | None =>
          debug (ap_name audio_provider +:+ " failed to find "
                 +:+ display_name E song) ;;
          search_from rest song
      end
  end.

Definition search (song : Song) : M string :=
  search_from (audio_providers E) song.

(** [Downloader.search_lyrics] *)
Fixpoint search_lyrics_from (providers : list LyricsProvider) (song : Song)
    : M (option string) :=
  match providers with
  | [] => ret None
  | lyrics_provider :: rest =>
      emit (EvGetLyrics (lp_name lyrics_provider)) ;;
      lyrics <- call (get_lyrics lyrics_provider (song_name song)
                        (song_artists song)) ;;
      match as_truthy lyrics with
      | Some l =>
          debug ("Found lyrics for " +:+ display_name E song +:+ " on "
                 +:+ lp_name lyrics_provider) ;;
          ret (Some l)
      | None =>
          debug (lp_name lyrics_provider +:+ " failed to find lyrics for "
                 +:+ display_name E song) ;;
          search_lyrics_from rest song
      end
  end.

Definition search_lyrics (song : Song) : M (option string) :=
  search_lyrics_from (lyrics_providers E) song.

(** What the first part of [search_and_download] computes. *)
Record Ctx := mkCtx {
  output_file : string;
  temp_folder : string;
  dup_song_paths : list string;
}.

(** The first lines of [search_and_download]: a placeholder is resolved
    again, the lyrics are looked up, the progress tracker is created. *)
Definition resolve_song (song0 : Song) : P unit :=
  when (match song_name song0 with None => true | Some _ => false end
        && str_truthy (song_url song0))
       (up (emit (EvReinit (song_url song0))) ;;
        rebind_song
          (λ song, reinit_song E song (playlist_numbering (settings E)))) ;;
  song <- get_song ;;
  lyrics <- up (search_lyrics song) ;;
  match lyrics with
  | None =>
      up (debug ("No lyrics found for " +:+ display_name E song
                 +:+ ", lyrics providers: "
                 +:+ join ", " (map lp_name (lyrics_providers E))))
  | Some l => assign_song (λ song, set_lyrics song l)
  end ;;
  song <- get_song ;;
  up (emit (EvNewTracker (song_url song))).

(** The output file and the temporary folder. *)
Definition output_paths : P (string * string) :=
  song <- get_song ;;
  output_file <- call (create_file_name E song (output (settings E))
                         (format (settings E))) ;;
  temp_folder <- call (get_temp_path E) ;;
  output_file <- (if restrict (settings E)
                  then call (restrict_filename E output_file)
                  else ret output_file) ;;
  ret (output_file, temp_folder).

(** The test of the list comprehension over the known paths. *)
Definition is_duplicate (output_file dup_song_path : string) : M bool :=
  if bool_decide (absolute E dup_song_path ≠ absolute E output_file)
  then path_exists dup_song_path
  else ret false.

(** The known files of the song that exist and are not the output file. *)
Definition duplicate_candidates (output_file : string) : P (list string) :=
  song <- get_song ;;
  l <- up (known_get_default (song_url song)) ;;
  known <- up (list_read l) ;;
  dup_song_paths <- up (filter_st (is_duplicate output_file) known) ;;
  when (nonempty dup_song_paths)
       (up (debug ("Found duplicate songs for " +:+ display_name E song
                   +:+ " at " +:+ paths_repr dup_song_paths))) ;;
  ret dup_song_paths.

(** [search_and_download], from its first line to the debug message about
    duplicates. *)
Definition prologue (song0 : Song) : P Ctx :=
  resolve_song song0 ;;
  ' (output_file, temp_folder) <- output_paths ;;
  dup_song_paths <- duplicate_candidates output_file ;;
  ret (mkCtx output_file temp_folder dup_song_paths).

(** The loop that removes duplicates, a failed removal being logged. *)
Definition remove_duplicate (p : string) : P unit :=
  try_except
    (up (log ("Removing duplicate file: " +:+ p)) ;; up (unlink p))
    is_OSError
    (λ exc, up (debug ("Could not remove duplicate file: " +:+ p
                       +:+ ", error: " +:+ exn_msg exc))).

(** The body of the loop of the branch for [metadata]: the most recent
    duplicate is passed over, the others are removed. *)
Definition remove_unless_most_recent (most_recent_duplicate : option string)
    (old_song_path : string) : P unit :=
  if bool_decide (most_recent_duplicate = Some old_song_path) then ret ()
  else remove_duplicate old_song_path.

(** The branch for [overwrite == "force"]. *)
Definition force_overwrite (c : Ctx) : P unit :=
  song <- get_song ;;
  up (log ("Overwriting " +:+ display_name E song
           +:+ (if nonempty (dup_song_paths c) then " (duplicate)" else ""))) ;;
  for_each (dup_song_paths c) remove_duplicate.

(** The branch for [overwrite == "metadata"]. *)
Definition update_metadata (c : Ctx) : P (option string) :=
  most_recent_duplicate <-
    (if nonempty (dup_song_paths c) then
       mtimes <- up (map_st stat_mtime (dup_song_paths c)) ;;
       let most_recent_duplicate :=
         max_path (zip (dup_song_paths c) mtimes) in
       for_each (dup_song_paths c)
         (remove_unless_most_recent most_recent_duplicate) ;;
       match most_recent_duplicate with
       | Some p =>
           up (replace_file p
                 (with_suffix E (output_file c) ("." +:+ format (settings E))))
       | None => ret ()
       end ;;
       ret most_recent_duplicate
     else ret None) ;;
  song <- get_song ;;
  up (emit (EvEmbed (output_file c))) ;;
  up (with_fs (embed_metadata E (output_file c) song)) ;;
  up (log (match most_recent_duplicate with
           | Some _ => "Updated metadata for " +:+ display_name E song
                       +:+ ", moved to new location: " +:+ output_file c
           | None => ""
           end)) ;;
  up (emit (EvNotifyComplete (song_url song))) ;;
  ret (Some (output_file c)).

(** How the part before the [try] block ends: with a [return], or by
    reaching the block. *)
Inductive Flow :=
  | Finished (r : option string)
  | Proceed (c : Ctx).

Definition exists_or_dups (c : Ctx) : P bool :=
  ex <- up (path_exists (output_file c)) ;;
  ret (ex || nonempty (dup_song_paths c)).

(** [search_and_download] up to the [try]. *)
Definition preamble (song0 : Song) : P Flow :=
  c <- prologue song0 ;;
  song <- get_song ;;
  present <- exists_or_dups c ;;
  if present && String.eqb (overwrite (settings E)) "skip" then
    up (log ("Skipping " +:+ display_name E song
             +:+ (if nonempty (dup_song_paths c) then " (duplicate)" else "")
             +:+ " (file already exists)")) ;;
    up (emit (EvNotifySkip (song_url song))) ;;
    ret (Finished None)
  else
    present <- exists_or_dups c ;;
    when (present && String.eqb (overwrite (settings E)) "force")
         (force_overwrite c) ;;
    present <- exists_or_dups c ;;
    if present && String.eqb (overwrite (settings E)) "metadata" then
      r <- update_metadata c ;;
      ret (Finished r)
    else
      up (mkdir (parent E (output_file c))) ;;
      ret (Proceed c).

(** What the first half of the [try] block leaves: the source address, the
    download information, the temporary file and the answer of [convert]. *)
Record Converted := mkConverted {
  cv_url : string;
  cv_info : DownloadInfo;
  cv_temp : string;
  cv_success : bool;
  cv_result : option (list (string * string));
}.

(** The bitrate argument of [convert]. *)
Definition choose_bitrate (info : DownloadInfo) : P (option string) :=
  match bitrate (settings E) with
  | Some b =>
      if String.eqb b "disable" then ret None
      else if String.eqb b "auto" then
        match di_abr info with
        | Some abr => ret (Some (pretty abr +:+ "k"))
        | None => raise (Exn KeyError "'abr'")
        end
      else ret (Some b)
  | None =>
      match di_abr info with
      | Some abr => ret (Some (pretty abr +:+ "k"))
      | None => raise (Exn KeyError "'abr'")
      end
  end.

(** The [try] block from the search for an audio source to the call of
    [convert].  The construction of the [AudioProvider] and the
    registration of the progress hook are part of the collaborator
    [get_download_metadata].  The temporary path is built from the
    download information before the test for [None], so a missing
    download information raises where it is subscripted. *)
Definition download_and_convert (c : Ctx) : P Converted :=
  song <- get_song ;;
  download_url <- match song_download_url song with
                  | None => up (search song)
                  | Some u => ret u
                  end ;;
  up (debug ("Downloading " +:+ display_name E song +:+ " using "
             +:+ download_url)) ;;
  up (emit (EvFetch download_url)) ;;
  download_info <- up (with_fs (get_download_metadata E download_url)) ;;
  match download_info with
  | None => raise (Exn TypeError "'NoneType' object is not subscriptable")
  | Some info =>
      let temp_file :=
        joinpath E (temp_folder c) (di_id info +:+ "." +:+ di_ext info) in
      up (emit (EvNotifyDownloadComplete (song_url song))) ;;
      bitrate <- choose_bitrate info ;;
      up (emit (EvConvert temp_file (output_file c))) ;;
      ' (success, result) <-
        up (with_fs (convert E temp_file (output_file c) (ffmpeg E)
                       (format (settings E)) bitrate
                       (ffmpeg_args (settings E)))) ;;
      ret (mkConverted download_url info temp_file success result)
  end.

(** Removal of the temporary file: a failure is raised again as a
    [DownloaderError]. *)
Definition remove_temp (temp_file : string) : P unit :=
  ex <- up (path_exists temp_file) ;;
  when ex
    (try_except (up (unlink temp_file)) is_OSError
       (λ exc,
          up (debug ("Could not remove temp file: " +:+ temp_file
                     +:+ ", error: " +:+ exn_msg exc)) ;;
          raise (Exn DownloaderError
                   ("Could not remove temp file: " +:+ temp_file
                    +:+ ", possible duplicate song")))).

Definition result_truthy (r : option (list (string * string))) : bool :=
  match r with Some (_ :: _) => true | _ => false end.

(** The text of the error report: one section per item of the result. *)
Definition error_report (result : list (string * string)) : string :=
  fold_left (λ acc kv, acc +:+ "### " +:+ kv.1 +:+ ":" +:+ nl
                       +:+ str_strip E kv.2 +:+ nl +:+ nl)
            result "".

Definition error_file_name (errors_path : string) : string :=
  joinpath E errors_path ("ffmpeg_error_" +:+ now_stamp E +:+ ".txt").

(** The branch [if not success and result]. *)
Definition report_failure (c : Ctx) (result : list (string * string))
    : P (option string) :=
  errors_path <- call (get_errors_path E) ;;
  let file_name := error_file_name errors_path in
  up (write_text file_name (error_report result)) ;;
  ex <- up (path_exists (output_file c)) ;;
  when ex (up (unlink (output_file c))) ;;
  song <- get_song ;;
  raise (Exn FFmpegError
           ("Failed to convert " +:+ display_name E song
            +:+ ", you can find error here: " +:+ absolute E file_name)).

(** The SponsorBlock post processing. *)
Definition remove_sponsor_segments (info : DownloadInfo) : P unit :=
  song <- get_song ;;
  up (emit EvSponsorBlock) ;;
  info <- up (with_fs (sponsorblock_run E info)) ;;
  let chapters := di_chapters info in
  when (0 <? length chapters)%nat
    (up (log ("Removing " +:+ pretty (length chapters)
              +:+ " sponsor segments for " +:+ display_name E song)) ;;
     up (emit EvModifyChapters) ;;
     ' (files_to_delete, _) <- up (with_fs (modify_chapters_run E info)) ;;
     for_each files_to_delete (λ file_to_delete, up (unlink file_to_delete))).

(** [self.known_songs.get(song.url, []).append(output_file)] *)
Definition register_known (key : string) (p : string) : M unit :=
  l <- known_get_default key ;;
  list_append l p.

(** The [try] block after the call of [convert]. *)
Definition post_convert (c : Ctx) (cv : Converted) : P (option string) :=
  remove_temp (cv_temp cv) ;;
  if negb (cv_success cv) && result_truthy (cv_result cv) then
    report_failure c (default [] (cv_result cv))
  else
      let download_info := set_filepath (cv_info cv) (output_file c) in
      song <- get_song ;;
      when (match song_download_url song with None => true | _ => false end)
           (assign_song (λ song, set_download_url song (cv_url cv))) ;;
      song <- get_song ;;
      up (emit (EvNotifyConversionComplete (song_url song))) ;;
      when (sponsor_block (settings E))
           (remove_sponsor_segments download_info) ;;
      try_except
        (up (emit (EvEmbed (output_file c))) ;;
         up (with_fs (embed_metadata E (output_file c) song)))
        (λ _, true)
        (λ _, raise (Exn MetadataError "Failed to embed metadata to the song")) ;;
      up (emit (EvNotifyComplete (song_url song))) ;;
      up (register_known (song_url song) (output_file c)) ;;
      up (log ("Downloaded " +:+ dquote +:+ display_name E song +:+ dquote
               +:+ ": " +:+ default "None" (song_download_url song))) ;;
      ret (Some (output_file c)).

(** The whole [try] block. *)
Definition guarded (c : Ctx) : P (option string) :=
  cv <- download_and_convert c ;;
  post_convert c cv.

(** The exception the handler reports: a [UnicodeEncodeError] is replaced
    by a [DownloaderError] with a hint. *)
Definition reported (exception : exn) : exn :=
  if is_UnicodeEncodeError (exn_cls exception)
  then Exn DownloaderError
         "You may need to add PYTHONIOENCODING=utf-8 to your environment"
  else exception.

(** The entry of the error list. *)
Definition error_entry (song : Song) (exception : exn) : string :=
  song_url song +:+ " - " +:+ class_name (exn_cls exception) +:+ ": "
  +:+ exn_msg exception.

(** The handler [except (Exception, UnicodeEncodeError) as exception]. *)
Definition on_error (exception : exn) : P (option string) :=
  let exception := reported exception in
  song <- get_song ;;
  up (emit (EvNotifyError (song_url song) exception)) ;;
  up (errors_append (error_entry song exception)) ;;
  ret None.

(** The body of [search_and_download]; what it returns beside [song]. *)
Definition search_and_download_frame (song0 : Song) : P (option string) :=
  flow <- preamble song0 ;;
  match flow with
  | Finished r => ret r
  | Proceed c => try_except (guarded c) (λ _, true) on_error
  end.

(** [Downloader.search_and_download]: the body runs on a frame whose
    variable [song] is the argument; every [return song, x] of the source
    hands back that variable as it is then. *)
Definition search_and_download (song : Song) : M (Song * option string) :=
  λ w, match search_and_download_frame song (song, w) with
       | (Returned x, sw) => (Returned (sw.1, x), sw.2)
       | (Raised e, sw) => (Raised e, sw.2)
       end.

(** *** The pool: [pool_download] under the semaphore

    Every scheduled song is a task.  A task waits for the semaphore, holds
    it while [search_and_download] runs in the executor, and gives it back
    when the call ends, with a result or with an exception.  The event loop interleaves the tasks freely: an
    execution is a list of actions.  The effects of one call on the world
    are taken at the moment the call ends. *)
Inductive TaskState :=
  | Waiting
  | Running
  | Done (r : Song * option string)
  | Broken (e : exn).

Record Pool := mkPool {
  permits : nat;
  tasks : list (Song * TaskState);
  pool_world : World;
  failed : option exn;
}.

Inductive Action :=
  | Acquire (i : nat)
  | Complete (i : nat).

(** [asyncio.Semaphore(threads)], then
    [ThreadPoolExecutor(max_workers=threads)], in [__init__]: the
    semaphore refuses a negative value, the executor a value that is not
    positive. *)
Definition pool_limit (threads : Z) : res nat :=
  if (threads <? 0)%Z
  then Raised (Exn ValueError "Semaphore initial value must be >= 0")
  else if (threads =? 0)%Z
  then Raised (Exn ValueError "max_workers must be greater than 0")
  else Returned (Z.to_nat threads).

Definition init_pool (limit : nat) (songs : list Song) (w : World) : Pool :=
  mkPool limit (map (λ song, (song, Waiting)) songs) w None.

(** One step of the event loop.  Once a task has raised, [gather] hands the
    exception to the caller and nothing more is run. *)
Definition pool_step (a : Action) (p : Pool) : option Pool :=
  match failed p with
  | Some _ => None
  | None =>
      match a with
      | Acquire i =>
          match tasks p !! i, permits p with
          | Some (song, Waiting), S n =>
              Some (mkPool n (<[i := (song, Running)]> (tasks p))
                           (pool_world p) None)
          | _, _ => None
          end
      | Complete i =>
          match tasks p !! i with
          | Some (song, Running) =>
              match search_and_download song (pool_world p) with
              | (Returned r, w') =>
                  Some (mkPool (S (permits p))
                               (<[i := (song, Done r)]> (tasks p)) w' None)
              | (Raised e, w') =>
                  Some (mkPool (S (permits p))
                               (<[i := (song, Broken e)]> (tasks p)) w'
                               (Some e))
              end
          | _ => None
          end
      end
  end.

Fixpoint run_actions (acts : list Action) (p : Pool) : option Pool :=
  match acts with
  | [] => Some p
  | a :: rest =>
      match pool_step a p with
      | Some p' => run_actions rest p'
      | None => None
      end
  end.

Definition is_running (t : Song * TaskState) : bool :=
  match t.2 with Running => true | _ => false end.

(** How many tasks hold the semaphore. *)
Definition running (p : Pool) : nat :=
  length (List.filter is_running (tasks p)).

Definition task_result (t : Song * TaskState) : option (Song * option string) :=
  match t.2 with Done r => Some r | _ => None end.

(** [asyncio.gather] over the tasks: the exception of a task that raised, or the
    results in the order of the tasks once all are done. *)
Definition gather (p : Pool) : option (res (list (Song * option string))) :=
  match failed p with
  | Some e => Some (Raised e)
  | None =>
      match mapM task_result (tasks p) with
      | Some results => Some (Returned results)
      | None => None
      end
  end.

(** The songs that are scheduled: the archive filter. *)
Definition scheduled (songs : list Song) (w : World) : list Song :=
  if opt_truthy (archive (settings E))
  then filter (λ song, song_url song ∉ url_archive w) songs
  else songs.

(** The content of the results file. *)
Definition results_document (results : list (Song * option string)) : JSON :=
  JArr (map (λ r, song_json E r.1) results).

(** [download_multiple_songs] after [gather] has returned. *)
Definition epilogue (results : list (Song * option string))
    : M (list (Song * option string)) :=
  when (print_errors (settings E))
       (λ w, for_each (errors w) (λ error, emit (EvError error)) w) ;;
  match as_truthy (archive (settings E)) with
  | Some path =>
      for_each results
        (λ result, when (match result.2 with Some _ => true | None => false end)
                        (archive_add (song_url result.1))) ;;
      emit (EvArchiveSave path) ;;
      (λ w, with_fs (archive_save E (url_archive w) path) w)
  | None => ret ()
  end ;;
  match as_truthy (m3u (settings E)) with
  | Some file =>
      emit (EvM3u file) ;;
      with_fs (gen_m3u_files E (map fst results) file
                 (output (settings E)) (format (settings E)))
  | None => ret ()
  end ;;
  match as_truthy (save_file (settings E)) with
  | Some file => write_text file (json_dumps E (results_document results))
  | None => ret ()
  end ;;
  ret results.

(** [Downloader.download_multiple_songs], for an execution [acts] of the
    event loop.  [None]: [acts] is not an execution of the pool, or it
    stops before [gather] has an answer. *)
Definition download_multiple_songs (acts : list Action) (songs : list Song)
    (w : World) : option (res (list (Song * option string)) * World) :=
  let songs := scheduled songs w in
  let w1 := (emit (EvSetSongCount (length songs)) w).2 in
  match run_actions acts
          (init_pool (Z.to_nat (threads (settings E))) songs w1) with
  | None => None
  | Some p =>
      match gather p with
      | None => None
      | Some (Raised e) => Some (Raised e, pool_world p)
      | Some (Returned results) => Some (epilogue results (pool_world p))
      end
  end.


End Pipeline.

End Downloader.

(** ** Vocabulary for the statements *)
Import Downloader.

(** Every run of [m] relates the state before to the state after. *)
Definition respects {S A} (R : S → S → Prop) (m : ST S A) : Prop :=
  ∀ s r s', m s = (r, s') → R s s'.

(** A relation on worlds, seen on frames. *)
Definition on_world (R : World → World → Prop)
    : Song * World → Song * World → Prop :=
  λ sw sw', R sw.2 sw'.2.

Definition same_errors (w w' : World) : Prop := errors w' = errors w.
Definition same_known (w w' : World) : Prop := known_songs w' = known_songs w.
Definition same_files (w w' : World) : Prop := w_fs w' = w_fs w.
Definition same_archive (w w' : World) : Prop := url_archive w' = url_archive w.
Definition same_heap (w w' : World) : Prop := w_heap w' = w_heap w.

(** The trace grows, by events that satisfy [Q]. *)
Definition trace_grows (Q : Event → bool) (w w' : World) : Prop :=
  ∃ evs, trace w' = trace w ++ evs ∧ forallb Q evs = true.

(** Events that are neither a call of an audio provider, of the fetcher or
    of the transcoder, nor a change on disk. *)
Definition quiet (ev : Event) : bool :=
  match ev with
  | EvAudioSearch _ | EvFetch _ | EvConvert _ _ | EvEmbed _
  | EvSponsorBlock | EvModifyChapters
  | EvUnlink _ | EvReplace _ _ | EvMkdir _ | EvWrite _
  | EvArchiveSave _ | EvM3u _ => false
  | _ => true
  end.

(** Events that are no search for an audio source, no fetch and no
    transcoding. *)
Definition no_download (ev : Event) : bool :=
  match ev with
  | EvAudioSearch _ | EvFetch _ | EvConvert _ _ => false
  | _ => true
  end.

(** The variable [song] keeps its URL. *)
Definition same_url (sw sw' : Song * World) : Prop :=
  song_url sw'.1 = song_url sw.1.

(** The contract of [reinit_song] that the statements about URLs rely on:
    a placeholder is resolved to the track of the same URL. *)
Definition reinit_keeps_url (E : Env) : Prop :=
  ∀ song numbering song',
    reinit_song E song numbering = Returned song' →
    song_url song' = song_url song.

(** The test that keeps a known path as a duplicate candidate: it differs
    from the output file and it exists. *)
Definition candidate (E : Env) (fs : FS) (out p : string) : bool :=
  bool_decide (absolute E p ≠ absolute E out) && fs_exists p fs.

(** The directory of [p] is there: a file lives in it.  The model keeps
    no directories, and this is what it can say of one. *)
Definition directory_exists (E : Env) (fs : FS) (p : string) : Prop :=
  ∃ q f, files fs !! q = Some f ∧ parent E q = parent E p.

(** The modification time of a path, [0] when there is no such file. *)
Definition mtime_at (fs : FS) (p : string) : Z :=
  match files fs !! p with Some f => mtime f | None => 0%Z end.

(** What the branch for [metadata] has done to the files when it calls
    the embedder: with no duplicate candidate, nothing; otherwise one
    candidate of greatest modification time has been renamed to the output
    file and no candidate is left. *)
Definition reconciled (fs : FS) (c : Ctx) (fs_mid : FS) : Prop :=
  match dup_song_paths c with
  | [] => fs_mid = fs
  | _ =>
      ∃ chosen f,
        chosen ∈ dup_song_paths c
        ∧ files fs !! chosen = Some f
        ∧ (∀ p, p ∈ dup_song_paths c → (mtime_at fs p ≤ mtime f)%Z)
        ∧ files fs_mid !! output_file c = Some f
        ∧ (∀ p, p ∈ dup_song_paths c → files fs_mid !! p = None)
        ∧ (∀ q, q ∉ dup_song_paths c → q ≠ output_file c →
                files fs_mid !! q = files fs !! q)
  end.

(** What holds of every pool that an execution reaches. *)
Definition pool_ok (E : Env) (limit : nat) (songs : list Song) (a : gset string)
    (p : Pool) : Prop :=
  map fst (tasks p) = songs
  ∧ permits p + running p = limit
  ∧ url_archive (pool_world p) = a.


(** Every event: with it [trace_grows] says that the trace is extended. *)
Definition any_event (ev : Event) : bool := true.

(** ** Concrete collaborators, for running the model *)
Module Examples.

Definition ex_settings (policy : string) : Settings :=
  mkSettings "/music" "mp3" false policy (Some "128k") None false false
             None None None false 2.

Definition ex_display (s : Song) : string :=
  song_artist s +:+ " - " +:+ default "None" (song_name s).

Definition ex_opt (o : option string) : JSON :=
  match o with Some s => JStr s | None => JNull end.

Definition ex_json (s : Song) : JSON :=
  JObj [ ("name", ex_opt (song_name s));
         ("artists", JArr (map JStr (song_artists s)));
         ("artist", JStr (song_artist s));
         ("url", JStr (song_url s));
         ("download_url", ex_opt (song_download_url s));
         ("lyrics", ex_opt (song_lyrics s)) ].

(** The part of [s] before the last occurrence of [c]. *)
Fixpoint cut_at_last (c : Ascii.ascii) (s : string) : option string :=
  match s with
  | EmptyString => None
  | String a s' =>
      match cut_at_last c s' with
      | Some pre => Some (String a pre)
      | None => if Ascii.eqb a c then Some EmptyString else None
      end
  end.

Definition ex_with_suffix (p suffix : string) : string :=
  default p (cut_at_last (Ascii.ascii_of_nat 46) p) +:+ suffix.

Definition ex_parent (p : string) : string :=
  default "." (cut_at_last (Ascii.ascii_of_nat 47) p).

Definition ex_join (dir name : string) : string := dir +:+ "/" +:+ name.

Definition put (p : string) (f : File) (fs : FS) : FS :=
  mkFS (<[p := f]> (files fs)) (denied fs) (clock fs).

(** A provider-independent serialisation, enough to compare documents. *)
Fixpoint ex_dumps (j : JSON) : string :=
  match j with
  | JNull => "null"
  | JBool b => if b then "true" else "false"
  | JNum z => pretty z
  | JStr s => dquote +:+ s +:+ dquote
  | JArr l => "[" +:+ join ", " (map ex_dumps l) +:+ "]"
  | JObj d =>
      "{" +:+ join ", " (map (λ kv, dquote +:+ kv.1 +:+ dquote +:+ ": "
                                   +:+ ex_dumps kv.2) d) +:+ "}"
  end.

Definition ex_fetch (url : string) (fs : FS)
    : res (option DownloadInfo) * FS :=
  (Returned (Some (mkInfo "vid" "webm" (Some 128%Z) None [])),
   put "/tmp/spotdl/vid.webm" (mkFile (clock fs) ("raw:" +:+ url)) fs).

(** A transcoder that succeeds. *)
Definition ex_convert (input out ffmpeg fmt : string)
    (bitrate args : option string) (fs : FS)
    : res (bool * option (list (string * string))) * FS :=
  (Returned (true, None), put out (mkFile (clock fs) "audio") fs).

(** A transcoder that fails, leaves a partial output and answers [diag]. *)
Definition ex_convert_fails (diag : option (list (string * string)))
    (input out ffmpeg fmt : string) (bitrate args : option string) (fs : FS)
    : res (bool * option (list (string * string))) * FS :=
  (Returned (false, diag), put out (mkFile (clock fs) "partial") fs).

(** An embedder that tags an existing file and fails on a missing one. *)
Definition ex_embed (p : string) (song : Song) (fs : FS) : res unit * FS :=
  match files fs !! p with
  | Some f =>
      (Returned (),
       put p (mkFile (mtime f) (data f +:+ "+tags:" +:+ song_url song)) fs)
  | None => (Raised (Exn (OtherException "MutagenError") p), fs)
  end.

Definition ex_reinit (song : Song) (numbering : bool) : res Song :=
  Returned (mkSong (Some "Resolved") (song_artists song) (song_artist song)
              (song_url song) (song_download_url song) (song_lyrics song)).

Definition ex_audio : AudioProvider :=
  mkAudioProvider "YouTube"
    (λ song, Returned (Some ("https://yt/" +:+ song_url song))).

(** A lyrics provider that fails on the title [Broken] and finds nothing
    otherwise. *)
Definition ex_lyrics : LyricsProvider :=
  mkLyricsProvider "Genius"
    (λ name artists,
       if bool_decide (name = Some "Broken")
       then Raised (Exn (OtherException "ConnectionError") "genius.com")
       else Returned None).

Definition ex_env (st : Settings) (providers : list LyricsProvider)
    (conv : string → string → string → string → option string →
            option string → FS →
            res (bool * option (list (string * string))) * FS) : Env :=
  mkEnv st "ffmpeg" providers [ex_audio] ex_display ex_json ex_reinit
        (λ song out fmt,
           Returned (out +:+ "/" +:+ ex_display song +:+ "." +:+ fmt))
        (λ p, Returned p)
        (Returned "/tmp/spotdl") (Returned "/errors")
        (λ p, p) ex_with_suffix ex_join ex_parent
        (λ s, s) "2024-01-01-00-00-00" ex_dumps
        ex_fetch conv ex_embed
        (λ info fs, (Returned info, fs))
        (λ info fs, (Returned ([], info), fs))
        (λ songs file out fmt fs, (Returned (), fs))
        (λ arch path fs, fs_write path (join nl (elements arch)) fs).

Definition ex_song (title url : string) : Song :=
  mkSong (Some title) ["Artist"] "Artist" url None None.

Definition ex_fs (l : list (string * File)) : FS :=
  mkFS (list_to_map l) ∅ 100.

(** A world with the files [l]; the known-files index holds [known] under
    the key [key]. *)
Definition ex_world (l : list (string * File)) (key : string)
    (known : list string) : World :=
  mkWorld (ex_fs l) {[ 0%nat := known ]} 1 {[ key := 0%nat ]} [] ∅ [].

(** The same, with the paths [locked] on which the system refuses a
    removal, a rename or a write. *)
Definition ex_locked_known_world (l : list (string * File))
    (locked : list string) (key : string) (known : list string) : World :=
  mkWorld (mkFS (list_to_map l) (list_to_set locked) 100)
          {[ 0%nat := known ]} 1 {[ key := 0%nat ]} [] ∅ [].

(** A world with the files [l] and an empty known-files index. *)
Definition ex_fresh_world (l : list (string * File)) : World :=
  mkWorld (ex_fs l) ∅ 0 ∅ [] ∅ [].

(** Settings of a batch: archive file and results file. *)
Definition ex_batch_settings (archive save : option string) : Settings :=
  mkSettings "/music" "mp3" false "skip" (Some "128k") None false false
             archive None save false 2.

(** A world with no file, whose archive holds the URLs [l]. *)
Definition ex_archived_world (l : list string) : World :=
  mkWorld (ex_fs []) ∅ 0 ∅ [] (list_to_set l) [].

(** A song whose audio source is known already. *)
Definition ex_resolved_song (title url : string) : Song :=
  mkSong (Some title) ["Artist"] "Artist" url (Some ("https://yt/" +:+ url))
         None.

End Examples.

(** ** Vocabulary for further properties of the downloader *)

(** What an audio provider that finds nothing leaves in the trace. *)
Definition failed_search (E : Env) (song : Song) (p : AudioProvider)
    : list Event :=
  [EvAudioSearch (ap_name p);
   EvDebug (ap_name p +:+ " failed to find " +:+ display_name E song)].

(** What a lyrics provider that finds nothing leaves in the trace. *)
Definition failed_lyrics (E : Env) (song : Song) (p : LyricsProvider)
    : list Event :=
  [EvGetLyrics (lp_name p);
   EvDebug (lp_name p +:+ " failed to find lyrics for "
            +:+ display_name E song)].

(** The provider answers, with [None] or with the empty string. *)
Definition finds_no_audio (song : Song) (p : AudioProvider) : Prop :=
  ∃ o, ap_search p song = Returned o ∧ as_truthy o = None.

Definition finds_no_lyrics (song : Song) (p : LyricsProvider) : Prop :=
  ∃ o, get_lyrics p (song_name song) (song_artists song) = Returned o
       ∧ as_truthy o = None.

(** Two worlds that differ by their traces only. *)
Definition same_but_trace (w w' : World) : Prop :=
  w_fs w' = w_fs w ∧ w_heap w' = w_heap w ∧ w_next w' = w_next w
  ∧ known_songs w' = known_songs w ∧ errors w' = errors w
  ∧ url_archive w' = url_archive w.

(** Events that are no question to an audio provider. *)
Definition no_audio_search (ev : Event) : bool :=
  match ev with EvAudioSearch _ => false | _ => true end.

(** The song of a frame is left as it is. *)
Definition same_song (sw sw' : Song * World) : Prop := sw'.1 = sw.1.

(** The song after the assignment [song.download_url = download_url], which
    is made when the song has no download URL yet. *)
Definition with_source (cv : Converted) (song : Song) : Song :=
  match song_download_url song with
  | None => set_download_url song (cv_url cv)
  | Some _ => song
  end.

(** The file system without the file [p]. *)
Definition without_file (p : string) (fs : FS) : FS :=
  mkFS (delete p (files fs)) (denied fs) (clock fs).

(** The address the audio is fetched from: the one of the song, or the one
    that [search] finds. *)
Definition audio_source (E : Env) (song : Song) : M string :=
  match song_download_url song with
  | None => search E song
  | Some u => ret u
  end.

(** The URLs of the results that carry a path. *)
Definition downloaded_urls (results : list (Song * option string))
    : list string :=
  flat_map (λ r, match r.2 with Some _ => [song_url r.1] | None => [] end)
           results.

(** How many results carry no path. *)
Definition without_path (results : list (Song * option string)) : nat :=
  length (List.filter (λ r, match r.2 with None => true | Some _ => false end)
            results).

(** A task that is done and has no path. *)
Definition no_path_task (t : Song * TaskState) : bool :=
  match t.2 with Done (_, None) => true | _ => false end.

(** Events that are no print of an entry of the error list. *)
Definition no_error_event (ev : Event) : bool :=
  match ev with EvError _ => false | _ => true end.

(** [Downloader.download_song], for an execution [acts] of the event loop:
    the song count is set to one, the batch of the one song is run, and
    the first result is handed back; [results[0]] raises an [IndexError]
    on an empty list. *)
Definition download_song (E : Env) (acts : list Action) (song : Song)
    (w : World) : option (res (Song * option string) * World) :=
  match download_multiple_songs E acts [song]
          (emit (EvSetSongCount 1) w).2 with
  | None => None
  | Some (Raised e, w') => Some (Raised e, w')
  | Some (Returned results, w') =>
      match results with
      | r :: _ => Some (Returned r, w')
      | [] => Some (Raised (Exn (OtherException "IndexError")
                              "list index out of range"), w')
      end
  end.


(** ** [Downloader.__init__]

    The settings are the dictionary that the constructor keeps in
    [self.settings], after the defaults have been filled in. *)
Inductive AudioClass := YouTube | YouTubeMusic.

Inductive LyricsClass := Genius | MusixMatch | AzLyrics | Synced.

Definition AUDIO_PROVIDERS : list (string * AudioClass) :=
  [("youtube", YouTube); ("youtube-music", YouTubeMusic)].

Definition LYRICS_PROVIDERS : list (string * LyricsClass) :=
  [("genius", Genius); ("musixmatch", MusixMatch); ("azlyrics", AzLyrics);
   ("synced", Synced)].

(** [d.get(key)] *)
Fixpoint dict_get {A} (key : string) (d : list (string * A)) : option A :=
  match d with
  | [] => None
  | (k, v) :: d' => if String.eqb key k then Some v else dict_get key d'
  end.

(** The keys of the settings that the constructor reads, beside the ones
    of the pipeline. *)
Record Options := mkOptions {
  opt_settings : Settings;
  opt_audio_providers : list string;
  opt_lyrics_providers : list string;
  opt_ffmpeg : string;
  opt_log_level : string;
  opt_simple_tui : bool;
  opt_scan_for_songs : bool;
  opt_cookie_file : option string;
  opt_search_query : option string;
  opt_filter_results : bool;
}.

(** What the constructor calls outside the module. *)
Record Host := mkHost {
  (* shutil.which("ffmpeg") *)
  which_ffmpeg : option string;
  (* str(get_ffmpeg_path().absolute()), None when there is no such file *)
  spotdl_ffmpeg : option string;
  (* asyncio.Semaphore(n) and ThreadPoolExecutor(max_workers=n) *)
  new_semaphore : Z → res unit;
  new_executor : Z → res unit;
  (* NAME_TO_LEVEL and ProgressHandler(level, simple_tui) *)
  NAME_TO_LEVEL : list (string * Z);
  new_progress_handler : Z → bool → res unit;
  (* gather_known_songs(output, format), in the order of the dictionary *)
  gather_known_songs : string → string → FS → res (list (string * list string));
  (* the provider classes *)
  new_lyrics_provider : LyricsClass → res LyricsProvider;
  new_audio_provider : AudioClass → string → option string → option string →
                       bool → res AudioProvider;
  (* Archive.load(file): the identifiers of the file *)
  archive_load : string → FS → res (gset string);
}.

(** The attributes that [__init__] computes, beside the ones of the
    world. *)
Record Built := mkBuilt {
  b_ffmpeg : string;
  b_lyrics_providers : list LyricsProvider;
  b_audio_providers : list AudioProvider;
}.

(** A downloader that has done nothing yet, on the files [fs]. *)
Definition blank (fs : FS) : World := mkWorld fs ∅ 0 ∅ [] ∅ [].

(** [known_songs[url] = paths], with a list object of its own. *)
Definition store_known (kv : string * list string) : M unit :=
  λ w, (Returned (),
        mkWorld (w_fs w) (<[w_next w := kv.2]> (w_heap w)) (S (w_next w))
                (<[kv.1 := w_next w]> (known_songs w)) (errors w)
                (url_archive w) (trace w)).

Definition archive_update (urls : gset string) : M unit :=
  λ w, (Returned (),
        mkWorld (w_fs w) (w_heap w) (w_next w) (known_songs w) (errors w)
                (urls ∪ url_archive w) (trace w)).

Definition lyrics_provider_of (H : Host) (name : string) : M LyricsProvider :=
  match dict_get name LYRICS_PROVIDERS with
  | None => raise (Exn DownloaderError ("Invalid lyrics provider: " +:+ name))
  | Some lyrics_class => call (new_lyrics_provider H lyrics_class)
  end.

Definition audio_provider_of (H : Host) (o : Options) (name : string)
    : M AudioProvider :=
  match dict_get name AUDIO_PROVIDERS with
  | None => raise (Exn DownloaderError ("Invalid audio provider: " +:+ name))
  | Some audio_class =>
      call (new_audio_provider H audio_class (format (opt_settings o))
              (opt_cookie_file o) (opt_search_query o) (opt_filter_results o))
  end.

Definition __init__ (H : Host) (o : Options) : M Built :=
  when (length (opt_audio_providers o) =? 0)%nat
       (raise (Exn DownloaderError
                 "No audio providers specified. Please specify at least one.")) ;;
  ffmpeg <- (if String.eqb (opt_ffmpeg o) "ffmpeg"
                && match which_ffmpeg H with None => true | Some _ => false end
             then match spotdl_ffmpeg H with
                  | None => raise (Exn DownloaderError "ffmpeg is not installed")
                  | Some ffmpeg_exec => ret ffmpeg_exec
                  end
             else ret (opt_ffmpeg o)) ;;
  call (new_semaphore H (threads (opt_settings o))) ;;
  call (new_executor H (threads (opt_settings o))) ;;
  level <- match dict_get (opt_log_level o) (NAME_TO_LEVEL H) with
           | Some level => ret level
           | None => raise (Exn KeyError (opt_log_level o))
           end ;;
  call (new_progress_handler H level (opt_simple_tui o)) ;;
  when (opt_scan_for_songs o)
       (log "Scanning for known songs, this might take a while..." ;;
        known <- (λ w, (gather_known_songs H (output (opt_settings o))
                          (format (opt_settings o)) (w_fs w), w)) ;;
        for_each known store_known) ;;
  lyrics_providers <- map_st (lyrics_provider_of H) (opt_lyrics_providers o) ;;
  audio_providers <- map_st (audio_provider_of H o) (opt_audio_providers o) ;;
  match as_truthy (archive (opt_settings o)) with
  | Some file =>
      urls <- (λ w, (archive_load H file (w_fs w), w)) ;;
      archive_update urls
  | None => ret ()
  end ;;
  debug "Downloader initialized" ;;
  ret (mkBuilt ffmpeg lyrics_providers audio_providers).

(** The environment of the downloader that [__init__] has built: the
    settings and the providers are its own, the rest is what the other
    modules provide. *)
Definition downloader_env (modules : Env) (o : Options) (b : Built) : Env :=
  mkEnv (opt_settings o) (b_ffmpeg b) (b_lyrics_providers b)
        (b_audio_providers b) (display_name modules) (song_json modules)
        (reinit_song modules) (create_file_name modules)
        (restrict_filename modules) (get_temp_path modules)
        (get_errors_path modules) (absolute modules) (with_suffix modules)
        (joinpath modules) (parent modules) (str_strip modules)
        (now_stamp modules) (json_dumps modules)
        (get_download_metadata modules) (convert modules)
        (embed_metadata modules) (sponsorblock_run modules)
        (modify_chapters_run modules) (gen_m3u_files modules)
        (archive_save modules).

(** The provider that was made for [name], by the class registered under
    that name. *)
Definition lyrics_made_for (H : Host) (name : string) (p : LyricsProvider)
    : Prop :=
  ∃ c, dict_get name LYRICS_PROVIDERS = Some c
       ∧ new_lyrics_provider H c = Returned p.

Definition audio_made_for (H : Host) (o : Options) (name : string)
    (p : AudioProvider) : Prop :=
  ∃ c, dict_get name AUDIO_PROVIDERS = Some c
       ∧ new_audio_provider H c (format (opt_settings o)) (opt_cookie_file o)
           (opt_search_query o) (opt_filter_results o) = Returned p.

(** The executable that the downloader is to use. *)
Definition resolved_ffmpeg (H : Host) (o : Options) : option string :=
  if String.eqb (opt_ffmpeg o) "ffmpeg"
  then match which_ffmpeg H with
       | Some _ => Some "ffmpeg"
       | None => spotdl_ffmpeg H
       end
  else Some (opt_ffmpeg o).

(** ** [spotdl/search/songObj.py], the other getters *)
Module SongObjGetters.
Import Py SongObj.

(** [type(v).__name__] *)
Definition type_name (v : pyval) : string :=
  match v with
  | PNone => "NoneType" | PBool _ => "bool" | PInt _ => "int"
  | PStr _ => "str" | PList _ => "list" | PDict _ => "dict"
  end.

(** The integer of a number ([bool] is a subclass of [int]). *)
Definition as_int (v : pyval) : option Z :=
  match v with
  | PInt z => Some z
  | PBool b => Some (if b then 1 else 0)%Z
  | _ => None
  end.

(** [a + b] *)
Definition add (a b : pyval) : res pyval :=
  match a, b with
  | PList l, PList l' => Returned (PList (l ++ l'))
  | PList _, _ =>
      Raised (Exn TypeError ("can only concatenate list (not " +:+ dquote
                             +:+ type_name b +:+ dquote +:+ ") to list"))
  | PStr s, PStr s' => Returned (PStr (s +:+ s'))
  | PStr _, _ =>
      Raised (Exn TypeError ("can only concatenate str (not " +:+ dquote
                             +:+ type_name b +:+ dquote +:+ ") to str"))
  | _, _ =>
      match as_int a, as_int b with
      | Some x, Some y => Returned (PInt (x + y))
      | _, _ =>
          Raised (Exn TypeError ("unsupported operand type(s) for +: '"
                                 +:+ type_name a +:+ "' and '"
                                 +:+ type_name b +:+ "'"))
      end
  end.

(** [v[0]] *)
Definition first_item (v : pyval) : res pyval :=
  match v with
  | PList (x :: _) => Returned x
  | PList [] => Raised (Exn (OtherException "IndexError")
                          "list index out of range")
  | PStr (String c _) => Returned (PStr (String c EmptyString))
  | PStr EmptyString => Raised (Exn (OtherException "IndexError")
                                  "string index out of range")
  | PDict _ => Raised (Exn KeyError "0")
  | _ => Raised (Exn TypeError ("'" +:+ type_name v
                                +:+ "' object is not subscriptable"))
  end.

(** [sep.join(items)]: every item has to be a string. *)
Fixpoint join_from (i : nat) (items : list pyval) : res (list string) :=
  match items with
  | [] => Returned []
  | PStr s :: rest =>
      res_bind (join_from (S i) rest) (λ l, Returned (s :: l))
  | v :: _ =>
      Raised (Exn TypeError ("sequence item " +:+ pretty i
                             +:+ ": expected str instance, " +:+ type_name v
                             +:+ " found"))
  end.

Definition str_join (sep : string) (items : list pyval) : res string :=
  res_bind (join_from 0 items) (λ l, Returned (join sep l)).

Definition get_track_number (s : t) : res pyval :=
  getitem (rawTrackMeta s) "track_number".

Definition get_genres (s : t) : res pyval :=
  res_bind (getitem (rawAlbumMeta s) "genres") (λ album_genres,
  res_bind (getitem (rawArtistMeta s) "genres") (λ artist_genres,
  add album_genres artist_genres)).

Definition get_disc_number (s : t) : res pyval :=
  getitem (rawTrackMeta s) "disc_number".

Definition get_display_name (s : t) : res pyval :=
  res_bind (get_contributing_artists s) (λ artists,
  res_bind (str_join ", " artists) (λ joined,
  res_bind (get_song_name s) (λ name,
  add (PStr (joined +:+ " - ")) name))).

Definition get_album_name (s : t) : res pyval :=
  res_bind (getitem (rawTrackMeta s) "album") (λ album,
  getitem album "name").

Definition get_album_artists (s : t) : res (list pyval) :=
  res_bind (getitem (rawTrackMeta s) "album") (λ album,
  res_bind (getitem album "artists") (λ artists,
  res_bind (iterate artists) names_of)).

Definition get_album_release (s : t) : res pyval :=
  res_bind (getitem (rawTrackMeta s) "album") (λ album,
  getitem album "release_date").

Definition get_album_cover_url (s : t) : res pyval :=
  res_bind (getitem (rawTrackMeta s) "album") (λ album,
  res_bind (getitem album "images") (λ images,
  res_bind (first_item images) (λ image,
  getitem image "url"))).

(** The keys that [from_dump] reads. *)
Definition dump_keys : list string :=
  ["rawTrackMeta"; "rawAlbumMeta"; "youtubeLink"; "lyrics"].

(** One cycle of saving and loading. *)
Definition reloaded (s : t) : res t := from_dump (get_data_dump s).

(** An artist object with a name, a list of them. *)
Definition named (name : string) : pyval := PDict [("name", PStr name)].

End SongObjGetters.

(** ** [spotdl/search/songGatherer.py], the gatherers

    The gatherers run over a state [S] of their own: what has been printed
    and whatever the services keep.  A loop [while True] takes a number of
    rounds; [None] is the answer of a loop that has not ended within
    them. *)
Module Gatherer.
Import Py SongObj SongObjGetters.

(** [needle in hay], on strings *)
Fixpoint contains (needle hay : string) : bool :=
  String.prefix needle hay
  || match hay with
     | EmptyString => false
     | String _ rest => contains needle rest
     end.

(** [bool(v)] *)
Definition truthy (v : pyval) : bool :=
  match v with
  | PNone => false
  | PBool b => b
  | PInt z => negb (z =? 0)%Z
  | PStr s => str_truthy s
  | PList l => nonempty l
  | PDict d => nonempty d
  end.

Definition is_none (v : pyval) : bool :=
  match v with PNone => true | _ => false end.

(** [len(v)] *)
Definition len (v : pyval) : res nat :=
  match v with
  | PList l => Returned (length l)
  | PDict d => Returned (length d)
  | PStr s => Returned (String.length s)
  | _ => Raised (Exn TypeError ("object of type '" +:+ type_name v
                                +:+ "' has no len()"))
  end.

(** [prefix + v], with a string literal on the left *)
Definition concat_str (prefix : string) (v : pyval) : res string :=
  match v with
  | PStr s => Returned (prefix +:+ s)
  | _ => Raised (Exn TypeError ("can only concatenate str (not " +:+ dquote
                                +:+ type_name v +:+ dquote +:+ ") to str"))
  end.

(** [a, b, c = v] *)
Definition unpack3 (v : pyval) : res (pyval * pyval * pyval) :=
  match v with
  | PNone | PBool _ | PInt _ =>
      Raised (Exn TypeError ("cannot unpack non-iterable " +:+ type_name v
                             +:+ " object"))
  | _ =>
      res_bind (iterate v) (λ l,
        match l with
        | [a; b; c] => Returned (a, b, c)
        | _ =>
            if (length l <? 3)%nat
            then Raised (Exn ValueError
                           ("not enough values to unpack (expected 3, got "
                            +:+ pretty (length l) +:+ ")"))
            else Raised (Exn ValueError
                           "too many values to unpack (expected 3)")
        end)
  end.

(** [v / 1000]: the quotient is a float, of which nothing is read; what
    is kept is whether the division raises. *)
Definition div_1000 (v : pyval) : res unit :=
  match as_int v with
  | Some _ => Returned ()
  | None =>
      Raised (Exn TypeError ("unsupported operand type(s) for /: '"
                             +:+ type_name v +:+ "' and 'int'"))
  end.

(** The reads of [songobj_from_spotify_url] in the metadata of the track
    (l.62-67): title, name of the album, names of the artists, duration. *)
Definition track_fields (rawTrackMeta : pyval)
    : res (pyval * pyval * list pyval) :=
  res_bind (getitem rawTrackMeta "name") (λ songName,
  res_bind (getitem rawTrackMeta "album") (λ album,
  res_bind (getitem album "name") (λ albumName,
  res_bind (getitem rawTrackMeta "artists") (λ artists,
  res_bind (iterate artists) (λ artists,
  res_bind (names_of artists) (λ contributingArtists,
  res_bind (getitem rawTrackMeta "duration_ms") (λ duration_ms,
  res_bind (div_1000 duration_ms) (λ _,
  Returned (songName, albumName, contributingArtists))))))))).

(** [SongObj.create_file_name]: the class [SongObj] of [songObj.py] has no
    member of that name, nor has [object]; the look-up of the attribute
    raises. *)
Definition no_create_file_name : exn :=
  Exn (OtherException "AttributeError")
      "type object 'SongObj' has no attribute 'create_file_name'".

(** What the gatherers of this file call in modules that are not among
    the sources: [print], which is taken not to fail;
    [metadataProvider.from_url]; the requests to the Spotify client (an
    offset that is not given is [None]).  The two gatherers
    [get_artist_tracks] and [get_saved_tracks] are not embedded. *)
Record Services (S : Type) := mkServices {
  print : string → S → S;
  metadata_from_url : string → ST S pyval;
  spotify_search : string → ST S pyval;
  album_tracks : string → option nat → ST S pyval;
  playlist_tracks : string → option pyval → ST S pyval;
  get_artist_tracks : string → ST S (list (option SongObj.t));
  get_saved_tracks : ST S (list (option SongObj.t));
}.
Arguments print {S}.
Arguments metadata_from_url {S}.
Arguments spotify_search {S}.
Arguments album_tracks {S}.
Arguments playlist_tracks {S}.
Arguments get_artist_tracks {S}.
Arguments get_saved_tracks {S}.

Section Gatherers.
Context {S : Type}.
Variable G : Services S.

Definition say (text : string) : ST S unit :=
  λ s, (Returned (), print G text s).

(** [songobj_from_spotify_url], which every gatherer goes through.  The
    look-up of [SongObj.create_file_name] at l.69 comes before its
    arguments are evaluated, and raises; the lines after it (l.70-104) are
    not reached. *)
Definition songobj_from_spotify_url (spotifyURL : string)
    : ST S (option SongObj.t) :=
  say ("Gathering Spotify Metadata for: " +:+ spotifyURL) ;;
  meta <- metadata_from_url G spotifyURL ;;
  raw <- call (unpack3 meta) ;;
  let '(rawTrackMeta, rawArtistMeta, rawAlbumMeta) := raw in
  fields <- call (track_fields rawTrackMeta) ;;
  raise no_create_file_name.

(** [if song is not None and song.get_youtube_link() is not None:
    tracks.append(song)] *)
Definition keep (song : option SongObj.t) (tracks : list SongObj.t)
    : list SongObj.t :=
  match song with
  | Some s => if is_none (get_youtube_link s) then tracks else tracks ++ [s]
  | None => tracks
  end.

(** A loop [for x in xs] that updates a local variable. *)
Fixpoint fold_st {A B} (body : A → B → ST S B) (xs : list A) (acc : B)
    : ST S B :=
  match xs with
  | [] => ret acc
  | x :: xs' => acc' <- body x acc ;; fold_st body xs' acc'
  end.

(** The body of the loops over track objects. *)
Definition add_track (prefix : string) (track : pyval)
    (tracks : list SongObj.t) : ST S (list SongObj.t) :=
  id <- call (getitem track "id") ;;
  songUrl <- call (concat_str prefix id) ;;
  song <- songobj_from_spotify_url songUrl ;;
  ret (keep song tracks).

Definition from_search_term (query : string) : ST S (list SongObj.t) :=
  result <- spotify_search G query ;;
  tracks <- call (getitem result "tracks") ;;
  items <- call (getitem tracks "items") ;;
  n <- call (len items) ;;
  if (n =? 0)%nat
  then raise (Exn (OtherException "Exception")
                "No song matches found on Spotify")
  else
    songResults <- call (iterate items) ;;
    fold_st (add_track "http://open.spotify.com/track/") songResults [].

Fixpoint album_rounds (rounds : nat) (albumUrl : string)
    (trackResponse : pyval) (albumTracks : list SongObj.t)
    : ST S (option (list SongObj.t)) :=
  match rounds with
  | O => ret None
  | Datatypes.S rounds' =>
      items <- call (getitem trackResponse "items") ;;
      tracks <- call (iterate items) ;;
      albumTracks <- fold_st (add_track "https://open.spotify.com/track/")
                       tracks albumTracks ;;
      next <- call (getitem trackResponse "next") ;;
      if truthy next
      then
        trackResponse <- album_tracks G albumUrl (Some (length albumTracks)) ;;
        album_rounds rounds' albumUrl trackResponse albumTracks
      else ret (Some albumTracks)
  end.

Definition get_album_tracks (rounds : nat) (albumUrl : string)
    : ST S (option (list SongObj.t)) :=
  trackResponse <- album_tracks G albumUrl None ;;
  album_rounds rounds albumUrl trackResponse [].

(** The body of the loop over the entries of a playlist. *)
Definition add_entry (songEntry : pyval) (playlistTracks : list SongObj.t)
    : ST S (list SongObj.t) :=
  track <- call (getitem songEntry "track") ;;
  if is_none track then ret playlistTracks
  else
    id <- call (getitem track "id") ;;
    if is_none id then ret playlistTracks
    else
      songUrl <- call (concat_str "https://open.spotify.com/track/" id) ;;
      song <- songobj_from_spotify_url songUrl ;;
      ret (keep song playlistTracks).

Fixpoint playlist_rounds (rounds : nat) (playlistUrl : string)
    (playlistResponse : pyval) (playlistTracks : list SongObj.t)
    : ST S (option (list SongObj.t)) :=
  match rounds with
  | O => ret None
  | Datatypes.S rounds' =>
      items <- call (getitem playlistResponse "items") ;;
      entries <- call (iterate items) ;;
      playlistTracks <- fold_st add_entry entries playlistTracks ;;
      next <- call (getitem playlistResponse "next") ;;
      if truthy next
      then
        offset <- call (getitem playlistResponse "offset") ;;
        limit <- call (getitem playlistResponse "limit") ;;
        offset <- call (add offset limit) ;;
        playlistResponse <- playlist_tracks G playlistUrl (Some offset) ;;
        playlist_rounds rounds' playlistUrl playlistResponse playlistTracks
      else ret (Some playlistTracks)
  end.

Definition get_playlist_tracks (rounds : nat) (playlistUrl : string)
    : ST S (option (list SongObj.t)) :=
  playlistResponse <- playlist_tracks G playlistUrl None ;;
  playlist_rounds rounds playlistUrl playlistResponse [].

(** [[songObj for songObj in songObjList if songObj]] *)
Definition present (songObjList : list (option SongObj.t))
    : list SongObj.t :=
  omap id songObjList.

Definition from_query (rounds : nat) (request : string)
    : ST S (option (list SongObj.t)) :=
  if contains "open.spotify.com" request && contains "track" request then
    say "Fetching Song..." ;;
    song <- songobj_from_spotify_url request ;;
    ret (Some (present [song]))
  else if contains "open.spotify.com" request && contains "album" request then
    say "Fetching Album..." ;;
    get_album_tracks rounds request
  else if contains "open.spotify.com" request && contains "playlist" request
  then
    say "Fetching Playlist..." ;;
    get_playlist_tracks rounds request
  else if contains "open.spotify.com" request && contains "artist" request then
    say "Fetching artist..." ;;
    songObjList <- get_artist_tracks G request ;;
    ret (Some (present songObjList))
  else if String.eqb request "saved" then
    say "Fetching Saved Songs..." ;;
    songObjList <- get_saved_tracks G ;;
    ret (Some (present songObjList))
  else
    say ("Searching Spotify for song named " +:+ dquote +:+ request
         +:+ dquote +:+ "...") ;;
    songObjList <- try_except (from_search_term request) (λ _, true)
                     (λ e, say (exn_msg e) ;; ret []) ;;
    ret (Some songObjList).

(** [for x in page["items"]] *)
Definition items_of (page : pyval) : res (list pyval) :=
  res_bind (getitem page "items") iterate.

(** The entry of a playlist has a track with an identifier. *)
Definition has_track (songEntry : pyval) : bool :=
  match getitem songEntry "track" with
  | Returned track =>
      negb (is_none track)
      && match getitem track "id" with
         | Returned id => negb (is_none id)
         | Raised _ => true
         end
  | Raised _ => true
  end.

End Gatherers.

End Gatherer.

(** ** More collaborators, for running the model *)
Module MoreExamples.
Import Examples.

(** Audio providers that find nothing: one answers [None], the other the
    empty string. *)
Definition ex_audio_none : AudioProvider :=
  mkAudioProvider "YouTube Music" (λ song, Returned None).

Definition ex_audio_empty : AudioProvider :=
  mkAudioProvider "Piped" (λ song, Returned (Some "")).

(** Lyrics providers: two that find nothing and one that finds a text. *)
Definition ex_lyrics_none : LyricsProvider :=
  mkLyricsProvider "AzLyrics" (λ name artists, Returned None).

Definition ex_lyrics_empty : LyricsProvider :=
  mkLyricsProvider "Synced" (λ name artists, Returned (Some "")).

Definition ex_lyrics_found : LyricsProvider :=
  mkLyricsProvider "MusixMatch" (λ name artists, Returned (Some "la la la")).

(** The environment [E] with other audio providers. *)
Definition with_audio_providers (aps : list AudioProvider) (E : Env) : Env :=
  mkEnv (settings E) (ffmpeg E) (lyrics_providers E) aps (display_name E)
        (song_json E) (reinit_song E) (create_file_name E)
        (restrict_filename E) (get_temp_path E) (get_errors_path E)
        (absolute E) (with_suffix E) (joinpath E) (parent E) (str_strip E)
        (now_stamp E) (json_dumps E) (get_download_metadata E) (convert E)
        (embed_metadata E) (sponsorblock_run E) (modify_chapters_run E)
        (gen_m3u_files E) (archive_save E).

(** The environment [E] with another fetch. *)
Definition with_fetch
    (fetch : string → FS → res (option DownloadInfo) * FS) (E : Env) : Env :=
  mkEnv (settings E) (ffmpeg E) (lyrics_providers E) (audio_providers E)
        (display_name E) (song_json E) (reinit_song E) (create_file_name E)
        (restrict_filename E) (get_temp_path E) (get_errors_path E)
        (absolute E) (with_suffix E) (joinpath E) (parent E) (str_strip E)
        (now_stamp E) (json_dumps E) fetch (convert E)
        (embed_metadata E) (sponsorblock_run E) (modify_chapters_run E)
        (gen_m3u_files E) (archive_save E).

(** The environment [E] with another embedder. *)
Definition with_embedder
    (embed : string → Song → FS → res unit * FS) (E : Env) : Env :=
  mkEnv (settings E) (ffmpeg E) (lyrics_providers E) (audio_providers E)
        (display_name E) (song_json E) (reinit_song E) (create_file_name E)
        (restrict_filename E) (get_temp_path E) (get_errors_path E)
        (absolute E) (with_suffix E) (joinpath E) (parent E) (str_strip E)
        (now_stamp E) (json_dumps E) (get_download_metadata E) (convert E)
        embed (sponsorblock_run E) (modify_chapters_run E)
        (gen_m3u_files E) (archive_save E).


(** Settings of a batch that prints the errors. *)
Definition ex_printing_settings : Settings :=
  mkSettings "/music" "mp3" false "skip" (Some "128k") None false false
             None None None true 2.

(** A world with no file and the error list [l], left by a batch of
    before. *)
Definition ex_world_with_errors (l : list string) : World :=
  mkWorld (ex_fs []) ∅ 0 ∅ l ∅ [].

(** Settings with SponsorBlock. *)
Definition ex_sponsor_settings : Settings :=
  mkSettings "/music" "mp3" false "skip" (Some "128k") None true false
             None None None false 2.



(** A fetch that hands back no information. *)
Definition ex_fetch_nothing (url : string) (fs : FS)
    : res (option DownloadInfo) * FS :=
  (Returned None, fs).

(** An embedder that fails on every file. *)
Definition ex_embed_fails (p : string) (song : Song) (fs : FS)
    : res unit * FS :=
  (Raised (Exn (OtherException "MutagenError") p), fs).

(** A world with the files [l], in which the paths [locked] can be neither
    removed nor written. *)
Definition ex_locked_world (l : list (string * File)) (locked : list string)
    : World :=
  mkWorld (mkFS (list_to_map l) (list_to_set locked) 100) ∅ 0 ∅ [] ∅ [].

(** The plain environment: no lyrics provider, a transcoder that
    succeeds. *)
Definition ex_plain (policy : string) : Env :=
  ex_env (ex_settings policy) [] ex_convert.

(** A host on which [ffmpeg] is not on the path, and spotdl brings its
    own. *)
Definition ex_host : Host :=
  mkHost None (Some "/opt/spotdl/ffmpeg")
    (λ n, Returned ())
    (λ n, res_bind (pool_limit n) (λ _, Returned ()))
    [("DEBUG", 10%Z); ("INFO", 20%Z)]
    (λ level simple_tui, Returned ())
    (λ out fmt fs, Returned [("u1", ["/music/Artist - Title.mp3"])])
    (λ c, Returned (match c with
                    | Genius => ex_lyrics
                    | MusixMatch => ex_lyrics_found
                    | AzLyrics => ex_lyrics_none
                    | Synced => ex_lyrics_empty
                    end))
    (λ c fmt cookie_file search_query filter_results,
       Returned (match c with
                 | YouTube => ex_audio
                 | YouTubeMusic => ex_audio_none
                 end))
    (λ file fs, Returned {[ "u0" ]}).

Definition ex_options : Options :=
  mkOptions (ex_batch_settings (Some "/archive.txt") None)
    ["youtube-music"; "youtube"] ["genius"; "azlyrics"] "ffmpeg" "INFO"
    false true None None true.

(** Raw metadata of a track, and a dump. *)
Definition ex_track (id : string) : Py.pyval :=
  Py.PDict [("id", Py.PStr id); ("name", Py.PStr ("Song " +:+ id));
            ("artists", Py.PList [SongObjGetters.named "First";
                                  SongObjGetters.named "Second"])].

Definition ex_songobj (id : string) (link : Py.pyval) : SongObj.t :=
  SongObj.mk (ex_track id)
    (Py.PDict [("genres", Py.PList [Py.PStr "rock"])])
    (Py.PDict [("genres", Py.PList [Py.PStr "indie"])])
    link (Py.PStr "").

Definition ex_dump : list (string * Py.pyval) :=
  [("youtubeLink", Py.PStr "https://yt/t1");
   ("rawTrackMeta", ex_track "t1");
   ("rawAlbumMeta", Py.PDict [("genres", Py.PList [])]);
   ("lyrics", Py.PNone)].

(** The metadata of a track as the provider gives it: the track with its
    album and its duration, the artist, the album. *)
Definition ex_metadata (url : string) : Py.pyval :=
  Py.PList
    [Py.PDict [("id", Py.PStr url); ("name", Py.PStr ("Song " +:+ url));
               ("album", Py.PDict [("name", Py.PStr "Album")]);
               ("artists", Py.PList [SongObjGetters.named "First";
                                     SongObjGetters.named "Second"]);
               ("duration_ms", Py.PInt 215000)];
     Py.PDict [("genres", Py.PList [Py.PStr "indie"])];
     Py.PDict [("genres", Py.PList [Py.PStr "rock"])]].

Definition ex_page (ids : list string) (next : Py.pyval) : Py.pyval :=
  Py.PDict [("items", Py.PList (map ex_track ids)); ("next", next)].

(** Services of the gatherers, over the list of what has been printed and
    asked. *)
Definition ex_services (search_result : res Py.pyval) (album_page : Py.pyval)
    : Gatherer.Services (list string) :=
  Gatherer.mkServices (list string)
    (λ text s, s ++ [text])
    (λ url s, (Returned (ex_metadata url), s ++ ["metadata " +:+ url]))
    (λ query s, (search_result, s ++ ["search " +:+ query]))
    (λ url offset s, (Returned album_page, s ++ ["album_tracks " +:+ url]))
    (λ url offset s, (Returned (ex_page [] Py.PNone), s))
    (λ url s, (Returned [], s))
    (λ s, (Returned [], s)).

End MoreExamples.
(** * Theorems *)

Section SongObjFacts.
Import Py.

Lemma from_dump_of_dump (s : SongObj.t) :
  SongObj.from_dump (SongObj.get_data_dump s)
  = Returned (SongObj.mk (SongObj.rawTrackMeta s) (SongObj.rawAlbumMeta s)
                (SongObj.rawAlbumMeta s) (SongObj.youtubeLink s)
                (SongObj.lyrics s)).
Proof. reflexivity. Qed.

Lemma gatherer_from_dump_eq (d : pyval) :
  SongGatherer.from_dump d = SongObj.from_dump d.
Proof. reflexivity. Qed.

(** C9.  Rebuilding a song object from its own data dump, with either
    [SongObj.from_dump] or the gatherer's [from_dump], succeeds and gives
    a song object with the same raw track metadata; hence the same
    identifier (track id and matched link), the same song name and the
    same list of contributing artists. *)
Theorem dump_roundtrip_identity (s : SongObj.t) :
  ∃ s', SongObj.from_dump (SongObj.get_data_dump s) = Returned s'
      ∧ SongGatherer.from_dump (SongObj.get_data_dump s) = Returned s'
      ∧ SongObj.track_id s' = SongObj.track_id s
      ∧ SongObj.get_youtube_link s' = SongObj.get_youtube_link s
      ∧ SongObj.get_song_name s' = SongObj.get_song_name s
      ∧ SongObj.get_contributing_artists s'
        = SongObj.get_contributing_artists s.
Proof.
  eexists. split; [apply from_dump_of_dump|].
  split; [rewrite gatherer_from_dump_eq; apply from_dump_of_dump|].
  repeat split.
Qed.

End SongObjFacts.

(** ** The downloader: general facts about computations *)
Section Respects.
Context {S : Type} (R : S → S → Prop) `{!PreOrder R}.
Local Abbreviation respects := (respects R).

Lemma respects_ret {A} (a : A) : respects (ret a).
Proof. intros s r s' [= _ <-]. reflexivity. Qed.

Lemma respects_raise {A} (e : exn) : respects (@raise S A e).
Proof. intros s r s' [= _ <-]. reflexivity. Qed.

Lemma respects_call {A} (x : res A) : respects (call x).
Proof. intros s r s' [= _ <-]. reflexivity. Qed.

Lemma respects_bind {A B} (m : ST S A) (k : A → ST S B) :
  respects m → (∀ a, respects (k a)) → respects (bind m k).
Proof.
  intros Hm Hk s r s'. unfold bind.
  destruct (m s) as [[a|e] s1] eqn:Em; intros H.
  - etransitivity; [exact (Hm _ _ _ Em) | exact (Hk _ _ _ _ H)].
  - injection H as _ <-. exact (Hm _ _ _ Em).
Qed.

Lemma respects_try_except {A} (m : ST S A) catches (h : exn → ST S A) :
  respects m → (∀ e, respects (h e)) → respects (try_except m catches h).
Proof.
  intros Hm Hh s r s'. unfold try_except.
  destruct (m s) as [[a|e] s1] eqn:Em.
  - intros [= _ <-]. exact (Hm _ _ _ Em).
  - destruct (catches (exn_cls e)); intros H.
    + etransitivity; [exact (Hm _ _ _ Em) | exact (Hh _ _ _ _ H)].
    + injection H as _ <-. exact (Hm _ _ _ Em).
Qed.

Lemma respects_when (b : bool) (m : ST S unit) :
  respects m → respects (when b m).
Proof. destruct b; simpl; [done | intros _; apply respects_ret]. Qed.

Lemma respects_for_each {A} (xs : list A) (body : A → ST S unit) :
  (∀ x, respects (body x)) → respects (for_each xs body).
Proof.
  intros Hb. induction xs as [|x xs IH]; simpl.
  - apply respects_ret.
  - apply respects_bind; [apply Hb | intros _; exact IH].
Qed.

Lemma respects_map_st {A B} (f : A → ST S B) (xs : list A) :
  (∀ x, respects (f x)) → respects (map_st f xs).
Proof.
  intros Hf. induction xs as [|x xs IH]; simpl.
  - apply respects_ret.
  - apply respects_bind; [apply Hf | intros y].
    apply respects_bind; [exact IH | intros ys; apply respects_ret].
Qed.

Lemma respects_filter_st {A} (p : A → ST S bool) (xs : list A) :
  (∀ x, respects (p x)) → respects (filter_st p xs).
Proof.
  intros Hp. induction xs as [|x xs IH]; simpl.
  - apply respects_ret.
  - apply respects_bind; [apply Hp | intros b].
    apply respects_bind; [exact IH | intros ys; apply respects_ret].
Qed.

End Respects.

#[local] Instance on_world_preorder R `{!PreOrder R} : PreOrder (on_world R).
Proof.
  split.
  - intros sw. unfold on_world. reflexivity.
  - intros a b c Hab Hbc. unfold on_world in *. etransitivity; eassumption.
Qed.

Lemma respects_up R {A} (m : M A) :
  respects R m → respects (on_world R) (up m).
Proof.
  intros Hm [s w] r [s' w']. unfold up. simpl.
  destruct (m w) as [r1 w1] eqn:Em. intros [= _ _ <-].
  exact (Hm _ _ _ Em).
Qed.

Lemma respects_get_song R `{!PreOrder R} : respects (on_world R) get_song.
Proof. intros sw r sw' [= _ <-]. unfold on_world. reflexivity. Qed.

Lemma respects_assign_song R `{!PreOrder R} f :
  respects (on_world R) (assign_song f).
Proof. intros sw r sw' [= _ <-]. unfold on_world. simpl. reflexivity. Qed.

Lemma respects_rebind_song R `{!PreOrder R} f :
  respects (on_world R) (rebind_song f).
Proof.
  intros sw r sw'. unfold rebind_song, on_world.
  destruct (f sw.1); intros [= _ <-]; simpl; reflexivity.
Qed.

#[local] Instance same_errors_preorder : PreOrder same_errors.
Proof. split; unfold same_errors; [done | intros a b c; congruence]. Qed.
#[local] Instance same_known_preorder : PreOrder same_known.
Proof. split; unfold same_known; [done | intros a b c; congruence]. Qed.
#[local] Instance same_files_preorder : PreOrder same_files.
Proof. split; unfold same_files; [done | intros a b c; congruence]. Qed.
#[local] Instance same_archive_preorder : PreOrder same_archive.
Proof. split; unfold same_archive; [done | intros a b c; congruence]. Qed.
#[local] Instance same_heap_preorder : PreOrder same_heap.
Proof. split; unfold same_heap; [done | intros a b c; congruence]. Qed.

#[local] Instance trace_grows_preorder Q : PreOrder (trace_grows Q).
Proof.
  split.
  - intros w. exists []. by rewrite app_nil_r.
  - intros a b c [e1 [H1 Q1]] [e2 [H2 Q2]]. exists (e1 ++ e2).
    rewrite H2, H1, <- app_assoc. split; [done|].
    rewrite forallb_app, Q1, Q2. done.
Qed.

Lemma emit_grows Q ev : Q ev = true → respects (trace_grows Q) (emit ev).
Proof.
  intros HQ w r w' [= _ <-]. exists [ev]. simpl. by rewrite HQ.
Qed.

Lemma silent_grows Q {A} (m : M A) :
  (∀ w, trace (m w).2 = trace w) → respects (trace_grows Q) m.
Proof.
  intros Hm w r w' H. exists []. rewrite app_nil_r.
  specialize (Hm w). rewrite H in Hm. done.
Qed.

(** The primitives of the world, opened. *)
Ltac open_prims :=
  unfold unlink, replace_file, write_text, mkdir, log, debug, path_exists,
    register_known in *.

Ltac base_case :=
  let w := fresh "w" in let r := fresh "r" in let w' := fresh "w'" in
  let H := fresh "H" in
  intros w r w' H;
  unfold emit, with_fs, read_fs, errors_append, archive_add,
    known_get_default, list_read, list_append, stat_mtime in H;
  repeat case_match; simplify_eq;
  unfold same_errors, same_known, same_files, same_archive, same_heap;
  simpl;
  reflexivity.

Ltac silent_case :=
  apply silent_grows; let w := fresh "w" in intros w;
  unfold with_fs, read_fs, errors_append, archive_add,
    known_get_default, list_read, list_append, stat_mtime;
  repeat case_match; reflexivity.

Ltac respects_step base :=
  lazymatch goal with
  | |- respects _ (bind _ _) => apply respects_bind; [apply _ | | intros ?]
  | |- respects _ (ret _) => apply respects_ret; apply _
  | |- respects _ (raise _) => apply respects_raise; apply _
  | |- respects _ (call _) => apply respects_call; apply _
  | |- respects _ (try_except _ _ _) =>
      apply respects_try_except; [apply _ | | intros ?]
  | |- respects _ (when _ _) => apply respects_when; [apply _ |]
  | |- respects _ (for_each _ _) =>
      apply respects_for_each; [apply _ | intros ?]
  | |- respects _ (map_st _ _) => apply respects_map_st; [apply _ | intros ?]
  | |- respects _ (filter_st _ _) =>
      apply respects_filter_st; [apply _ | intros ?]
  | |- respects _ (up _) => first [apply respects_up | base]
  | |- respects _ get_song => first [apply respects_get_song; apply _ | base]
  | |- respects _ (assign_song _) =>
      first [apply respects_assign_song; apply _ | base]
  | |- respects _ (rebind_song _) =>
      first [apply respects_rebind_song; apply _ | base]
  | |- respects _ (match ?x with _ => _ end) => destruct x
  | |- respects _ _ => base
  end.

Ltac respects_with base := open_prims; cbv zeta; repeat (respects_step base).

Lemma quiet_no_download ev : quiet ev = true → no_download ev = true.
Proof. by destruct ev. Qed.

#[local] Instance same_url_preorder : PreOrder same_url.
Proof. split; unfold same_url; [done | intros a b c; congruence]. Qed.

Lemma up_same_url {A} (m : M A) : respects same_url (up m).
Proof.
  intros [s w] r [s' w']. unfold up. simpl.
  destruct (m w); intros [= _ <- _]. done.
Qed.

Section SearchFacts.
Variable E : Env.

Lemma search_from_respects R `{!PreOrder R} ps song :
  (∀ ev, no_download ev = false ∨ quiet ev = true → respects R (emit ev)) →
  respects R (search_from E ps song).
Proof.
  intros Hemit. induction ps as [|ap ps IH]; simpl.
  - apply respects_raise; apply _.
  - respects_with ltac:(first [apply Hemit; auto | exact IH]).
Qed.

Lemma search_lyrics_from_respects R `{!PreOrder R} ps song :
  (∀ ev, quiet ev = true → respects R (emit ev)) →
  respects R (search_lyrics_from E ps song).
Proof.
  intros Hemit. induction ps as [|lp ps IH]; simpl.
  - apply respects_ret; apply _.
  - respects_with ltac:(first [apply Hemit; reflexivity | exact IH]).
Qed.

End SearchFacts.

Ltac open_pipeline :=
  unfold search_and_download_frame, preamble, prologue, resolve_song,
    output_paths, duplicate_candidates, is_duplicate, exists_or_dups,
    force_overwrite, update_metadata, remove_unless_most_recent,
    remove_duplicate, guarded,
    download_and_convert, choose_bitrate, post_convert, remove_temp,
    report_failure, remove_sponsor_segments, on_error, search, search_lyrics.

Ltac fixpoints base :=
  first [ apply search_from_respects; [apply _ | intros ? ?; base]
        | apply search_lyrics_from_respects; [apply _ | intros ? ?; base] ].

Ltac same_tac :=
  first [ base_case | fixpoints ltac:(clear; base_case) ].

Ltac grows_tac :=
  first [ apply emit_grows; reflexivity
        | silent_case
        | fixpoints ltac:(apply emit_grows;
                          first [assumption | by apply quiet_no_download]) ].

Ltac url_tac :=
  first [ apply up_same_url
        | let sw := fresh in let r := fresh in let sw' := fresh in
          intros sw r sw'; unfold get_song, assign_song, same_url;
          intros [= _ <-]; reflexivity ].

Section PipelineFacts.
Variable E : Env.

Lemma preamble_same_errors song0 :
  respects (on_world same_errors) (preamble E song0).
Proof. open_pipeline. respects_with same_tac. Qed.

Lemma guarded_same_errors c :
  respects (on_world same_errors) (guarded E c).
Proof. open_pipeline. respects_with same_tac. Qed.

Lemma frame_same_known song0 :
  respects (on_world same_known) (search_and_download_frame E song0).
Proof. open_pipeline. respects_with same_tac. Qed.

Lemma frame_same_archive song0 :
  respects (on_world same_archive) (search_and_download_frame E song0).
Proof. open_pipeline. respects_with same_tac. Qed.

Lemma prologue_same_files song0 :
  respects (on_world same_files) (prologue E song0).
Proof. open_pipeline. respects_with same_tac. Qed.

Lemma prologue_quiet song0 :
  respects (on_world (trace_grows quiet)) (prologue E song0).
Proof. open_pipeline. respects_with grows_tac. Qed.

Lemma preamble_no_download song0 :
  respects (on_world (trace_grows no_download)) (preamble E song0).
Proof. open_pipeline. respects_with grows_tac. Qed.

Lemma rebind_same_url f :
  (∀ s s', f s = Returned s' → song_url s' = song_url s) →
  respects same_url (rebind_song f).
Proof.
  intros Hf sw r sw'. unfold rebind_song, same_url.
  destruct (f sw.1) eqn:Ef; intros [= _ <-]; simpl; eauto.
Qed.

Lemma frame_same_url song0 :
  reinit_keeps_url E →
  respects same_url (search_and_download_frame E song0).
Proof.
  intros Hre. open_pipeline.
  respects_with ltac:(first [ url_tac
                            | apply rebind_same_url; intros ? ?; apply Hre ]).
Qed.

End PipelineFacts.
(** ** Inversion of runs *)

Lemma bind_returned {S A B} (m : ST S A) (k : A → ST S B) s b s' :
  bind m k s = (Returned b, s') →
  ∃ a s1, m s = (Returned a, s1) ∧ k a s1 = (Returned b, s').
Proof.
  unfold bind. destruct (m s) as [[a|e] s1]; [eauto | discriminate].
Qed.

Lemma bind_run {S A B} (m : ST S A) (k : A → ST S B) s a s1 :
  m s = (Returned a, s1) → bind m k s = k a s1.
Proof. intros H. unfold bind. by rewrite H. Qed.

Lemma bind_raised {S A B} (m : ST S A) (k : A → ST S B) s e s1 :
  m s = (Raised e, s1) → bind m k s = (Raised e, s1).
Proof. intros H. unfold bind. by rewrite H. Qed.

Lemma exists_or_dups_run c s w :
  exists_or_dups c (s, w)
  = (Returned (fs_exists (output_file c) (w_fs w)
               || nonempty (dup_song_paths c)), (s, w)).
Proof. reflexivity. Qed.

Lemma up_run {A} (m : M A) song w r sw' :
  up m (song, w) = (r, sw') → ∃ w', m w = (r, w') ∧ sw' = (song, w').
Proof.
  unfold up. simpl. destruct (m w) as [r1 w1]. intros [= <- <-]. eauto.
Qed.

(** ** The unit-of-work boundary (C1) *)
Section Boundary.
Variable E : Env.

(** What the handler does to a frame. *)
Lemma on_error_run e s w :
  on_error e (s, w)
  = (Returned None,
     (s, mkWorld (w_fs w) (w_heap w) (w_next w) (known_songs w)
           (errors w ++ [error_entry s (reported e)]) (url_archive w)
           (trace w ++ [EvNotifyError (song_url s) (reported e)]))).
Proof. reflexivity. Qed.

(** A raise in the [try] block ends in the handler. *)
Lemma boundary_run song0 w c s1 w1 e s2 w2 :
  preamble E song0 (song0, w) = (Returned (Proceed c), (s1, w1)) →
  guarded E c (s1, w1) = (Raised e, (s2, w2)) →
  search_and_download E song0 w
  = (Returned (s2, None),
     mkWorld (w_fs w2) (w_heap w2) (w_next w2) (known_songs w2)
       (errors w ++ [error_entry s2 (reported e)]) (url_archive w2)
       (trace w2 ++ [EvNotifyError (song_url s2) (reported e)])).
Proof.
  intros Hpre Hg.
  pose proof (preamble_same_errors E song0 _ _ _ Hpre) as H1.
  pose proof (guarded_same_errors E c _ _ _ Hg) as H2.
  unfold on_world, same_errors in H1, H2. simpl in H1, H2.
  unfold search_and_download, search_and_download_frame, bind.
  rewrite Hpre. unfold try_except. rewrite Hg. cbv beta iota.
  rewrite on_error_run. cbn [fst snd]. by rewrite H2, H1.
Qed.

(** C1, as the code has it.  When the pipeline of a song has reached the
    [try] block and the block raises, at whatever stage (search for an
    audio source, fetch, transcoding, cleanup, post processing, embedding),
    [search_and_download] does not raise: it returns the song with no
    path, the error list has grown by exactly one entry, made of the URL,
    the class and the text of the exception, and the error is notified to
    the tracker.  In the pool, the task ends as done and no other task is
    touched. *)
Theorem guarded_error_is_recorded song0 w c s1 w1 e s2 w2 :
  preamble E song0 (song0, w) = (Returned (Proceed c), (s1, w1)) →
  guarded E c (s1, w1) = (Raised e, (s2, w2)) →
  ∃ w3,
    search_and_download E song0 w = (Returned (s2, None), w3)
    ∧ errors w3 = errors w ++ [error_entry s2 (reported e)]
    ∧ trace w3 = trace w2 ++ [EvNotifyError (song_url s2) (reported e)]
    ∧ w_fs w3 = w_fs w2
    ∧ ∀ p i, failed p = None → pool_world p = w →
        tasks p !! i = Some (song0, Running) →
        ∃ p', pool_step E (Complete i) p = Some p'
              ∧ failed p' = None
              ∧ tasks p' = <[i := (song0, Done (s2, None))]> (tasks p).
Proof.
  intros Hpre Hg.
  pose proof (boundary_run _ _ _ _ _ _ _ _ Hpre Hg) as Hrun.
  eexists. split; [exact Hrun|]. simpl.
  split; [done|]. split; [done|]. split; [done|].
  intros p i Hf Hw Hi. unfold pool_step. rewrite Hf, Hi, Hw, Hrun.
  eexists. split; [reflexivity|]. simpl. done.
Qed.

End Boundary.

(** ** The prologue: what the duplicate candidates are *)
Section Prologue.
Variable E : Env.

Local Abbreviation candidate := (candidate E).

Lemma filter_st_is_duplicate out l w :
  filter_st (is_duplicate E out) l w
  = (Returned (List.filter (candidate (w_fs w) out) l), w).
Proof.
  induction l as [|p l IH]; [done|].
  simpl. unfold bind at 1. unfold is_duplicate at 1, candidate at 1.
  destruct (bool_decide (absolute E p ≠ absolute E out)); simpl.
  - unfold path_exists, read_fs. unfold bind. rewrite IH.
    destruct (fs_exists p (w_fs w)); reflexivity.
  - unfold ret at 1. unfold bind. rewrite IH. reflexivity.
Qed.

Lemma duplicate_candidates_run out s w :
  ∃ w', duplicate_candidates E out (s, w)
        = (Returned (List.filter (candidate (w_fs w) out)
                       (known_paths w (song_url s))), (s, w'))
        ∧ w_fs w' = w_fs w.
Proof.
  unfold duplicate_candidates, known_paths.
  unfold bind at 1. unfold get_song at 1. cbn [fst snd].
  unfold bind at 1. unfold up at 1, known_get_default. cbn [fst snd].
  destruct (known_songs w !! song_url s) as [l|] eqn:Hk.
  - unfold bind at 1. unfold up at 1, list_read. cbn [fst snd].
    unfold bind at 1. unfold up at 1. cbn [fst snd].
    rewrite filter_st_is_duplicate.
    destruct (List.filter _ _) as [|d ds]; simpl;
      eexists; split; reflexivity.
  - unfold bind at 1. unfold up at 1, list_read. cbn [fst snd w_heap].
    rewrite lookup_insert_eq. cbn [default].
    unfold bind at 1. unfold up at 1. cbn [fst snd].
    rewrite filter_st_is_duplicate. simpl.
    eexists; split; reflexivity.
Qed.

Lemma resolve_song_same_heap song0 :
  respects (on_world same_heap) (resolve_song E song0).
Proof. open_pipeline. respects_with same_tac. Qed.

Lemma resolve_song_same_known song0 :
  respects (on_world same_known) (resolve_song E song0).
Proof. open_pipeline. respects_with same_tac. Qed.

Lemma resolve_song_same_files song0 :
  respects (on_world same_files) (resolve_song E song0).
Proof. open_pipeline. respects_with same_tac. Qed.

Lemma output_paths_run s w r sw' :
  output_paths E (s, w) = (r, sw') → sw' = (s, w).
Proof.
  unfold output_paths, bind, get_song, call, ret. cbn [fst snd].
  repeat case_match; intros; simplify_eq; reflexivity.
Qed.

(** The duplicate candidates of the context are the known paths of the
    song that exist at the start and differ from the output file; the
    prologue leaves the files as they are. *)
Lemma prologue_ctx song0 w c s1 w1 :
  prologue E song0 (song0, w) = (Returned c, (s1, w1)) →
  dup_song_paths c
  = List.filter (candidate (w_fs w) (output_file c))
      (known_paths w (song_url s1))
  ∧ w_fs w1 = w_fs w.
Proof.
  unfold prologue. intros H.
  apply bind_returned in H as ([] & [sa wa] & Hres & H).
  apply bind_returned in H as ([out temp] & sb & Hout & H).
  apply output_paths_run in Hout as ->.
  apply bind_returned in H as (dups & sc & Hdup & H).
  unfold ret in H.
  destruct (duplicate_candidates_run out sa wa) as (w' & Hrun & Hfs).
  rewrite Hrun in Hdup. simplify_eq. cbn [dup_song_paths output_file].
  pose proof (resolve_song_same_heap _ _ _ _ Hres) as Hh.
  pose proof (resolve_song_same_known _ _ _ _ Hres) as Hk.
  pose proof (resolve_song_same_files _ _ _ _ Hres) as Hf.
  unfold on_world, same_heap, same_known, same_files in *. simpl in *.
  split; [|congruence].
  unfold known_paths. rewrite Hh, Hk, Hf. reflexivity.
Qed.

End Prologue.

(** ** The overwrite policy [skip] (C2) *)
Section SkipPolicy.
Variable E : Env.

Lemma prologue_same_errors song0 :
  respects (on_world same_errors) (prologue E song0).
Proof. open_pipeline. respects_with same_tac. Qed.

Lemma candidate_nonempty fs out l p :
  p ∈ l → fs_exists p fs = true → absolute E p ≠ absolute E out →
  nonempty (List.filter (candidate E fs out) l) = true.
Proof.
  intros Hin Hex Hne.
  assert (Hp : In p (List.filter (candidate E fs out) l)).
  { apply filter_In. split; [by apply list_elem_of_In|].
    unfold candidate. rewrite Hex, bool_decide_eq_true_2; done. }
  destruct (List.filter _ _); [destruct Hp | done].
Qed.

(** C2.  With the policy [skip], when the output file exists, or a known
    path of the song exists and is not the output file, the song is
    reported as skipped and returned with no path.  Up to there nothing is
    asked of an audio provider, nothing is fetched or transcoded, and no
    file is created, removed or renamed: the events are quiet ones and the
    file system is the one of the start. *)
Theorem skip_policy song0 w c s1 w1 :
  overwrite (settings E) = "skip" →
  prologue E song0 (song0, w) = (Returned c, (s1, w1)) →
  (fs_exists (output_file c) (w_fs w) = true
   ∨ ∃ p, p ∈ known_paths w (song_url s1)
          ∧ fs_exists p (w_fs w) = true
          ∧ absolute E p ≠ absolute E (output_file c)) →
  ∃ w2 evs,
    search_and_download E song0 w = (Returned (s1, None), w2)
    ∧ trace w2 = trace w ++ evs ++ [EvNotifySkip (song_url s1)]
    ∧ forallb quiet evs = true
    ∧ w_fs w2 = w_fs w
    ∧ errors w2 = errors w.
Proof.
  intros Hpol Hpro Hpresent.
  destruct (prologue_ctx E _ _ _ _ _ Hpro) as [Hdups Hfs].
  destruct (prologue_quiet E _ _ _ _ Hpro) as (evs & Htr & Hq).
  pose proof (prologue_same_errors _ _ _ _ Hpro) as Herr.
  unfold on_world, same_errors in Herr. simpl in Htr, Herr.
  assert (Hcond : fs_exists (output_file c) (w_fs w1)
                  || nonempty (dup_song_paths c) = true).
  { rewrite Hfs. destruct Hpresent as [-> | (p & Hin & Hex & Hne)]; [done|].
    rewrite Hdups, (candidate_nonempty _ _ _ p); auto using orb_true_r. }
  eexists _, (evs ++ [EvLog _]).
  split.
  - unfold search_and_download, search_and_download_frame, preamble.
    unfold bind at 1. unfold bind at 1. rewrite Hpro.
    unfold bind at 1. unfold get_song at 1. cbn [fst snd].
    unfold bind at 1. unfold exists_or_dups.
    unfold bind at 1. unfold up at 1, path_exists, read_fs. cbn [fst snd].
    unfold ret at 1. rewrite Hcond, Hpol. cbn [andb String.eqb].
    reflexivity.
  - cbn. rewrite Htr, <- !app_assoc. repeat split; try done.
    rewrite forallb_app, Hq. reflexivity.
Qed.

End SkipPolicy.

(** ** The overwrite policy [metadata] (C3) *)
Section MetadataPolicy.
Variable E : Env.

Lemma map_st_stat l w :
  Forall (λ p, fs_exists p (w_fs w) = true) l →
  map_st stat_mtime l w = (Returned (map (mtime_at (w_fs w)) l), w).
Proof.
  induction 1 as [|p l Hp _ IH]; [done|].
  simpl. unfold bind at 1. unfold stat_mtime at 1, fs_stat_mtime.
  unfold fs_exists in Hp. unfold mtime_at at 1.
  destruct (files (w_fs w) !! p); [|done].
  unfold bind. rewrite IH. reflexivity.
Qed.

Lemma zip_with_keys (key : string → Z) l :
  zip l (map key l) = map (λ p, (p, key p)) l.
Proof. induction l as [|p l IH]; simpl; [done | by rewrite IH]. Qed.

Lemma max_by_key_spec (key : string → Z) rest best :
  let chosen := max_by_key best (key best) (map (λ p, (p, key p)) rest) in
  chosen ∈ best :: rest ∧ ∀ p, p ∈ best :: rest → (key p ≤ key chosen)%Z.
Proof.
  revert best. induction rest as [|q rest IH]; intros best; simpl.
  - split; [by left|]. intros p Hp. apply list_elem_of_singleton in Hp as ->. lia.
  - destruct (key best <? key q)%Z eqn:Hlt.
    + destruct (IH q) as [Hin Hmax]. split.
      * by right.
      * intros p Hp. apply elem_of_cons in Hp as [->|Hp].
        -- apply Z.ltb_lt in Hlt. specialize (Hmax q (list_elem_of_here _ _)). lia.
        -- by apply Hmax.
    + destruct (IH best) as [Hin Hmax]. split.
      * apply elem_of_cons in Hin as [->|Hin]; [by left | by do 2 right].
      * intros p Hp. apply elem_of_cons in Hp as [->|Hp].
        -- apply Hmax. by left.
        -- apply elem_of_cons in Hp as [->|Hp].
           ++ apply Z.ltb_ge in Hlt. specialize (Hmax best (list_elem_of_here _ _)). lia.
           ++ apply Hmax. by right.
Qed.

(** A duplicate that the system lets go is gone after [remove_duplicate],
    also when it was gone before. *)
Lemma remove_duplicate_run p s w :
  p ∉ denied (w_fs w) →
  ∃ w', remove_duplicate p (s, w) = (Returned (), (s, w'))
        ∧ files (w_fs w') = delete p (files (w_fs w))
        ∧ denied (w_fs w') = denied (w_fs w).
Proof.
  intros Hd. unfold remove_duplicate, try_except, bind, up, log, unlink,
    bind, emit, with_fs, fs_unlink, debug, emit. cbn [fst snd w_fs].
  destruct (files (w_fs w) !! p) eqn:Hp.
  - rewrite decide_False by done. eexists. split; [reflexivity|]. done.
  - cbn. eexists. split; [reflexivity|]. cbn. by rewrite delete_id.
Qed.

Lemma remove_others_run chosen l s w :
  Forall (λ p, p ∉ denied (w_fs w)) l →
  ∃ w', for_each l (remove_unless_most_recent (Some chosen)) (s, w) = (Returned (), (s, w'))
        ∧ denied (w_fs w') = denied (w_fs w)
        ∧ ∀ q, files (w_fs w') !! q
               = if bool_decide (q ∈ l ∧ q ≠ chosen) then None
                 else files (w_fs w) !! q.
Proof.
  revert w. induction l as [|p l IH]; intros w Hl.
  - eexists. split; [reflexivity|]. split; [done|]. intros q.
    rewrite bool_decide_eq_false_2; [done|]. intros [Hq _]. inversion Hq.
  - apply Forall_cons in Hl as [Hp Hl]. simpl. unfold bind at 1.
    unfold remove_unless_most_recent at 1.
    destruct (bool_decide (Some chosen = Some p)) eqn:Hc.
    + apply bool_decide_eq_true in Hc. injection Hc as <-.
      unfold ret at 1. destruct (IH w Hl) as (w' & Hrun & Hden & Hfiles).
      exists w'. split; [exact Hrun|]. split; [done|]. intros q.
      rewrite Hfiles.
      rewrite (bool_decide_ext (q ∈ l ∧ q ≠ chosen)
                 (q ∈ chosen :: l ∧ q ≠ chosen)); [done|].
      split; intros [Hq Hne]; split; auto.
      * by right.
      * apply elem_of_cons in Hq as [->|Hq]; done.
    + apply bool_decide_eq_false in Hc.
      destruct (remove_duplicate_run p s w Hp) as (w1 & Hrun1 & Hf1 & Hd1).
      rewrite Hrun1.
      assert (Hl1 : Forall (λ p, p ∉ denied (w_fs w1)) l) by by rewrite Hd1.
      destruct (IH w1 Hl1) as (w' & Hrun & Hden & Hfiles).
      exists w'. split; [exact Hrun|]. split; [congruence|]. intros q.
      rewrite Hfiles, Hf1.
      destruct (decide (q = p)) as [->|Hqp].
      * rewrite lookup_delete_eq.
        rewrite (bool_decide_eq_true_2 (p ∈ p :: l ∧ p ≠ chosen));
          [by destruct (bool_decide _) |].
        split; [by left | congruence].
      * rewrite lookup_delete_ne by done.
        rewrite (bool_decide_ext (q ∈ l ∧ q ≠ chosen)
                   (q ∈ p :: l ∧ q ≠ chosen)); [done|].
        split; intros [Hq Hne]; split; auto.
        -- by right.
        -- apply elem_of_cons in Hq as [->|Hq]; done.
Qed.

Lemma replace_file_run src dst f w :
  files (w_fs w) !! src = Some f →
  src ∉ denied (w_fs w) → dst ∉ denied (w_fs w) →
  ∃ w', replace_file src dst w = (Returned (), w')
        ∧ w_fs w' = mkFS (<[dst := f]> (delete src (files (w_fs w))))
                         (denied (w_fs w)) (clock (w_fs w)).
Proof.
  intros Hf Hs Hd. unfold replace_file, bind, emit, with_fs, fs_replace.
  cbn. rewrite Hf. rewrite decide_False by (intros [?|?]; done).
  eexists. split; reflexivity.
Qed.

Lemma update_metadata_run c s w :
  fs_exists (output_file c) (w_fs w) = true ∨ dup_song_paths c ≠ [] →
  Forall (λ p, candidate E (w_fs w) (output_file c) p = true)
         (dup_song_paths c) →
  with_suffix E (output_file c) ("." +:+ format (settings E)) = output_file c →
  (∀ p, p ∈ output_file c :: dup_song_paths c → p ∉ denied (w_fs w)) →
  (∀ fs, fs_exists (output_file c) fs = true →
         ∃ fs', embed_metadata E (output_file c) s fs = (Returned (), fs')) →
  ∃ w2 fs_mid,
    update_metadata E c (s, w) = (Returned (Some (output_file c)), (s, w2))
    ∧ embed_metadata E (output_file c) s fs_mid = (Returned (), w_fs w2)
    ∧ reconciled (w_fs w) c fs_mid
    ∧ last (trace w2) = Some (EvNotifyComplete (song_url s)).
Proof.
  intros Hpresent Hcand Hsuf Hden Hembed.
  unfold update_metadata, reconciled.
  destruct (dup_song_paths c) as [|d ds] eqn:Hd.
  - destruct Hpresent as [Hex|]; [|done].
    destruct (Hembed _ Hex) as [fs' He].
    unfold bind, up, get_song, emit, with_fs, log, ret. cbn.
    rewrite He. cbn. eexists _, _. split; [reflexivity|].
    split; [exact He|]. split; [done|]. cbn. by rewrite last_snoc.
  - assert (Hex : Forall (λ p, fs_exists p (w_fs w) = true) (d :: ds)).
    { eapply Forall_impl; [exact Hcand|]. intros p Hp.
      unfold candidate in Hp. by apply andb_true_iff in Hp as [_ ?]. }
    cbn [nonempty].
    set (key := mtime_at (w_fs w)).
    assert (Hstat : up (map_st stat_mtime (d :: ds)) (s, w)
                    = (Returned (map key (d :: ds)), (s, w))).
    { unfold up. cbn [fst snd]. by rewrite map_st_stat. }
    do 2 (unfold bind at 1). rewrite Hstat.
    rewrite zip_with_keys.
    assert (Hmp : max_path (map (λ p, (p, key p)) (d :: ds))
                  = Some (max_by_key d (key d) (map (λ p, (p, key p)) ds)))
      by reflexivity.
    rewrite Hmp. clear Hmp.
    destruct (max_by_key_spec key ds d) as [Hin Hmax]. cbv zeta in Hin, Hmax.
    set (chosen := max_by_key d (key d) (map (λ p, (p, key p)) ds)) in *.
    assert (Hdups_den : Forall (λ p, p ∉ denied (w_fs w)) (d :: ds)).
    { apply Forall_forall. intros p Hp. apply Hden. by right. }
    destruct (remove_others_run chosen (d :: ds) s w Hdups_den)
      as (wa & Hloop & Hdena & Hfiles).
    unfold bind at 1. rewrite Hloop.
    assert (Hchosen_ex : ∃ f, files (w_fs w) !! chosen = Some f).
    { rewrite Forall_forall in Hex. specialize (Hex _ Hin).
      unfold fs_exists in Hex. destruct (files (w_fs w) !! chosen); eauto.
      done. }
    destruct Hchosen_ex as [f Hf].
    assert (Hfa : files (w_fs wa) !! chosen = Some f).
    { rewrite Hfiles, bool_decide_eq_false_2; [done | by intros [_ ?]]. }
    destruct (replace_file_run chosen (output_file c) f wa Hfa)
      as (wb & Hmove & Hfsb).
    { rewrite Hdena. apply Hden. by right. }
    { rewrite Hdena. apply Hden. by left. }
    unfold bind at 1. rewrite Hsuf. unfold up at 1. cbn [fst snd].
    rewrite Hmove. unfold ret at 1.
    destruct (Hembed (w_fs wb)) as [fs' He].
    { rewrite Hfsb. unfold fs_exists. cbn. by rewrite lookup_insert_eq. }
    unfold bind, up, get_song, emit, with_fs, log, ret. cbn.
    rewrite He. cbn. eexists _, _. split; [reflexivity|].
    split; [exact He|]. split; [|cbn; by rewrite last_snoc].
    assert (Hne_out : ∀ p, p ∈ d :: ds → p ≠ output_file c).
    { intros p Hp ->. rewrite Forall_forall in Hcand.
      specialize (Hcand _ Hp). unfold candidate in Hcand.
      apply andb_true_iff in Hcand as [Hc _].
      by apply bool_decide_eq_true in Hc. }
    exists chosen, f. rewrite Hfsb. cbn [files].
    split; [done|]. split; [done|]. split.
    { intros p Hp. specialize (Hmax p Hp). unfold key, mtime_at in Hmax |- *.
      rewrite Hf in Hmax. exact Hmax. }
    split; [by rewrite lookup_insert_eq|]. split.
    + intros p Hp.
      rewrite lookup_insert_ne by (intros Heq; by apply (Hne_out p Hp)).
      destruct (decide (p = chosen)) as [->|Hpc].
      * by rewrite lookup_delete_eq.
      * rewrite lookup_delete_ne by done.
        rewrite Hfiles, bool_decide_eq_true_2; done.
    + intros q Hq Hqo. rewrite lookup_insert_ne by done.
      rewrite lookup_delete_ne by (intros Heq; apply Hq; by rewrite <- Heq).
      rewrite Hfiles, bool_decide_eq_false_2; [done | by intros [? _]].
Qed.

Lemma preamble_metadata song0 w c s1 w1 :
  overwrite (settings E) = "metadata" →
  prologue E song0 (song0, w) = (Returned c, (s1, w1)) →
  fs_exists (output_file c) (w_fs w1) || nonempty (dup_song_paths c) = true →
  preamble E song0 (song0, w)
  = bind (update_metadata E c) (λ r, ret (Finished r)) (s1, w1).
Proof.
  intros Hpol Hpro Hcond. unfold preamble.
  erewrite bind_run by exact Hpro. cbv beta.
  erewrite bind_run by reflexivity. cbv beta.
  erewrite bind_run by apply exists_or_dups_run. cbv beta.
  rewrite Hcond, Hpol. change (String.eqb "metadata" "skip") with false.
  cbn [andb].
  erewrite bind_run by apply exists_or_dups_run. cbv beta.
  rewrite Hcond. change (String.eqb "metadata" "force") with false.
  erewrite bind_run by reflexivity. cbv beta.
  erewrite bind_run by apply exists_or_dups_run. cbv beta.
  rewrite Hcond. reflexivity.
Qed.

(** C3, as the code has it.  With the policy [metadata], when the output
    file exists or there are duplicate candidates, and provided that the
    directory of the output file is there, that the output path carries
    the suffix of the format, that the system refuses no removal and no
    rename of the files involved and that the embedder accepts an existing
    file: the candidate with the greatest modification time is renamed to
    the output file, no other candidate is left, the metadata is embedded
    in the output file, and the song is returned with the output path; no
    audio source is searched, nothing is fetched or transcoded.  With no
    candidate the output file itself is tagged.  (The branch renames
    before the directory of the output file is made, and it stands before
    the [try] block: without the provisos it may leave a duplicate, or
    raise.) *)
Theorem metadata_policy song0 w c s1 w1 :
  overwrite (settings E) = "metadata" →
  prologue E song0 (song0, w) = (Returned c, (s1, w1)) →
  fs_exists (output_file c) (w_fs w) = true ∨ dup_song_paths c ≠ [] →
  directory_exists E (w_fs w) (output_file c) →
  with_suffix E (output_file c) ("." +:+ format (settings E)) = output_file c →
  (∀ p, p ∈ output_file c :: dup_song_paths c → p ∉ denied (w_fs w)) →
  (∀ fs, fs_exists (output_file c) fs = true →
         ∃ fs', embed_metadata E (output_file c) s1 fs = (Returned (), fs')) →
  ∃ w2 fs_mid,
    search_and_download E song0 w
    = (Returned (s1, Some (output_file c)), w2)
    ∧ dup_song_paths c
      = List.filter (candidate E (w_fs w) (output_file c))
          (known_paths w (song_url s1))
    ∧ reconciled (w_fs w) c fs_mid
    ∧ embed_metadata E (output_file c) s1 fs_mid = (Returned (), w_fs w2)
    ∧ last (trace w2) = Some (EvNotifyComplete (song_url s1))
    ∧ trace_grows no_download w w2
    ∧ errors w2 = errors w.
Proof.
  intros Hpol Hpro Hpresent _ Hsuf Hden Hembed.
  destruct (prologue_ctx E _ _ _ _ _ Hpro) as [Hdups Hfs].
  assert (Hcand : Forall (λ p, candidate E (w_fs w1) (output_file c) p = true)
                         (dup_song_paths c)).
  { rewrite Hfs, Hdups. apply Forall_forall. intros p Hp.
    apply list_elem_of_In, filter_In in Hp as [_ Hp]. exact Hp. }
  rewrite <- Hfs in Hpresent, Hden.
  destruct (update_metadata_run c s1 w1 Hpresent Hcand Hsuf Hden Hembed)
    as (w2 & fs_mid & Hrun & He & Hrec & Hlast).
  assert (Hpre : preamble E song0 (song0, w)
                 = (Returned (Finished (Some (output_file c))), (s1, w2))).
  { rewrite (preamble_metadata _ _ _ _ _ Hpol Hpro).
    - unfold bind. rewrite Hrun. reflexivity.
    - destruct Hpresent as [-> | Hne]; [done|].
      destruct (dup_song_paths c); [done | apply orb_true_r]. }
  exists w2, fs_mid. split.
  { unfold search_and_download, search_and_download_frame, bind.
    rewrite Hpre. reflexivity. }
  split; [exact Hdups|]. split; [by rewrite <- Hfs|].
  split; [exact He|]. split; [exact Hlast|]. split.
  - exact (preamble_no_download E _ _ _ _ Hpre).
  - exact (preamble_same_errors E _ _ _ _ Hpre).
Qed.

End MetadataPolicy.

(** ** A failed transcoding (C6) *)
Section TranscodeFailure.
Variable E : Env.

Lemma remove_temp_run temp s w :
  temp ∉ denied (w_fs w) →
  ∃ w', remove_temp temp (s, w) = (Returned (), (s, w'))
        ∧ w_fs w' = mkFS (delete temp (files (w_fs w)))
                         (denied (w_fs w)) (clock (w_fs w)).
Proof.
  intros Hd. unfold remove_temp, bind, up, path_exists, read_fs, fs_exists.
  cbn [fst snd].
  destruct (files (w_fs w) !! temp) eqn:Ht; cbn [when].
  - unfold try_except, up, unlink, bind, emit, with_fs, fs_unlink.
    cbn [fst snd w_fs]. rewrite Ht. rewrite decide_False by done.
    eexists. split; reflexivity.
  - unfold ret. eexists. split; [reflexivity|].
    rewrite delete_id by done. by destruct (w_fs w).
Qed.

Lemma report_failure_run c result s w dir :
  get_errors_path E = Returned dir →
  error_file_name E dir ∉ denied (w_fs w) →
  output_file c ∉ denied (w_fs w) →
  ∃ w', report_failure E c result (s, w)
        = (Raised (Exn FFmpegError
                     ("Failed to convert " +:+ display_name E s
                      +:+ ", you can find error here: "
                      +:+ absolute E (error_file_name E dir))), (s, w'))
        ∧ files (w_fs w')
          = delete (output_file c)
              (<[error_file_name E dir
                 := mkFile (clock (w_fs w)) (error_report E result)]>
                 (files (w_fs w))).
Proof.
  intros Hdir Hf Ho. unfold report_failure. rewrite Hdir.
  unfold bind, call, up, write_text, bind, emit, with_fs, fs_write,
    path_exists, read_fs, fs_exists, get_song, raise.
  cbn [fst snd w_fs]. rewrite decide_False by done. cbn [fst snd w_fs files].
  destruct (<[_ := _]> (files (w_fs w)) !! output_file c) eqn:Hout;
    cbn [when].
  - unfold up, unlink, bind, emit, with_fs, fs_unlink.
    cbn [fst snd w_fs files denied]. rewrite Hout.
    rewrite decide_False by done. eexists. split; reflexivity.
  - unfold ret. eexists. split; [reflexivity|]. cbn [w_fs files].
    by rewrite delete_id.
Qed.

(** C6, as the code has it.  When the transcoder answers with a failure
    and a diagnostic that is not empty, and the files involved can be
    changed: the report is written in the errors directory under the name
    [ffmpeg_error_<time>.txt], the output file is not there any more, and
    the song is returned with no path, the error list having one more
    entry, an [FFmpegError] whose text ends with the path of the report. *)
Theorem transcode_failure_report song0 w c s1 w1 cv s2 w2 dir item items :
  preamble E song0 (song0, w) = (Returned (Proceed c), (s1, w1)) →
  download_and_convert E c (s1, w1) = (Returned cv, (s2, w2)) →
  cv_success cv = false →
  cv_result cv = Some (item :: items) →
  get_errors_path E = Returned dir →
  (∀ p, p ∈ [cv_temp cv; error_file_name E dir; output_file c] →
        p ∉ denied (w_fs w2)) →
  error_file_name E dir ≠ output_file c →
  ∃ w3,
    search_and_download E song0 w = (Returned (s2, None), w3)
    ∧ files (w_fs w3) !! error_file_name E dir
      = Some (mkFile (clock (w_fs w2)) (error_report E (item :: items)))
    ∧ files (w_fs w3) !! output_file c = None
    ∧ errors w3
      = errors w
        ++ [song_url s2 +:+ " - FFmpegError: Failed to convert "
            +:+ display_name E s2 +:+ ", you can find error here: "
            +:+ absolute E (error_file_name E dir)].
Proof.
  intros Hpre Hdc Hfail Hres Hdir Hden Hne.
  destruct (remove_temp_run (cv_temp cv) s2 w2) as (wa & Htemp & Hfsa).
  { apply Hden. set_solver. }
  destruct (report_failure_run c (item :: items) s2 wa dir Hdir)
    as (wb & Hrep & Hfsb).
  { rewrite Hfsa. apply Hden. set_solver. }
  { rewrite Hfsa. apply Hden. set_solver. }
  assert (Hg : guarded E c (s1, w1)
               = (Raised (Exn FFmpegError
                     ("Failed to convert " +:+ display_name E s2
                      +:+ ", you can find error here: "
                      +:+ absolute E (error_file_name E dir))), (s2, wb))).
  { unfold guarded. erewrite bind_run by exact Hdc. unfold post_convert.
    erewrite bind_run by exact Htemp. rewrite Hfail, Hres. exact Hrep. }
  rewrite (boundary_run E _ _ _ _ _ _ _ _ Hpre Hg).
  eexists. split; [reflexivity|]. cbn [w_fs errors].
  rewrite Hfsb, Hfsa. cbn [files clock].
  split; [by rewrite lookup_delete_ne, lookup_insert_eq|].
  split; [by rewrite lookup_delete_eq|]. reflexivity.
Qed.

End TranscodeFailure.

(** ** The known-files index after a download (C7) *)
Section KnownFiles.
Variable E : Env.

(** No run of [search_and_download] changes the dictionary of known songs:
    the only write is an [append] to the list that [get] hands out. *)
Lemma search_and_download_keeps_index song w r w' :
  search_and_download E song w = (r, w') → known_songs w' = known_songs w.
Proof.
  unfold search_and_download.
  destruct (search_and_download_frame E song (song, w)) as [x sw] eqn:Hrun.
  pose proof (frame_same_known E song _ _ _ Hrun) as Hk.
  unfold on_world, same_known in Hk. simpl in Hk.
  destruct x; intros [= _ <-]; exact Hk.
Qed.

(** The registration, when the URL has a list in the dictionary: the path
    is appended to that list. *)
Lemma register_known_hit key p w l paths :
  known_songs w !! key = Some l → w_heap w !! l = Some paths →
  known_paths (register_known key p w).2 key = paths ++ [p].
Proof.
  intros Hk Hl. unfold register_known, bind, known_get_default, list_append,
    known_paths. rewrite Hk. cbn. rewrite Hk, lookup_alter_eq, Hl. done.
Qed.

(** The registration, when the URL has no list in the dictionary: the path
    goes to a list that the dictionary does not hold. *)
Lemma register_known_miss key p w :
  known_songs w !! key = None →
  known_paths (register_known key p w).2 key = [].
Proof.
  intros Hk. unfold register_known, bind, known_get_default, list_append,
    known_paths. rewrite Hk. cbn. by rewrite Hk.
Qed.

(** A URL without an entry in the index has none after the download. *)
Lemma unknown_url_stays_unknown song w r w' key :
  search_and_download E song w = (r, w') →
  known_songs w !! key = None → known_paths w' key = [].
Proof.
  intros Hrun Hk. unfold known_paths.
  by rewrite (search_and_download_keeps_index _ _ _ _ Hrun), Hk.
Qed.

End KnownFiles.

(** ** The pool (C5) *)
Section PoolFacts.
Variable E : Env.

Lemma running_insert (l : list (Song * TaskState)) i t t' :
  l !! i = Some t →
  length (List.filter is_running (<[i := t']> l))
    + (if is_running t then 1 else 0)
  = length (List.filter is_running l) + (if is_running t' then 1 else 0).
Proof.
  revert i. induction l as [|x l IH]; intros i Hi; [done|].
  destruct i as [|i]; simpl in *.
  - injection Hi as ->. destruct (is_running t), (is_running t'); simpl; lia.
  - specialize (IH i Hi). destruct (is_running x); simpl; lia.
Qed.

Lemma fst_insert_same (l : list (Song * TaskState)) i s st st' :
  l !! i = Some (s, st) → map fst (<[i := (s, st')]> l) = map fst l.
Proof.
  revert i. induction l as [|x l IH]; intros i Hi; [done|].
  destruct i as [|i]; simpl in *.
  - by injection Hi as ->.
  - by rewrite (IH i Hi).
Qed.

Lemma search_and_download_keeps_archive song w r w' :
  search_and_download E song w = (r, w') → url_archive w' = url_archive w.
Proof.
  unfold search_and_download.
  destruct (search_and_download_frame E song (song, w)) as [x sw] eqn:Hrun.
  pose proof (frame_same_archive E song _ _ _ Hrun) as Hk.
  unfold on_world, same_archive in Hk. simpl in Hk.
  destruct x; intros [= _ <-]; exact Hk.
Qed.

Lemma pool_step_ok limit songs a act p p' :
  pool_ok E limit songs a p → pool_step E act p = Some p' →
  pool_ok E limit songs a p'.
Proof.
  intros (Hs & Hp & Ha) Hstep. unfold pool_step in Hstep.
  destruct (failed p); [done|]. destruct act as [i|i].
  - destruct (tasks p !! i) as [[s [| |r|e0]]|] eqn:Hi; try done.
    destruct (permits p) as [|n] eqn:Hn; [done|].
    injection Hstep as <-. unfold pool_ok, running in *. cbn.
    split; [by rewrite (fst_insert_same _ _ _ _ _ Hi)|].
    split; [|done].
    pose proof (running_insert (tasks p) i _ (s, Running) Hi) as Hr.
    cbn in Hr. lia.
  - destruct (tasks p !! i) as [[s [| |r|e0]]|] eqn:Hi; try done.
    destruct (search_and_download E s (pool_world p)) as [[r|e] w'] eqn:Hrun;
      injection Hstep as <-; unfold pool_ok, running in *; cbn.
    + split; [by rewrite (fst_insert_same _ _ _ _ _ Hi)|].
      split.
      { pose proof (running_insert (tasks p) i _ (s, Done r) Hi) as Hr.
        cbn in Hr. lia. }
      by rewrite (search_and_download_keeps_archive _ _ _ _ Hrun).
    + split; [by rewrite (fst_insert_same _ _ _ _ _ Hi)|].
      split.
      { pose proof (running_insert (tasks p) i _ (s, Broken e) Hi) as Hr.
        cbn in Hr. lia. }
      by rewrite (search_and_download_keeps_archive _ _ _ _ Hrun).
Qed.

Lemma run_actions_ok limit songs a acts p p' :
  pool_ok E limit songs a p → run_actions E acts p = Some p' →
  pool_ok E limit songs a p'.
Proof.
  revert p. induction acts as [|act acts IH]; intros p Hok Hrun.
  - by injection Hrun as <-.
  - simpl in Hrun. destruct (pool_step E act p) as [p1|] eqn:Hstep; [|done].
    eauto using pool_step_ok.
Qed.

Lemma init_pool_ok limit songs w :
  pool_ok E limit songs (url_archive w) (init_pool limit songs w).
Proof.
  unfold pool_ok, init_pool, running. cbn. split; [|split].
  - rewrite map_map. cbn. apply map_id.
  - induction songs; cbn; [lia | done].
  - done.
Qed.

(** A step keeps what holds of every pool, whatever that is. *)
Lemma run_actions_invariant (I : Pool → Prop) acts p p' :
  (∀ act q q', I q → pool_step E act q = Some q' → I q') →
  I p → run_actions E acts p = Some p' → I p'.
Proof.
  intros Hstep. revert p. induction acts as [|act acts IH]; intros p Hp Hrun.
  - by injection Hrun as <-.
  - cbn in Hrun. destruct (pool_step E act p) as [p1|] eqn:Hs; [|done].
    eauto.
Qed.

(** The batch is over only when a call has raised: that task holds the
    exception. *)
Lemma failed_by_a_task limit songs w acts p e :
  run_actions E acts (init_pool limit songs w) = Some p →
  failed p = Some e →
  ∃ i s, tasks p !! i = Some (s, Broken e).
Proof.
  intros Hrun Hf.
  eapply (run_actions_invariant
            (λ q, ∀ e, failed q = Some e →
                       ∃ i s, tasks q !! i = Some (s, Broken e)));
    [| |exact Hrun|exact Hf].
  - clear. intros act q q' _ Hstep e Hf. unfold pool_step in Hstep.
    destruct (failed q); [done|]. destruct act as [i|i].
    + destruct (tasks q !! i) as [[s [| | |]]|]; try done.
      destruct (permits q); [done|]. by injection Hstep as <-.
    + destruct (tasks q !! i) as [[s [| | |]]|] eqn:Hi; try done.
      destruct (search_and_download E s (pool_world q)) as [[r|e'] w'];
        injection Hstep as <-; [done|]. cbn in Hf. injection Hf as <-.
      exists i, s. cbn. apply list_lookup_insert_eq.
      by eapply lookup_lt_Some.
  - intros e0 [=].
Qed.

(** C5.  In every state that an execution of the pool reaches, at most
    [limit] calls of [search_and_download] are in progress.  When [limit]
    are in progress no waiting task can start; when fewer are, every
    waiting task can.  A task in progress stays so until its own call
    ends, and then it holds the outcome of that call, a result or an
    exception.  The call of a task in progress can always end: the task
    is then done, its permit is back and one call fewer is in progress,
    so that, the call having returned, every waiting task can start.  All
    this as long as no call has raised, which ends the batch: the batch
    is over only when a task holds the exception of its call. *)
Theorem pool_bound limit songs w acts p :
  run_actions E acts (init_pool limit songs w) = Some p →
  (running p ≤ limit)%nat
  ∧ (running p = limit → ∀ i, pool_step E (Acquire i) p = None)
  ∧ (∀ i s, (running p < limit)%nat → failed p = None →
            tasks p !! i = Some (s, Waiting) →
            ∃ p', pool_step E (Acquire i) p = Some p'
                  ∧ tasks p' !! i = Some (s, Running))
  ∧ (∀ i s act p', tasks p !! i = Some (s, Running) →
       pool_step E act p = Some p' →
       (act ≠ Complete i ∧ tasks p' !! i = Some (s, Running))
       ∨ (act = Complete i
          ∧ ∃ r, search_and_download E s (pool_world p)
                   = (r, pool_world p')
                 ∧ tasks p' !! i
                   = Some (s, match r with
                              | Returned x => Done x
                              | Raised e => Broken e
                              end)))
  ∧ (∀ i s, failed p = None → tasks p !! i = Some (s, Running) →
       ∃ r p',
         pool_step E (Complete i) p = Some p'
         ∧ search_and_download E s (pool_world p) = (r, pool_world p')
         ∧ tasks p' !! i
           = Some (s, match r with
                      | Returned x => Done x
                      | Raised e => Broken e
                      end)
         ∧ permits p' = S (permits p)
         ∧ S (running p') = running p
         ∧ (∀ x, r = Returned x →
              failed p' = None
              ∧ ∀ j s', tasks p !! j = Some (s', Waiting) →
                  ∃ p'', pool_step E (Acquire j) p' = Some p''
                         ∧ tasks p'' !! j = Some (s', Running)))
  ∧ (∀ e, failed p = Some e → ∃ i s, tasks p !! i = Some (s, Broken e)).
Proof.
  intros Hrun.
  destruct (run_actions_ok _ _ _ _ _ _ (init_pool_ok limit songs w) Hrun)
    as (Hs & Hp & _).
  split; [lia|]. split; [|split; [|split; [|split]]].
  - intros Hfull i. unfold pool_step.
    destruct (failed p); [done|].
    destruct (tasks p !! i) as [[s [| | |]]|]; try done.
    destruct (permits p) eqn:Hn; [done | lia].
  - intros i s Hlt Hf Hi. unfold pool_step. rewrite Hf, Hi.
    destruct (permits p) eqn:Hn; [lia|].
    eexists. split; [reflexivity|]. cbn.
    apply list_lookup_insert_eq. by eapply lookup_lt_Some.
  - intros i s act p' Hi Hstep. unfold pool_step in Hstep.
    destruct (failed p); [done|]. destruct act as [j|j].
    + left. split; [done|].
      destruct (tasks p !! j) as [[s' [| | |]]|] eqn:Hj; try done.
      destruct (permits p); [done|]. injection Hstep as <-. cbn.
      rewrite list_lookup_insert_ne; [done|]. intros ->. congruence.
    + destruct (decide (j = i)) as [->|Hne].
      * right. split; [done|]. rewrite Hi in Hstep.
        destruct (search_and_download E s (pool_world p)) as [[r|e] w']
          eqn:Hsd; injection Hstep as <-; cbn; eexists;
          (split; [reflexivity|]); cbn;
          apply list_lookup_insert_eq; by eapply lookup_lt_Some.
      * left. split; [congruence|].
        destruct (tasks p !! j) as [[s' [| | |]]|] eqn:Hj; try done.
        destruct (search_and_download E s' (pool_world p)) as [[r|e] w'];
          injection Hstep as <-; cbn; by rewrite list_lookup_insert_ne.
  - intros i s Hf Hi.
    assert (Hlt : (i < length (tasks p))%nat) by by eapply lookup_lt_Some.
    destruct (search_and_download E s (pool_world p)) as [r w1] eqn:Hsd.
    exists r.
    destruct r as [x|e].
    + eexists. unfold pool_step. rewrite Hf, Hi, Hsd.
      split; [reflexivity|]. cbn. split; [reflexivity|].
      split; [by apply list_lookup_insert_eq|]. split; [done|].
      split.
      { pose proof (running_insert (tasks p) i _ (s, Done x) Hi) as Hr.
        cbn in Hr. unfold running. cbn. lia. }
      intros ? _. split; [done|]. intros j s' Hj.
      assert (Hji : j ≠ i) by (intros ->; congruence).
      unfold pool_step. cbn. rewrite list_lookup_insert_ne by done.
      rewrite Hj. eexists. split; [reflexivity|]. cbn.
      apply list_lookup_insert_eq. rewrite length_insert.
      by eapply lookup_lt_Some.
    + eexists. unfold pool_step. rewrite Hf, Hi, Hsd.
      split; [reflexivity|]. cbn. split; [reflexivity|].
      split; [by apply list_lookup_insert_eq|]. split; [done|].
      split.
      { pose proof (running_insert (tasks p) i _ (s, Broken e) Hi) as Hr.
        cbn in Hr. unfold running. cbn. lia. }
      intros ? [=].
  - intros e Hf. by eapply failed_by_a_task.
Qed.

End PoolFacts.

(** ** The batch (C4, C8, C10) *)
Section Batch.
Variable E : Env.

Lemma epilogue_returns results w r w' :
  epilogue E results w = (Returned r, w') → r = results.
Proof.
  unfold epilogue. intros H.
  apply bind_returned in H as (? & ? & _ & H).
  apply bind_returned in H as (? & ? & _ & H).
  apply bind_returned in H as (? & ? & _ & H).
  apply bind_returned in H as (? & ? & _ & H).
  by injection H as <- _.
Qed.

Lemma search_and_download_keeps_url song w r w' :
  reinit_keeps_url E →
  search_and_download E song w = (Returned r, w') →
  song_url r.1 = song_url song.
Proof.
  intros Hre. unfold search_and_download.
  destruct (search_and_download_frame E song (song, w)) as [x sw] eqn:Hrun.
  pose proof (frame_same_url E song Hre _ _ _ Hrun) as Hu.
  unfold same_url in Hu. simpl in Hu.
  destruct x; intros [= <- _]; exact Hu.
Qed.

Lemma frame_trace_extends song0 :
  respects (on_world (trace_grows any_event))
    (search_and_download_frame E song0).
Proof.
  open_pipeline.
  respects_with ltac:(first [ apply emit_grows; reflexivity
                            | silent_case
                            | fixpoints ltac:(apply emit_grows; reflexivity) ]).
Qed.

Lemma search_and_download_trace song w r w' :
  search_and_download E song w = (r, w') → trace_grows any_event w w'.
Proof.
  unfold search_and_download.
  destruct (search_and_download_frame E song (song, w)) as [x sw] eqn:Hrun.
  pose proof (frame_trace_extends song _ _ _ Hrun) as Hk.
  unfold on_world in Hk. simpl in Hk.
  destruct x; intros [= _ <-]; exact Hk.
Qed.

Lemma pool_trace acts p p' :
  run_actions E acts p = Some p' →
  trace_grows any_event (pool_world p) (pool_world p').
Proof.
  intros Hrun.
  eapply (run_actions_invariant E
            (λ q, trace_grows any_event (pool_world p) (pool_world q)));
    [|reflexivity|exact Hrun].
  clear. intros act q q' Hq Hstep. unfold pool_step in Hstep.
  destruct (failed q); [done|]. destruct act as [i|i].
  - destruct (tasks q !! i) as [[s [| | |]]|]; try done.
    destruct (permits q); [done|]. by injection Hstep as <-.
  - destruct (tasks q !! i) as [[s [| | |]]|]; try done.
    destruct (search_and_download E s (pool_world q)) as [[r|e] w'] eqn:Hsd;
      injection Hstep as <-; cbn;
      (etransitivity; [exact Hq|]);
      exact (search_and_download_trace _ _ _ _ Hsd).
Qed.

Lemma print_errors_grows :
  respects (trace_grows any_event)
    (λ w, for_each (errors w) (λ error, emit (EvError error)) w).
Proof.
  intros w r w' H.
  eapply (respects_for_each (trace_grows any_event)); [|exact H].
  intros x. by apply emit_grows.
Qed.

Lemma epilogue_trace_extends results :
  respects (trace_grows any_event) (epilogue E results).
Proof.
  unfold epilogue.
  apply respects_bind; [apply _| |intros _].
  { apply respects_when; [apply _|]. apply print_errors_grows. }
  repeat case_match;
    respects_with ltac:(first [ apply emit_grows; reflexivity
                              | silent_case ]).
Qed.

Lemma run_actions_app l1 l2 p :
  run_actions E (l1 ++ l2) p
  = match run_actions E l1 p with
    | Some p1 => run_actions E l2 p1
    | None => None
    end.
Proof.
  revert p. induction l1 as [|a l1 IH]; intros p; [done|].
  cbn. destruct (pool_step E a p); [apply IH | done].
Qed.

(** A task that is done holds what its call returned, in the world at
    the moment the call ended. *)
Lemma done_by_call acts p0 p :
  Forall (λ t, t.2 = Waiting) (tasks p0) →
  run_actions E acts p0 = Some p →
  ∀ i s r, tasks p !! i = Some (s, Done r) →
    ∃ before after pb wa,
      acts = before ++ Complete i :: after
      ∧ run_actions E before p0 = Some pb
      ∧ tasks pb !! i = Some (s, Running)
      ∧ search_and_download E s (pool_world pb) = (Returned r, wa).
Proof.
  intros Hinit. revert p.
  induction acts as [|a acts IH] using rev_ind; intros p Hrun i s r Hi.
  - injection Hrun as <-. rewrite Forall_forall in Hinit.
    apply list_elem_of_lookup_2 in Hi. by apply Hinit in Hi.
  - rewrite run_actions_app in Hrun.
    destruct (run_actions E acts p0) as [p1|] eqn:Hrun1; [|done].
    cbn in Hrun. destruct (pool_step E a p1) as [p2|] eqn:Hstep; [|done].
    injection Hrun as <-.
    assert (Hold : tasks p1 !! i = Some (s, Done r) →
              ∃ before after pb wa,
                acts ++ [a] = before ++ Complete i :: after
                ∧ run_actions E before p0 = Some pb
                ∧ tasks pb !! i = Some (s, Running)
                ∧ search_and_download E s (pool_world pb) = (Returned r, wa)).
    { intros H1. destruct (IH p1 eq_refl i s r H1)
        as (before & after & pb & wa & -> & ? & ? & ?).
      exists before, (after ++ [a]), pb, wa.
      split; [by rewrite <- app_assoc|]. done. }
    unfold pool_step in Hstep. destruct (failed p1); [done|].
    destruct a as [j|j].
    + destruct (tasks p1 !! j) as [[s' [| | |]]|] eqn:Hj; try done.
      destruct (permits p1); [done|]. injection Hstep as <-. cbn in Hi.
      destruct (decide (i = j)) as [->|Hne].
      * rewrite list_lookup_insert_eq in Hi by (by eapply lookup_lt_Some).
        done.
      * rewrite list_lookup_insert_ne in Hi by done. by apply Hold.
    + destruct (tasks p1 !! j) as [[s' [| | |]]|] eqn:Hj; try done.
      destruct (search_and_download E s' (pool_world p1)) as [[x|e] w1]
        eqn:Hsd; injection Hstep as <-; cbn in Hi.
      * destruct (decide (i = j)) as [->|Hne].
        -- rewrite list_lookup_insert_eq in Hi by (by eapply lookup_lt_Some).
           injection Hi as <- <-.
           exists acts, [], p1, w1. done.
        -- rewrite list_lookup_insert_ne in Hi by done. by apply Hold.
      * destruct (decide (i = j)) as [->|Hne].
        -- rewrite list_lookup_insert_eq in Hi by (by eapply lookup_lt_Some).
           done.
        -- rewrite list_lookup_insert_ne in Hi by done. by apply Hold.
Qed.




(** What a batch that returns has gone through. *)
Lemma batch_pool acts songs w results w' :
  download_multiple_songs E acts songs w = Some (Returned results, w') →
  ∃ p,
    run_actions E acts
      (init_pool (Z.to_nat (threads (settings E))) (scheduled E songs w)
         (emit (EvSetSongCount (length (scheduled E songs w))) w).2)
    = Some p
    ∧ map fst (tasks p) = scheduled E songs w
    ∧ mapM task_result (tasks p) = Some results
    ∧ epilogue E results (pool_world p) = (Returned results, w').
Proof.
  unfold download_multiple_songs. cbv zeta.
  destruct (run_actions E acts _) as [p|] eqn:Hrun; [|done].
  destruct (run_actions_ok E _ _ _ _ _ _ (init_pool_ok E _ _ _) Hrun)
    as (Hs & _).
  unfold gather. destruct (failed p); [done|].
  destruct (mapM task_result (tasks p)) as [rs|] eqn:Hm; [|done].
  intros [= Hep]. pose proof (epilogue_returns _ _ _ _ Hep) as ->.
  exists p. done.
Qed.

Lemma results_of_tasks (ts : list (Song * TaskState)) results :
  mapM task_result ts = Some results →
  length results = length ts
  ∧ ∀ i s st, ts !! i = Some (s, st) →
      ∃ r, results !! i = Some r ∧ st = Done r.
Proof.
  intros Hm. apply mapM_Some_1 in Hm.
  split; [symmetry; by eapply Forall2_length|].
  intros i s st Hi.
  destruct (Forall2_lookup_l _ _ _ _ _ Hm Hi) as (r & Hr & Ht).
  exists r. split; [done|]. unfold task_result in Ht. cbn in Ht.
  destruct st; try done. by injection Ht as ->.
Qed.

Lemma batch_urls acts songs w results w' :
  reinit_keeps_url E →
  download_multiple_songs E acts songs w = Some (Returned results, w') →
  map (λ r, song_url r.1) results = map song_url (scheduled E songs w).
Proof.
  intros Hre Hrun.
  destruct (batch_pool _ _ _ _ _ Hrun) as (p & Hp & Hs & Hm & _).
  destruct (results_of_tasks _ _ Hm) as [Hlen Hres].
  assert (Hinit : Forall (λ t : Song * TaskState, t.2 = Waiting)
            (tasks (init_pool (Z.to_nat (threads (settings E)))
                      (scheduled E songs w)
                      (emit (EvSetSongCount (length (scheduled E songs w)))
                         w).2))).
  { cbn. apply Forall_forall. intros t Ht.
    apply list_elem_of_In, in_map_iff in Ht as (s & <- & _). done. }
  rewrite <- Hs. apply list_eq. intros i. rewrite !list_lookup_fmap.
  destruct (tasks p !! i) as [[s st]|] eqn:Hi; cbn.
  - destruct (Hres i s st Hi) as (r & -> & ->). cbn.
    destruct (done_by_call _ _ _ Hinit Hp i s r Hi)
      as (_ & _ & pb & wa & _ & _ & _ & Hsd).
    by rewrite (search_and_download_keeps_url _ _ _ _ Hre Hsd).
  - apply lookup_ge_None in Hi. rewrite <- Hlen in Hi.
    apply lookup_ge_None in Hi. by rewrite Hi.
Qed.


Lemma filter_twice (a : gset string) (l : list Song) :
  filter (λ song, song_url song ∉ a) (filter (λ song, song_url song ∉ a) l)
  = filter (λ song, song_url song ∉ a) l.
Proof.
  induction l as [|s l IH]; [done|].
  rewrite filter_cons. case_decide as Hs; [|exact IH].
  rewrite filter_cons, decide_True by done. by rewrite IH.
Qed.


(** The limit of the pool is the positive setting [threads]. *)
Lemma pool_limit_positive threads limit :
  pool_limit threads = Returned limit →
  (0 < threads)%Z ∧ limit = Z.to_nat threads.
Proof.
  unfold pool_limit. destruct (threads <? 0)%Z eqn:Hlt; [done|].
  destruct (threads =? 0)%Z eqn:Heq; [done|].
  intros [= <-]. apply Z.ltb_ge in Hlt. apply Z.eqb_neq in Heq.
  split; [lia | done].
Qed.


(** C4.  With an archive file in the settings, [download_multiple_songs]
    on a list of songs is [download_multiple_songs] on the songs of the
    list whose URL is not in the archive, in their order: the songs of the
    archive are taken out before the progress display is told the number
    of songs and before any task is made, so that no call is made on them
    and nothing of the outcome depends on them.  When the batch returns,
    there are as many results as songs that were kept, the first event it
    adds to the trace is the count of the kept songs, and, [reinit_song]
    keeping the URL of the song it resolves, the URLs of the results are
    those of the kept songs, in their order, none of them in the
    archive. *)
Theorem archived_songs_are_left_out acts songs w :
  opt_truthy (archive (settings E)) = true →
  download_multiple_songs E acts songs w
  = download_multiple_songs E acts
      (filter (λ song, song_url song ∉ url_archive w) songs) w
  ∧ ∀ results w',
      download_multiple_songs E acts songs w = Some (Returned results, w') →
      length results
      = length (filter (λ song, song_url song ∉ url_archive w) songs)
      ∧ (∃ evs,
           trace w'
           = trace w
             ++ EvSetSongCount
                  (length (filter (λ song, song_url song ∉ url_archive w)
                             songs))
             :: evs)
      ∧ (reinit_keeps_url E →
         map (λ r, song_url r.1) results
         = map song_url
             (filter (λ song, song_url song ∉ url_archive w) songs)
         ∧ ∀ r, r ∈ results → song_url r.1 ∉ url_archive w).
Proof.
  intros Harch.
  assert (Hs : ∀ l, scheduled E l w
                    = filter (λ song, song_url song ∉ url_archive w) l)
    by (intros l; unfold scheduled; by rewrite Harch).
  split.
  { unfold download_multiple_songs. cbv zeta.
    by rewrite !Hs, filter_twice. }
  intros results w' Hrun.
  destruct (batch_pool _ _ _ _ _ Hrun) as (p & Hp & Hfst & Hm & Hep).
  destruct (results_of_tasks _ _ Hm) as [Hlen _].
  rewrite Hs in *.
  split.
  { rewrite Hlen, <- Hfst. by rewrite length_map. }
  split.
  { destruct (pool_trace _ _ _ Hp) as (evs1 & Ht1 & _).
    destruct (epilogue_trace_extends _ _ _ _ Hep) as (evs2 & Ht2 & _).
    cbn in Ht1. exists (evs1 ++ evs2).
    rewrite Ht2, Ht1, <- !app_assoc. reflexivity. }
  intros Hre. pose proof (batch_urls _ _ _ _ _ Hre Hrun) as Hurls.
  rewrite Hs in Hurls. split; [done|].
  intros r Hr.
  assert (Hu : song_url r.1 ∈ map (λ r, song_url r.1) results).
  { apply list_elem_of_In.
    apply (in_map (λ r : Song * option string, song_url r.1)).
    by apply list_elem_of_In. }
  rewrite Hurls in Hu.
  apply list_elem_of_In, in_map_iff in Hu as (s & Hsu & Hsin).
  apply list_elem_of_In, list_elem_of_filter in Hsin as [Hnot _].
  by rewrite <- Hsu.
Qed.


(** The last step of [download_multiple_songs]: the results file. *)
Lemma epilogue_writes_results results w w' file :
  as_truthy (save_file (settings E)) = Some file →
  epilogue E results w = (Returned results, w') →
  ∃ t, files (w_fs w') !! file
       = Some (mkFile t (json_dumps E (results_document E results))).
Proof.
  intros Hfile. unfold epilogue. rewrite Hfile. intros H.
  apply bind_returned in H as (? & ? & _ & H).
  apply bind_returned in H as (? & ? & _ & H).
  apply bind_returned in H as (? & ? & _ & H).
  apply bind_returned in H as ([] & w3 & Hw & H). injection H as <-.
  unfold write_text, bind, emit, with_fs, fs_write in Hw. cbn in Hw.
  destruct (decide _); [done|]. injection Hw as <-. cbn.
  eexists. apply lookup_insert_eq.
Qed.

(** C8, as the code has it.  With a results file in the settings, when the
    batch returns, the file holds the serialisation of the array of the
    track records of the results, in the order of the results: one record
    per result, also for the songs that have no path.  The paths are not
    written. *)
Theorem results_file_holds_records acts songs w results w' file :
  as_truthy (save_file (settings E)) = Some file →
  download_multiple_songs E acts songs w = Some (Returned results, w') →
  ∃ t, files (w_fs w') !! file
       = Some (mkFile t
                 (json_dumps E (JArr (map (λ r, song_json E r.1) results)))).
Proof.
  intros Hfile. unfold download_multiple_songs. cbv zeta.
  destruct (run_actions E acts _) as [p|]; [|done].
  destruct (gather p) as [[rs|e]|]; [|done..].
  intros [= Hep]. pose proof (epilogue_returns _ _ _ _ Hep) as ->.
  exact (epilogue_writes_results _ _ _ _ Hfile Hep).
Qed.

End Batch.

Import Examples.

(** A run that raises in the [try] block: the transcoder fails with a diagnostic, the
    [FFmpegError] is caught and recorded. *)
Lemma guarded_error_is_recorded_witness :
  ∃ s w3,
    search_and_download
      (ex_env (ex_settings "skip") [] (ex_convert_fails (Some [("error", "boom")])))
      (ex_song "Title" "u1") (ex_fresh_world [])
    = (Returned (s, None), w3)
    ∧ errors w3
      = ["u1 - FFmpegError: Failed to convert Artist - Title, you can find error here: /errors/ffmpeg_error_2024-01-01-00-00-00.txt"].
Proof.
  edestruct (guarded_error_is_recorded
               (ex_env (ex_settings "skip") []
                  (ex_convert_fails (Some [("error", "boom")])))
               (ex_song "Title" "u1") (ex_fresh_world []))
    as [w3 [Hrun [Herr _]]].
  - vm_compute. reflexivity.
  - vm_compute. reflexivity.
  - eexists _, w3. split; [exact Hrun|]. rewrite Herr. reflexivity.
Defined.

(** C1 as stated fails for the stages before the [try] block.  A lyrics
    provider that raises makes [search_and_download] raise: nothing is
    returned for the song and nothing is appended to the error list; the
    batch that holds the song, run with a sibling that downloads well,
    ends with that exception instead of a list of results. *)
Lemma lyrics_error_escapes :
  let E := ex_env (ex_settings "skip") [ex_lyrics] ex_convert in
  let boom := Exn (OtherException "ConnectionError") "genius.com" in
  (∃ w', search_and_download E (ex_song "Broken" "u1") (ex_fresh_world [])
         = (Raised boom, w')
         ∧ errors w' = [])
  ∧ fst <$> download_multiple_songs E
              [Acquire 0; Acquire 1; Complete 0; Complete 1]
              [ex_song "Fine" "u0"; ex_song "Broken" "u1"]
              (ex_fresh_world [])
    = Some (Raised boom).
Proof.
  split.
  - eexists. split; [vm_compute; reflexivity | reflexivity].
  - vm_compute. reflexivity.
Qed.

(** A run under the policy [skip]: the output file is there already. *)
Lemma skip_policy_witness :
  ∃ w2,
    search_and_download (ex_env (ex_settings "skip") [ex_lyrics] ex_convert)
      (ex_song "Title" "u1")
      (ex_fresh_world [("/music/Artist - Title.mp3", mkFile 5 "old")])
    = (Returned (ex_song "Title" "u1", None), w2)
    ∧ files (w_fs w2) !! "/music/Artist - Title.mp3" = Some (mkFile 5 "old").
Proof.
  edestruct (skip_policy (ex_env (ex_settings "skip") [ex_lyrics] ex_convert)
               (ex_song "Title" "u1")
               (ex_fresh_world [("/music/Artist - Title.mp3", mkFile 5 "old")]))
    as (w2 & evs & Hrun & _ & _ & Hfs & _).
  - reflexivity.
  - vm_compute. reflexivity.
  - left. vm_compute. reflexivity.
  - exists w2. split; [exact Hrun|]. rewrite Hfs. vm_compute. reflexivity.
Defined.

(** A run under the policy [metadata]: the output file is there, and two
    duplicates of the song are known; the newer duplicate becomes the
    output file and is tagged, the older one is removed. *)
Lemma metadata_policy_witness :
  ∃ w2,
    search_and_download (ex_env (ex_settings "metadata") [] ex_convert)
      (ex_song "Title" "u1")
      (ex_world [("/music/Artist - Title.mp3", mkFile 5 "old");
                 ("/old/a.mp3", mkFile 3 "A"); ("/old/b.mp3", mkFile 7 "B")]
                "u1" ["/old/a.mp3"; "/old/b.mp3"])
    = (Returned (ex_song "Title" "u1", Some "/music/Artist - Title.mp3"), w2)
    ∧ files (w_fs w2) !! "/music/Artist - Title.mp3"
      = Some (mkFile 7 "B+tags:u1")
    ∧ files (w_fs w2) !! "/old/a.mp3" = None
    ∧ files (w_fs w2) !! "/old/b.mp3" = None.
Proof.
  edestruct (metadata_policy (ex_env (ex_settings "metadata") [] ex_convert)
               (ex_song "Title" "u1")
               (ex_world [("/music/Artist - Title.mp3", mkFile 5 "old");
                          ("/old/a.mp3", mkFile 3 "A");
                          ("/old/b.mp3", mkFile 7 "B")]
                         "u1" ["/old/a.mp3"; "/old/b.mp3"]))
    as (w2 & fs_mid & Hrun & _).
  - reflexivity.
  - vm_compute. reflexivity.
  - left. vm_compute. reflexivity.
  - exists "/music/Artist - Title.mp3", (mkFile 5 "old").
    split; vm_compute; reflexivity.
  - vm_compute. reflexivity.
  - intros p _. vm_compute. intros H. inversion H.
  - intros fs Hex. unfold fs_exists in Hex. cbn. unfold ex_embed.
    destruct (files fs !! _); [eauto | discriminate].
  - exists w2. split; [exact Hrun|].
    assert (Hw : w2 = (search_and_download
                         (ex_env (ex_settings "metadata") [] ex_convert)
                         (ex_song "Title" "u1")
                         (ex_world [("/music/Artist - Title.mp3",
                                     mkFile 5 "old");
                                    ("/old/a.mp3", mkFile 3 "A");
                                    ("/old/b.mp3", mkFile 7 "B")]
                                   "u1" ["/old/a.mp3"; "/old/b.mp3"])).2)
      by (rewrite Hrun; reflexivity).
    rewrite Hw. vm_compute. auto.
Defined.

(** C3 as stated fails when the system refuses a removal or a rename.  A
    duplicate that cannot be removed is passed over: it is still there
    when the song is returned with the output path.  And when it is the
    newest duplicate that cannot be renamed, the error leaves
    [search_and_download], the branch standing before the [try] block:
    nothing is returned for the song and nothing is recorded. *)
Lemma refused_removal_keeps_duplicate :
  let E := ex_env (ex_settings "metadata") [] ex_convert in
  let files0 := [("/music/Artist - Title.mp3", mkFile 5 "old");
                 ("/locked/a.mp3", mkFile 3 "A");
                 ("/old/b.mp3", mkFile 7 "B")] in
  let known := ["/locked/a.mp3"; "/old/b.mp3"] in
  (∃ w',
     search_and_download E (ex_song "Title" "u1")
       (ex_locked_known_world files0 ["/locked/a.mp3"] "u1" known)
     = (Returned (ex_song "Title" "u1", Some "/music/Artist - Title.mp3"), w')
     ∧ files (w_fs w') !! "/locked/a.mp3" = Some (mkFile 3 "A")
     ∧ files (w_fs w') !! "/music/Artist - Title.mp3"
       = Some (mkFile 7 "B+tags:u1")
     ∧ errors w' = [])
  ∧ (∃ e w',
       search_and_download E (ex_song "Title" "u1")
         (ex_locked_known_world files0 ["/old/b.mp3"] "u1" known)
       = (Raised e, w')
       ∧ exn_cls e = PermissionError
       ∧ files (w_fs w') !! "/locked/a.mp3" = None
       ∧ errors w' = []).
Proof.
  split.
  - eexists. split; [vm_compute; reflexivity|]. vm_compute. auto.
  - eexists _, _. split; [vm_compute; reflexivity|]. vm_compute. auto.
Qed.

(** A run with a transcoder that fails and says why. *)
Lemma transcode_failure_report_witness :
  ∃ s w3,
    search_and_download
      (ex_env (ex_settings "skip") []
         (ex_convert_fails (Some [("error", "boom")])))
      (ex_song "Title" "u1") (ex_fresh_world [])
    = (Returned (s, None), w3)
    ∧ files (w_fs w3) !! "/errors/ffmpeg_error_2024-01-01-00-00-00.txt"
      = Some (mkFile 100 ("### error:" +:+ nl +:+ "boom" +:+ nl +:+ nl))
    ∧ files (w_fs w3) !! "/music/Artist - Title.mp3" = None.
Proof.
  edestruct (transcode_failure_report
               (ex_env (ex_settings "skip") []
                  (ex_convert_fails (Some [("error", "boom")])))
               (ex_song "Title" "u1") (ex_fresh_world []))
    as (w3 & Hrun & Hrep & Hout & _).
  - vm_compute. reflexivity.
  - vm_compute. reflexivity.
  - reflexivity.
  - reflexivity.
  - reflexivity.
  - intros p _. vm_compute. intros H. inversion H.
  - discriminate.
  - eexists _, w3. split; [exact Hrun|]. split; [exact Hrep | exact Hout].
Defined.

(** C6 as stated fails when the transcoder reports a failure without a
    diagnostic: no report is written, the partial output stays, and the
    song is returned as downloaded. *)
Lemma silent_transcode_failure :
  let E := ex_env (ex_settings "skip") [] (ex_convert_fails None) in
  ∃ s w',
    search_and_download E (ex_song "Title" "u1") (ex_fresh_world [])
    = (Returned (s, Some "/music/Artist - Title.mp3"), w')
    ∧ errors w' = []
    ∧ files (w_fs w') !! "/errors/ffmpeg_error_2024-01-01-00-00-00.txt" = None
    ∧ files (w_fs w') !! "/music/Artist - Title.mp3"
      = Some (mkFile 100 "partial+tags:u1").
Proof.
  eexists _, _. split; [vm_compute; reflexivity|].
  vm_compute. auto.
Qed.

(** C7 on a first download.  The song is downloaded, converted and tagged,
    and returned with its output path; the index of known files has no
    entry for its URL afterwards, and a look-up of the URL yields no
    path. *)
Theorem fresh_download_is_not_registered :
  let E := ex_env (ex_settings "skip") [] ex_convert in
  ∃ s w',
    search_and_download E (ex_song "Title" "u1") (ex_fresh_world [])
    = (Returned (s, Some "/music/Artist - Title.mp3"), w')
    ∧ song_url s = "u1"
    ∧ files (w_fs w') !! "/music/Artist - Title.mp3"
      = Some (mkFile 100 "audio+tags:u1")
    ∧ known_songs w' !! "u1" = None
    ∧ known_paths w' "u1" = [].
Proof.
  eexists _, _. split; [vm_compute; reflexivity|].
  vm_compute. auto.
Qed.

Lemma ex_reinit_keeps_url st providers conv :
  reinit_keeps_url (ex_env st providers conv).
Proof. intros song numbering song' [= <-]. reflexivity. Qed.

(** A batch with an archive: of two songs the first is in
    the archive; the batch is the batch on the second alone, and one
    result comes back, for the second. *)
Lemma archived_songs_are_left_out_witness :
  ∃ s w',
    download_multiple_songs
      (ex_env (ex_batch_settings (Some "/archive.txt") None) [] ex_convert)
      [Acquire 0; Complete 0]
      [ex_song "A" "uA"; ex_song "C" "uC"] (ex_archived_world ["uA"])
    = Some (Returned [(s, Some "/music/Artist - C.mp3")], w')
    ∧ download_multiple_songs
        (ex_env (ex_batch_settings (Some "/archive.txt") None) [] ex_convert)
        [Acquire 0; Complete 0]
        [ex_song "A" "uA"; ex_song "C" "uC"] (ex_archived_world ["uA"])
      = download_multiple_songs
          (ex_env (ex_batch_settings (Some "/archive.txt") None) []
             ex_convert)
          [Acquire 0; Complete 0]
          [ex_song "C" "uC"] (ex_archived_world ["uA"])
    ∧ song_url s ∉ url_archive (ex_archived_world ["uA"]).
Proof.
  eexists _, _. split; [vm_compute; reflexivity|].
  edestruct (archived_songs_are_left_out
               (ex_env (ex_batch_settings (Some "/archive.txt") None) []
                  ex_convert)
               [Acquire 0; Complete 0]
               [ex_song "A" "uA"; ex_song "C" "uC"] (ex_archived_world ["uA"]))
    as [Hsame Hall].
  - reflexivity.
  - split; [exact Hsame|].
    edestruct Hall as (_ & _ & Hurls); [vm_compute; reflexivity|].
    eapply (proj2 (Hurls (ex_reinit_keeps_url _ _ _)) (_, Some _)).
    apply list_elem_of_here.
Defined.


(** A batch with a results file. *)
Lemma results_file_holds_records_witness :
  ∃ results w' t,
    download_multiple_songs
      (ex_env (ex_batch_settings None (Some "/results.json")) [] ex_convert)
      [Acquire 0; Complete 0] [ex_resolved_song "A" "uA"] (ex_fresh_world [])
    = Some (Returned results, w')
    ∧ files (w_fs w') !! "/results.json"
      = Some (mkFile t
                (ex_dumps (JArr (map (λ r, ex_json r.1) results)))).
Proof.
  eexists _, _.
  edestruct (results_file_holds_records
               (ex_env (ex_batch_settings None (Some "/results.json")) []
                  ex_convert)
               [Acquire 0; Complete 0] [ex_resolved_song "A" "uA"]
               (ex_fresh_world []))
    as [t Ht].
  - reflexivity.
  - vm_compute. reflexivity.
  - exists t. split; [vm_compute; reflexivity | exact Ht].
Defined.

(** C8 as stated fails: the results file does not tell a song that was
    downloaded from a song that failed.  The same song, once transcoded
    well and once not, gives two different results, with and without a
    path, and twice the same results file, in which no path and no [null]
    stands beside the track record. *)
Lemma results_file_ignores_paths :
  let song := ex_resolved_song "A" "uA" in
  let st := ex_batch_settings None (Some "/results.json") in
  let run := λ conv,
    download_multiple_songs (ex_env st [] conv) [Acquire 0; Complete 0]
      [song] (ex_fresh_world []) in
  ∃ w_ok w_bad,
    run ex_convert = Some (Returned [(song, Some "/music/Artist - A.mp3")], w_ok)
    ∧ run (ex_convert_fails (Some [("error", "boom")]))
      = Some (Returned [(song, None)], w_bad)
    ∧ files (w_fs w_ok) !! "/results.json"
      = files (w_fs w_bad) !! "/results.json"
    ∧ files (w_fs w_bad) !! "/results.json"
      = Some (mkFile 100 (ex_dumps (JArr [ex_json song]))).
Proof.
  eexists _, _. split; [vm_compute; reflexivity|].
  split; [vm_compute; reflexivity|]. vm_compute. auto.
Qed.

(** A run of the pool with one worker and two songs: once the first task
    holds the semaphore, the second cannot start; the call of the first
    can end, and then the second can start. *)
Lemma pool_bound_witness :
  ∃ p,
    run_actions (ex_env (ex_settings "skip") [] ex_convert) [Acquire 0]
      (init_pool 1 [ex_song "A" "uA"; ex_song "C" "uC"] (ex_fresh_world []))
    = Some p
    ∧ running p = 1
    ∧ pool_step (ex_env (ex_settings "skip") [] ex_convert) (Acquire 1) p
      = None
    ∧ ∃ p',
        pool_step (ex_env (ex_settings "skip") [] ex_convert) (Complete 0) p
        = Some p'
        ∧ running p' = 0
        ∧ is_Some (pool_step (ex_env (ex_settings "skip") [] ex_convert)
                     (Acquire 1) p').
Proof.
  eexists. split; [vm_compute; reflexivity|].
  edestruct (pool_bound (ex_env (ex_settings "skip") [] ex_convert) 1
               [ex_song "A" "uA"; ex_song "C" "uC"] (ex_fresh_world [])
               [Acquire 0])
    as (_ & Hfull & _ & _ & Hends & _); [vm_compute; reflexivity|].
  split; [reflexivity|]. split; [apply Hfull; reflexivity|].
  edestruct (Hends 0 (ex_song "A" "uA"))
    as (r & p' & Hstep & Hcall & _ & _ & Hless & Hfree);
    [reflexivity | reflexivity |].
  exists p'. split; [exact Hstep|].
  split; [injection Hless as ->; reflexivity|].
  vm_compute in Hcall. injection Hcall as <- _.
  edestruct Hfree as (_ & Hstart); [reflexivity|].
  edestruct (Hstart 1 (ex_song "C" "uC")) as (p'' & -> & _);
    [reflexivity | by eexists].
Defined.

(** Two more runs of the model.  With the policy [force] the duplicate is
    removed and the song is downloaded again; a [UnicodeEncodeError] is
    reported as a [DownloaderError] with a hint. *)
Example force_policy_run :
  ∃ s w',
    search_and_download (ex_env (ex_settings "force") [] ex_convert)
      (ex_song "Title" "u1")
      (ex_world [("/old/a.mp3", mkFile 3 "A")] "u1" ["/old/a.mp3"])
    = (Returned (s, Some "/music/Artist - Title.mp3"), w')
    ∧ files (w_fs w') !! "/old/a.mp3" = None
    ∧ known_paths w' "u1" = ["/old/a.mp3"; "/music/Artist - Title.mp3"].
Proof. eexists _, _. split; [vm_compute; reflexivity|]. vm_compute. auto. Qed.

Example unicode_error_entry :
  error_entry (ex_song "Title" "u1") (reported (Exn UnicodeEncodeError "ascii"))
  = "u1 - DownloaderError: You may need to add PYTHONIOENCODING=utf-8 to your environment".
Proof. reflexivity. Qed.

(** * Further properties of the downloader *)

(** ** [search] and [search_lyrics] *)
Section Providers.
Variable E : Env.

Lemma emit_run ev w :
  emit ev w
  = (Returned (),
     mkWorld (w_fs w) (w_heap w) (w_next w) (known_songs w) (errors w)
       (url_archive w) (trace w ++ [ev])).
Proof. reflexivity. Qed.

Lemma search_from_skips before rest song w :
  Forall (finds_no_audio song) before →
  ∃ w1, search_from E (before ++ rest) song w = search_from E rest song w1
        ∧ trace w1 = trace w ++ flat_map (failed_search E song) before
        ∧ same_but_trace w w1.
Proof.
  intros Hb. revert w. induction Hb as [|p before (o & Ho & Hf) _ IH]; intros w.
  - exists w. cbn. rewrite app_nil_r. by repeat split.
  - cbn [app search_from]. unfold bind at 1. rewrite emit_run.
    unfold bind at 1. unfold call at 1. rewrite Ho, Hf.
    unfold bind at 1. unfold debug. rewrite emit_run.
    edestruct IH as (w1 & Hrun & Htr & Hsame). exists w1.
    split; [exact Hrun|]. split; [|exact Hsame].
    rewrite Htr. cbn. by rewrite <- !app_assoc.
Qed.

(** X1.  [search] asks the audio providers in the order of the list and
    returns the first answer that is not empty: when the providers before
    [p] find nothing and [p] finds [u], the result is [u], the providers
    after [p] are not asked, and nothing but the trace changes. *)
Theorem search_first_match before p after song w u :
  audio_providers E = before ++ p :: after →
  Forall (finds_no_audio song) before →
  ap_search p song = Returned (Some u) → u ≠ "" →
  ∃ w', search E song w = (Returned u, w')
        ∧ trace w' = trace w ++ flat_map (failed_search E song) before
                     ++ [EvAudioSearch (ap_name p)]
        ∧ same_but_trace w w'.
Proof.
  intros Hps Hb Hp Hu. unfold search. rewrite Hps.
  destruct (search_from_skips before (p :: after) song w Hb)
    as (w1 & -> & Htr & Hsame).
  cbn [search_from]. unfold bind at 1. rewrite emit_run.
  unfold bind at 1. unfold call at 1. rewrite Hp.
  assert (Ht : as_truthy (Some u) = Some u).
  { unfold as_truthy, str_truthy. destruct (String.eqb_spec u ""); done. }
  rewrite Ht. eexists. split; [reflexivity|]. cbn.
  split; [by rewrite Htr, <- app_assoc | exact Hsame].
Qed.

(** X2.  When no audio provider finds the song, and also when there is no
    provider at all, [search] raises a [LookupError] that names the song,
    after having asked every provider once, in order. *)
Theorem search_no_match song w :
  Forall (finds_no_audio song) (audio_providers E) →
  ∃ w', search E song w
        = (Raised (Exn LookupError
                     ("No results found for song: " +:+ display_name E song)),
           w')
        ∧ trace w' = trace w
                     ++ flat_map (failed_search E song) (audio_providers E)
        ∧ same_but_trace w w'.
Proof.
  intros Hb. unfold search.
  destruct (search_from_skips (audio_providers E) [] song w Hb)
    as (w1 & Hrun & Htr & Hsame).
  rewrite app_nil_r in Hrun. rewrite Hrun. cbn. eauto.
Qed.

Lemma search_lyrics_from_skips before rest song w :
  Forall (finds_no_lyrics song) before →
  ∃ w1, search_lyrics_from E (before ++ rest) song w
        = search_lyrics_from E rest song w1
        ∧ trace w1 = trace w ++ flat_map (failed_lyrics E song) before
        ∧ same_but_trace w w1.
Proof.
  intros Hb. revert w. induction Hb as [|p before (o & Ho & Hf) _ IH]; intros w.
  - exists w. cbn. rewrite app_nil_r. by repeat split.
  - cbn [app search_lyrics_from]. unfold bind at 1. rewrite emit_run.
    unfold bind at 1. unfold call at 1. rewrite Ho, Hf.
    unfold bind at 1. unfold debug. rewrite emit_run.
    edestruct IH as (w1 & Hrun & Htr & Hsame). exists w1.
    split; [exact Hrun|]. split; [|exact Hsame].
    rewrite Htr. cbn. by rewrite <- !app_assoc.
Qed.

(** X3.  [search_lyrics] returns the first lyrics that are not empty, in
    the order of the providers, and does not ask the providers that come
    after. *)
Theorem search_lyrics_first_match before p after song w l :
  lyrics_providers E = before ++ p :: after →
  Forall (finds_no_lyrics song) before →
  get_lyrics p (song_name song) (song_artists song) = Returned (Some l) →
  l ≠ "" →
  ∃ w', search_lyrics E song w = (Returned (Some l), w')
        ∧ trace w' = trace w ++ flat_map (failed_lyrics E song) before
                     ++ [EvGetLyrics (lp_name p);
                         EvDebug ("Found lyrics for " +:+ display_name E song
                                  +:+ " on " +:+ lp_name p)]
        ∧ same_but_trace w w'.
Proof.
  intros Hps Hb Hp Hl. unfold search_lyrics. rewrite Hps.
  destruct (search_lyrics_from_skips before (p :: after) song w Hb)
    as (w1 & -> & Htr & Hsame).
  cbn [search_lyrics_from]. unfold bind at 1. rewrite emit_run.
  unfold bind at 1. unfold call at 1. rewrite Hp.
  assert (Ht : as_truthy (Some l) = Some l).
  { unfold as_truthy, str_truthy. destruct (String.eqb_spec l ""); done. }
  rewrite Ht. unfold bind, debug. rewrite emit_run.
  eexists. split; [reflexivity|]. cbn.
  split; [by rewrite Htr, <- !app_assoc | exact Hsame].
Qed.

(** X4.  Lyrics that no provider has are no error: when every provider
    answers with nothing, and also when there is no provider,
    [search_lyrics] returns [None]. *)
Theorem search_lyrics_no_match song w :
  Forall (finds_no_lyrics song) (lyrics_providers E) →
  ∃ w', search_lyrics E song w = (Returned None, w')
        ∧ trace w' = trace w
                     ++ flat_map (failed_lyrics E song) (lyrics_providers E)
        ∧ same_but_trace w w'.
Proof.
  intros Hb. unfold search_lyrics.
  destruct (search_lyrics_from_skips (lyrics_providers E) [] song w Hb)
    as (w1 & Hrun & Htr & Hsame).
  rewrite app_nil_r in Hrun. rewrite Hrun. cbn. eauto.
Qed.

End Providers.

(** ** The [try] block: source, fetch, conversion *)

#[local] Instance same_song_preorder : PreOrder same_song.
Proof. split; unfold same_song; [done | intros a b c; congruence]. Qed.

Lemma up_same_song {A} (m : M A) : respects same_song (up m).
Proof.
  intros [s w] r [s' w']. unfold up. simpl.
  destruct (m w); intros [= _ <- _]. done.
Qed.

Ltac song_tac :=
  first [ apply up_same_song
        | let sw := fresh in let r := fresh in let sw' := fresh in
          intros sw r sw'; unfold get_song, same_song;
          intros [= _ <-]; reflexivity ].

Lemma bind_get_song {B} (k : Song → P B) sw :
  bind get_song k sw = k sw.1 sw.
Proof. reflexivity. Qed.

Lemma bind_ret {S A B} (a : A) (k : A → ST S B) s : bind (ret a) k s = k a s.
Proof. reflexivity. Qed.

Lemma bind_up_emit {B} ev (k : unit → P B) s w :
  bind (up (emit ev)) k (s, w)
  = k () (s, mkWorld (w_fs w) (w_heap w) (w_next w) (known_songs w)
               (errors w) (url_archive w) (trace w ++ [ev])).
Proof. reflexivity. Qed.

Lemma bind_cases {S A B} (m : ST S A) (k : A → ST S B) s r s' :
  bind m k s = (r, s') →
  (∃ a s1, m s = (Returned a, s1) ∧ k a s1 = (r, s'))
  ∨ (∃ e, m s = (Raised e, s') ∧ r = Raised e).
Proof.
  unfold bind. destruct (m s) as [[a|e] s1]; [eauto|].
  intros [= <- <-]. eauto.
Qed.

Section Guarded.
Variable E : Env.

(** X5.  A song that has its download URL already is not searched again:
    no audio provider is asked, the fetch is made from that URL, and the
    song is left as it is. *)
Theorem cached_source_is_used c s w u r sw' :
  song_download_url s = Some u →
  download_and_convert E c (s, w) = (r, sw') →
  sw'.1 = s
  ∧ (∀ cv, r = Returned cv → cv_url cv = u)
  ∧ ∃ evs,
      trace sw'.2
      = trace w
        ++ EvDebug ("Downloading " +:+ display_name E s +:+ " using " +:+ u)
        :: EvFetch u :: evs
      ∧ forallb no_audio_search evs = true.
Proof.
  intros Hu H. unfold download_and_convert in H.
  rewrite bind_get_song in H. cbn [fst] in H. rewrite Hu in H.
  rewrite bind_ret in H. unfold debug in H.
  rewrite !bind_up_emit in H.
  match type of H with
  | ?m _ = _ =>
      assert (Hsong : respects same_song m)
        by (unfold choose_bitrate; respects_with song_tac);
      assert (Htrace : respects (on_world (trace_grows no_audio_search)) m)
        by (unfold choose_bitrate; respects_with grows_tac)
  end.
  pose proof (Hsong _ _ _ H) as Hs.
  destruct (Htrace _ _ _ H) as (evs & Hevs & Hq).
  unfold same_song in Hs. cbn in Hs, Hevs.
  split; [exact Hs|]. split.
  - intros cv ->.
    apply bind_returned in H as ([info|] & sw1 & _ & H); [|done].
    cbv zeta in H.
    apply bind_returned in H as (? & ? & _ & H).
    apply bind_returned in H as (? & ? & _ & H).
    apply bind_returned in H as (? & ? & _ & H).
    apply bind_returned in H as ([? ?] & ? & _ & H).
    by injection H as <- _.
  - exists evs. split; [|exact Hq].
    rewrite Hevs, <- !app_assoc. reflexivity.
Qed.

Lemma remove_temp_ok temp s w :
  temp ∉ denied (w_fs w) →
  ∃ w', remove_temp temp (s, w) = (Returned (), (s, w'))
        ∧ w_fs w' = without_file temp (w_fs w)
        ∧ known_songs w' = known_songs w ∧ w_heap w' = w_heap w.
Proof.
  intros Hd. unfold remove_temp, bind, up, path_exists, read_fs, fs_exists.
  cbn [fst snd].
  destruct (files (w_fs w) !! temp) eqn:Ht; cbn [when].
  - unfold try_except, up, unlink, bind, emit, with_fs, fs_unlink.
    cbn [fst snd w_fs]. rewrite Ht. rewrite decide_False by done.
    eexists. split; [reflexivity|]. done.
  - unfold ret. eexists. split; [reflexivity|]. split; [|done].
    unfold without_file. rewrite delete_id by done. by destruct (w_fs w).
Qed.

Lemma frame_run song0 w c s1 w1 x s2 w2 :
  preamble E song0 (song0, w) = (Returned (Proceed c), (s1, w1)) →
  guarded E c (s1, w1) = (Returned x, (s2, w2)) →
  search_and_download E song0 w = (Returned (s2, x), w2)
  ∧ errors w2 = errors w.
Proof.
  intros Hpre Hg.
  pose proof (preamble_same_errors E song0 _ _ _ Hpre) as H1.
  pose proof (guarded_same_errors E c _ _ _ Hg) as H2.
  unfold on_world, same_errors in H1, H2. simpl in H1, H2.
  split; [|congruence].
  unfold search_and_download, search_and_download_frame, bind.
  rewrite Hpre. unfold try_except. rewrite Hg. reflexivity.
Qed.

(** X6.  A download that goes through.  When the conversion has not failed
    with a diagnostic, the temporary file can be removed, SponsorBlock is
    off and the embedder accepts the output file, the song is returned
    with the output path; it carries the address it was fetched from (the
    one it had, or else the one that was found); the temporary file is
    gone; no error is recorded; the last word is the log of the
    download. *)
Theorem successful_download song0 w c s1 w1 cv s2 w2 fs3 :
  preamble E song0 (song0, w) = (Returned (Proceed c), (s1, w1)) →
  download_and_convert E c (s1, w1) = (Returned cv, (s2, w2)) →
  negb (cv_success cv) && result_truthy (cv_result cv) = false →
  cv_temp cv ∉ denied (w_fs w2) →
  sponsor_block (settings E) = false →
  embed_metadata E (output_file c) (with_source cv s2)
    (without_file (cv_temp cv) (w_fs w2)) = (Returned (), fs3) →
  ∃ w3,
    search_and_download E song0 w
    = (Returned (with_source cv s2, Some (output_file c)), w3)
    ∧ w_fs w3 = fs3
    ∧ errors w3 = errors w
    ∧ last (trace w3)
      = Some (EvLog ("Downloaded " +:+ dquote
                     +:+ display_name E (with_source cv s2) +:+ dquote
                     +:+ ": "
                     +:+ default "None"
                           (song_download_url (with_source cv s2)))).
Proof.
  intros Hpre Hdc Hok Htemp Hsb Hembed.
  destruct (remove_temp_ok (cv_temp cv) s2 w2 Htemp) as (wa & Hrt & Hfsa & _).
  assert (Hg : ∃ w3,
    guarded E c (s1, w1)
    = (Returned (Some (output_file c)), (with_source cv s2, w3))
    ∧ w_fs w3 = fs3
    ∧ last (trace w3)
      = Some (EvLog ("Downloaded " +:+ dquote
                     +:+ display_name E (with_source cv s2) +:+ dquote
                     +:+ ": "
                     +:+ default "None"
                           (song_download_url (with_source cv s2))))).
  { unfold guarded. erewrite bind_run by exact Hdc. unfold post_convert.
    erewrite bind_run by exact Hrt. rewrite Hok, Hsb.
    rewrite <- Hfsa in Hembed. unfold with_source in *.
    unfold bind, up, get_song, when, assign_song, emit, try_except, with_fs,
      register_known, bind, known_get_default, list_append, log, emit, ret.
    cbn [fst snd w_fs].
    destruct (song_download_url s2) eqn:Hd; cbn [fst snd w_fs];
      rewrite Hembed; cbn [fst snd w_fs known_songs];
      destruct (known_songs wa !! _); cbn [fst snd];
      eexists; (split; [reflexivity|]); cbn [w_fs trace];
      (split; [reflexivity|]); by rewrite last_snoc. }
  destruct Hg as (w3 & Hg & Hfs & Hlast).
  destruct (frame_run _ _ _ _ _ _ _ _ Hpre Hg) as [Hrun Herr].
  exists w3. done.
Qed.

(** X7.  A temporary file that is there and cannot be removed fails the
    song, whatever the transcoder answered: the song is returned with no
    path, the one new entry of the error list is the [DownloaderError]
    about the temporary file, and the files are left as they were after
    the conversion (no report is written, the output file is not
    removed). *)
Theorem temp_file_cannot_be_removed song0 w c s1 w1 cv s2 w2 f :
  preamble E song0 (song0, w) = (Returned (Proceed c), (s1, w1)) →
  download_and_convert E c (s1, w1) = (Returned cv, (s2, w2)) →
  files (w_fs w2) !! cv_temp cv = Some f →
  cv_temp cv ∈ denied (w_fs w2) →
  ∃ w3,
    search_and_download E song0 w = (Returned (s2, None), w3)
    ∧ errors w3
      = errors w
        ++ [song_url s2 +:+ " - DownloaderError: Could not remove temp file: "
            +:+ cv_temp cv +:+ ", possible duplicate song"]
    ∧ w_fs w3 = w_fs w2.
Proof.
  intros Hpre Hdc Hf Hden.
  assert (Hg : ∃ wa,
    guarded E c (s1, w1)
    = (Raised (Exn DownloaderError
                 ("Could not remove temp file: " +:+ cv_temp cv
                  +:+ ", possible duplicate song")), (s2, wa))
    ∧ w_fs wa = w_fs w2).
  { unfold guarded. erewrite bind_run by exact Hdc. unfold post_convert.
    erewrite bind_raised; [eexists; split; [reflexivity|]|].
    2:{ unfold remove_temp, bind, up, path_exists, read_fs, fs_exists.
        cbn [fst snd]. rewrite Hf. cbn [when].
        unfold try_except, up, unlink, bind, emit, with_fs, fs_unlink, debug,
          emit, raise.
        cbn [fst snd w_fs]. rewrite Hf. rewrite decide_True by done.
        cbn. reflexivity. }
    reflexivity. }
  destruct Hg as (wa & Hg & Hfs).
  rewrite (boundary_run E _ _ _ _ _ _ _ _ Hpre Hg).
  eexists. split; [reflexivity|]. cbn. split; [reflexivity | exact Hfs].
Qed.

Lemma source_step s w :
  (match song_download_url s with
   | None => up (search E s)
   | Some u => ret u
   end) (s, w)
  = up (audio_source E s) (s, w).
Proof. unfold audio_source. by destruct (song_download_url s). Qed.

(** X8.  When the fetch hands back no download information, the song
    fails with a [TypeError]: the temporary path is computed from the
    information before the test that would raise the [DownloaderError]
    about yt-dlp, so that error is never the one recorded. *)
Theorem missing_download_info song0 w c s1 w1 u w1' fs' :
  preamble E song0 (song0, w) = (Returned (Proceed c), (s1, w1)) →
  audio_source E s1 w1 = (Returned u, w1') →
  get_download_metadata E u (w_fs w1') = (Returned None, fs') →
  ∃ w3,
    search_and_download E song0 w = (Returned (s1, None), w3)
    ∧ errors w3
      = errors w
        ++ [song_url s1 +:+ " - TypeError: 'NoneType' object is not subscriptable"]
    ∧ w_fs w3 = fs'.
Proof.
  intros Hpre Hsrc Hinfo.
  assert (Hg : ∃ wa,
    guarded E c (s1, w1)
    = (Raised (Exn TypeError "'NoneType' object is not subscriptable"),
       (s1, wa))
    ∧ w_fs wa = fs').
  { unfold guarded, download_and_convert.
    erewrite bind_raised; [eexists; split; [reflexivity|]|].
    2:{ rewrite bind_get_song. cbn [fst].
        unfold bind at 1. rewrite source_step. unfold up at 1. cbn [fst snd].
        rewrite Hsrc. unfold debug. rewrite !bind_up_emit.
        unfold bind, up, with_fs, raise. cbn [fst snd w_fs].
        rewrite Hinfo. reflexivity. }
    reflexivity. }
  destruct Hg as (wa & Hg & Hfs).
  rewrite (boundary_run E _ _ _ _ _ _ _ _ Hpre Hg).
  eexists. split; [reflexivity|]. cbn. split; [reflexivity | exact Hfs].
Qed.

(** X9.  When the embedder raises, whatever it raises, the song fails with
    a [MetadataError]; it is returned with no path, it keeps the address
    it was fetched from, and the files are left as the embedder left them:
    the converted output is not removed. *)
Theorem embedding_failure song0 w c s1 w1 cv s2 w2 e fs3 :
  preamble E song0 (song0, w) = (Returned (Proceed c), (s1, w1)) →
  download_and_convert E c (s1, w1) = (Returned cv, (s2, w2)) →
  negb (cv_success cv) && result_truthy (cv_result cv) = false →
  cv_temp cv ∉ denied (w_fs w2) →
  sponsor_block (settings E) = false →
  embed_metadata E (output_file c) (with_source cv s2)
    (without_file (cv_temp cv) (w_fs w2)) = (Raised e, fs3) →
  ∃ w3,
    search_and_download E song0 w = (Returned (with_source cv s2, None), w3)
    ∧ errors w3
      = errors w
        ++ [song_url s2
            +:+ " - MetadataError: Failed to embed metadata to the song"]
    ∧ w_fs w3 = fs3.
Proof.
  intros Hpre Hdc Hok Htemp Hsb Hembed.
  destruct (remove_temp_ok (cv_temp cv) s2 w2 Htemp) as (wa & Hrt & Hfsa & _).
  assert (Hg : ∃ wb,
    guarded E c (s1, w1)
    = (Raised (Exn MetadataError "Failed to embed metadata to the song"),
       (with_source cv s2, wb))
    ∧ w_fs wb = fs3).
  { unfold guarded. erewrite bind_run by exact Hdc. unfold post_convert.
    erewrite bind_run by exact Hrt. rewrite Hok, Hsb.
    rewrite <- Hfsa in Hembed. unfold with_source in *.
    unfold bind, up, get_song, when, assign_song, emit, try_except, with_fs,
      raise, ret.
    cbn [fst snd w_fs].
    destruct (song_download_url s2) eqn:Hd; cbn [fst snd w_fs];
      rewrite Hembed; cbn [fst snd w_fs];
      eexists; (split; [reflexivity|]); reflexivity. }
  destruct Hg as (wb & Hg & Hfs).
  rewrite (boundary_run E _ _ _ _ _ _ _ _ Hpre Hg).
  eexists. split; [reflexivity|]. cbn. split; [|exact Hfs].
  unfold error_entry, reported, with_source. cbn.
  by destruct (song_download_url s2).
Qed.

Lemma sponsor_none info0 s w info fsb :
  sponsorblock_run E info0 (w_fs w) = (Returned info, fsb) →
  di_chapters info = [] →
  ∃ w', remove_sponsor_segments E info0 (s, w) = (Returned (), (s, w'))
        ∧ w_fs w' = fsb.
Proof.
  intros Hsp Hch. unfold remove_sponsor_segments.
  rewrite bind_get_song, bind_up_emit.
  unfold bind at 1, up at 1, with_fs. cbn [fst snd w_fs]. rewrite Hsp.
  cbv zeta. rewrite Hch. cbn. eexists. split; reflexivity.
Qed.


(** X28.  SponsorBlock that finds no segment.  With [sponsor_block] set,
    when SponsorBlock returns no chapter, the download goes through as
    without it: [ModifyChapters] does not come in, the embedder works on
    the files as SponsorBlock left them, the song is returned with the
    output path and no error is recorded. *)
Theorem sponsor_block_without_segments song0 w c s1 w1 cv s2 w2 info fsb fs3 :
  preamble E song0 (song0, w) = (Returned (Proceed c), (s1, w1)) →
  download_and_convert E c (s1, w1) = (Returned cv, (s2, w2)) →
  negb (cv_success cv) && result_truthy (cv_result cv) = false →
  cv_temp cv ∉ denied (w_fs w2) →
  sponsor_block (settings E) = true →
  sponsorblock_run E (set_filepath (cv_info cv) (output_file c))
    (without_file (cv_temp cv) (w_fs w2)) = (Returned info, fsb) →
  di_chapters info = [] →
  embed_metadata E (output_file c) (with_source cv s2) fsb
  = (Returned (), fs3) →
  ∃ w3,
    search_and_download E song0 w
    = (Returned (with_source cv s2, Some (output_file c)), w3)
    ∧ w_fs w3 = fs3
    ∧ errors w3 = errors w.
Proof.
  intros Hpre Hdc Hok Htemp Hsb Hsp Hch Hembed.
  destruct (remove_temp_ok (cv_temp cv) s2 w2 Htemp)
    as (wa & Hrt & Hfsa & _).
  rewrite <- Hfsa in Hsp.
  assert (Hg : ∃ w3,
    guarded E c (s1, w1)
    = (Returned (Some (output_file c)), (with_source cv s2, w3))
    ∧ w_fs w3 = fs3).
  { unfold guarded. erewrite bind_run by exact Hdc. unfold post_convert.
    erewrite bind_run by exact Hrt. rewrite Hok, Hsb. cbv zeta.
    rewrite bind_get_song. cbn [fst].
    assert (Hstep : ∀ {B} (k : unit → P B),
      bind (when (match song_download_url s2 with
                  | None => true | Some _ => false end)
              (assign_song (λ song, set_download_url song (cv_url cv))))
        k (s2, wa)
      = k () (with_source cv s2, wa)).
    { intros B k. unfold with_source.
      by destruct (song_download_url s2). }
    rewrite Hstep. rewrite bind_get_song. cbn [fst].
    rewrite bind_up_emit. cbn [when].
    edestruct (sponsor_none (set_filepath (cv_info cv) (output_file c))
                 (with_source cv s2)
                 (mkWorld (w_fs wa) (w_heap wa) (w_next wa) (known_songs wa)
                    (errors wa) (url_archive wa)
                    (trace wa
                     ++ [EvNotifyConversionComplete
                           (song_url (with_source cv s2))])) info fsb)
      as (wb & Hrs & Hfsb); [exact Hsp | exact Hch |].
    erewrite bind_run by exact Hrs.
    rewrite <- Hfsb in Hembed.
    unfold bind, up, emit, try_except, with_fs,
      register_known, bind, known_get_default, list_append, log, emit, ret.
    cbn [fst snd w_fs]. rewrite Hembed. cbn [fst snd w_fs known_songs].
    destruct (known_songs wb !! _); cbn [fst snd];
      eexists; (split; [reflexivity|]); reflexivity. }
  destruct Hg as (w3 & Hg & Hfs).
  destruct (frame_run _ _ _ _ _ _ _ _ Hpre Hg) as [Hrun Herr].
  exists w3. done.
Qed.


End Guarded.

(** ** The overwrite policies [force] and the fresh download *)
Section Overwrite.
Variable E : Env.

(** A removal that is refused is logged and passed over. *)
Lemma remove_duplicate_any p s w :
  ∃ w', remove_duplicate p (s, w) = (Returned (), (s, w'))
        ∧ files (w_fs w')
          = (if bool_decide (p ∈ denied (w_fs w)) then files (w_fs w)
             else delete p (files (w_fs w)))
        ∧ denied (w_fs w') = denied (w_fs w).
Proof.
  unfold remove_duplicate, try_except, bind, up, log, unlink,
    bind, emit, with_fs, fs_unlink, debug, emit. cbn [fst snd w_fs].
  destruct (files (w_fs w) !! p) eqn:Hp.
  - destruct (decide (p ∈ denied (w_fs w))) as [Hd|Hd].
    + rewrite bool_decide_eq_true_2 by done. cbn.
      eexists. split; [reflexivity|]. done.
    + rewrite bool_decide_eq_false_2 by done. cbn.
      eexists. split; [reflexivity|]. done.
  - cbn. eexists. split; [reflexivity|]. cbn.
    rewrite delete_id by done. by destruct (bool_decide _).
Qed.

Lemma remove_all_run l s w :
  ∃ w', for_each l remove_duplicate (s, w) = (Returned (), (s, w'))
        ∧ denied (w_fs w') = denied (w_fs w)
        ∧ ∀ q, files (w_fs w') !! q
               = if bool_decide (q ∈ l ∧ q ∉ denied (w_fs w)) then None
                 else files (w_fs w) !! q.
Proof.
  revert w. induction l as [|p l IH]; intros w.
  - eexists. split; [reflexivity|]. split; [done|]. intros q.
    rewrite bool_decide_eq_false_2; [done|]. intros [Hq _]. inversion Hq.
  - cbn [for_each]. unfold bind at 1.
    destruct (remove_duplicate_any p s w) as (w1 & Hrun1 & Hf1 & Hd1).
    rewrite Hrun1. destruct (IH w1) as (w' & Hrun & Hden & Hfiles).
    exists w'. split; [exact Hrun|]. split; [congruence|]. intros q.
    rewrite Hfiles, Hf1, Hd1.
    destruct (decide (q = p)) as [->|Hqp].
    + destruct (decide (p ∈ denied (w_fs w))) as [Hpd|Hpd].
      * rewrite (bool_decide_eq_true_2 (p ∈ denied _)) by done.
        rewrite !bool_decide_eq_false_2 by (intros [_ ?]; done). done.
      * rewrite (bool_decide_eq_false_2 (p ∈ denied _)) by done.
        rewrite (bool_decide_eq_true_2 (p ∈ p :: l ∧ _))
          by (split; [left|]; done).
        rewrite lookup_delete_eq.
        destruct (bool_decide (p ∈ l ∧ p ∉ denied (w_fs w))); reflexivity.
    + rewrite (bool_decide_ext (q ∈ l ∧ q ∉ denied (w_fs w))
                 (q ∈ p :: l ∧ q ∉ denied (w_fs w))).
      2:{ split; intros [Hq ?]; split; auto; [by right|].
          apply elem_of_cons in Hq as [->|Hq]; done. }
      destruct (bool_decide (q ∈ p :: l ∧ _)); [done|].
      destruct (bool_decide (p ∈ denied (w_fs w))); [done|].
      by rewrite lookup_delete_ne.
Qed.

Lemma mkdir_run p w :
  p ∉ denied (w_fs w) →
  mkdir p w
  = (Returned (),
     mkWorld (w_fs w) (w_heap w) (w_next w) (known_songs w) (errors w)
       (url_archive w) (trace w ++ [EvMkdir p])).
Proof.
  intros Hd. unfold mkdir, bind, emit, with_fs, fs_mkdir. cbn.
  rewrite decide_False by done. by destruct (w_fs w).
Qed.

Lemma bind_up_mkdir {B} p (k : unit → P B) s w :
  p ∉ denied (w_fs w) →
  bind (up (mkdir p)) k (s, w)
  = k () (s, mkWorld (w_fs w) (w_heap w) (w_next w) (known_songs w)
               (errors w) (url_archive w) (trace w ++ [EvMkdir p])).
Proof.
  intros Hd. unfold bind, up. cbn [fst snd]. by rewrite (mkdir_run _ _ Hd).
Qed.

(** X10.  With the policy [force] the pipeline goes on to the download:
    every duplicate candidate whose removal is not refused is removed
    first, a refused removal is passed over without an error, and no other
    file is touched (the output file, when it exists, is left for the
    transcoder to write over). *)
Theorem force_policy song0 w c s1 w1 :
  overwrite (settings E) = "force" →
  prologue E song0 (song0, w) = (Returned c, (s1, w1)) →
  parent E (output_file c) ∉ denied (w_fs w) →
  ∃ w2,
    preamble E song0 (song0, w) = (Returned (Proceed c), (s1, w2))
    ∧ denied (w_fs w2) = denied (w_fs w)
    ∧ ∀ q, files (w_fs w2) !! q
           = if bool_decide (q ∈ dup_song_paths c ∧ q ∉ denied (w_fs w))
             then None
             else files (w_fs w) !! q.
Proof.
  intros Hpol Hpro Hpar.
  destruct (prologue_ctx E _ _ _ _ _ Hpro) as [_ Hfs].
  unfold preamble.
  erewrite bind_run by exact Hpro. cbv beta.
  rewrite bind_get_song. cbn [fst].
  erewrite bind_run by apply exists_or_dups_run. cbv beta.
  rewrite Hpol. change (String.eqb "force" "skip") with false.
  rewrite andb_false_r.
  erewrite bind_run by apply exists_or_dups_run. cbv beta.
  change (String.eqb "force" "force") with true. rewrite andb_true_r.
  destruct (fs_exists (output_file c) (w_fs w1)
            || nonempty (dup_song_paths c)) eqn:Hpresent; cbn [when].
  - unfold force_overwrite. unfold bind at 1. rewrite bind_get_song.
    cbv beta. unfold log. rewrite bind_up_emit.
    match goal with
    | |- context [for_each _ remove_duplicate (s1, ?wx)] =>
        destruct (remove_all_run (dup_song_paths c) s1 wx)
          as (wa & Hloop & Hd & Hf)
    end.
    rewrite Hloop.
    erewrite bind_run by apply exists_or_dups_run. cbv beta.
    change (String.eqb "force" "metadata") with false. rewrite andb_false_r.
    cbn [w_fs] in Hd, Hf. rewrite Hfs in Hd, Hf.
    rewrite bind_up_mkdir by (by rewrite Hd).
    eexists. split; [reflexivity|]. cbn [w_fs]. done.
  - rewrite bind_ret.
    erewrite bind_run by apply exists_or_dups_run. cbv beta.
    rewrite Hpresent. cbn [andb].
    rewrite bind_up_mkdir by (by rewrite Hfs).
    eexists. split; [reflexivity|]. cbn [w_fs]. rewrite Hfs.
    split; [done|]. intros q.
    apply orb_false_iff in Hpresent as [_ Hn].
    destruct (dup_song_paths c); [|done].
    rewrite bool_decide_eq_false_2; [done|]. intros [Hq _]. inversion Hq.
Qed.

(** X11.  The policy matters only when there is something to overwrite and
    the policy is one of the three: when neither the output file nor a
    duplicate candidate exists, or when the policy is none of [skip],
    [force] and [metadata], the pipeline goes on to the download, creating
    the directory of the output file and touching no file. *)
Theorem download_goes_ahead song0 w c s1 w1 :
  prologue E song0 (song0, w) = (Returned c, (s1, w1)) →
  (fs_exists (output_file c) (w_fs w) = false ∧ dup_song_paths c = [])
  ∨ (overwrite (settings E) ≠ "skip" ∧ overwrite (settings E) ≠ "force"
     ∧ overwrite (settings E) ≠ "metadata") →
  parent E (output_file c) ∉ denied (w_fs w) →
  preamble E song0 (song0, w)
  = (Returned (Proceed c),
     (s1, mkWorld (w_fs w) (w_heap w1) (w_next w1) (known_songs w1)
            (errors w1) (url_archive w1)
            (trace w1 ++ [EvMkdir (parent E (output_file c))]))).
Proof.
  intros Hpro Hcase Hpar.
  destruct (prologue_ctx E _ _ _ _ _ Hpro) as [_ Hfs].
  assert (Hconds : ∀ policy,
    In policy ["skip"; "force"; "metadata"] →
    (fs_exists (output_file c) (w_fs w1) || nonempty (dup_song_paths c))
    && String.eqb (overwrite (settings E)) policy = false).
  { intros policy Hin. destruct Hcase as [[Hex Hd] | (H1 & H2 & H3)].
    - by rewrite Hfs, Hex, Hd.
    - apply andb_false_iff. right. apply String.eqb_neq.
      cbn in Hin. intuition congruence. }
  unfold preamble.
  erewrite bind_run by exact Hpro. cbv beta.
  rewrite bind_get_song. cbn [fst].
  erewrite bind_run by apply exists_or_dups_run. cbv beta.
  rewrite (Hconds "skip") by (cbn; auto).
  erewrite bind_run by apply exists_or_dups_run. cbv beta.
  rewrite (Hconds "force") by (cbn; auto). cbn [when]. rewrite bind_ret.
  erewrite bind_run by apply exists_or_dups_run. cbv beta.
  rewrite (Hconds "metadata") by (cbn; auto).
  rewrite bind_up_mkdir by (by rewrite Hfs). by rewrite Hfs.
Qed.

End Overwrite.

(** ** One call and the error list *)
Section ErrorList.
Variable E : Env.

Lemma call_errors song w r w' :
  search_and_download E song w = (r, w') →
  errors w' = errors w
  ∨ ∃ s e, r = Returned (s, None)
           ∧ errors w' = errors w ++ [error_entry s e].
Proof.
  unfold search_and_download.
  destruct (search_and_download_frame E song (song, w)) as [x [s1 w1]] eqn:Hf.
  intros Hr.
  assert (Hw : w' = w1) by (destruct x; by injection Hr as _ <-).
  subst w'. unfold search_and_download_frame in Hf.
  apply bind_cases in Hf as [(flow & [sa wa] & Hpre & Hk) | (e & Hpre & ->)].
  - pose proof (preamble_same_errors E song _ _ _ Hpre) as H1.
    unfold on_world, same_errors in H1. cbn in H1.
    destruct flow as [x0 | c].
    + injection Hk as <- <- <-. left. exact H1.
    + unfold try_except in Hk.
      destruct (guarded E c (sa, wa)) as [[y|e] [sb wb]] eqn:Hg.
      * pose proof (guarded_same_errors E c _ _ _ Hg) as H2.
        unfold on_world, same_errors in H2. cbn in H2.
        injection Hk as <- <- <-. left. congruence.
      * pose proof (guarded_same_errors E c _ _ _ Hg) as H2.
        unfold on_world, same_errors in H2. cbn in H2.
        cbv beta iota in Hk. rewrite on_error_run in Hk.
        injection Hk as <- <- <-. right. cbn in Hr. injection Hr as <-.
        exists sb, (reported e). split; [done|]. cbn. congruence.
  - pose proof (preamble_same_errors E song _ _ _ Hpre) as H1.
    unfold on_world, same_errors in H1. cbn in H1. by left.
Qed.


(** X12.  A call of [search_and_download] adds at most one entry to the
    error list, and only when it returns the song with no path: a song
    that comes back with a path, and a call that raises, leave the list as
    it was. *)
Theorem at_most_one_error song w r w' :
  search_and_download E song w = (r, w') →
  errors w' = errors w
  ∨ ∃ s e, r = Returned (s, None)
           ∧ errors w' = errors w ++ [error_entry s e].
Proof. apply call_errors. Qed.

End ErrorList.

(** ** The batch: archive, errors, single song *)
Section BatchMore.
Variable E : Env.

Lemma archive_loop results w :
  ∃ w',
    for_each results
      (λ result, when (match result.2 with Some _ => true | None => false end)
                      (archive_add (song_url result.1))) w
    = (Returned (), w')
    ∧ url_archive w' = list_to_set (downloaded_urls results) ∪ url_archive w
    ∧ errors w' = errors w.
Proof.
  revert w. induction results as [|[s [p|]] results IH]; intros w.
  - eexists. split; [reflexivity|]. cbn. split; [set_solver | done].
  - cbn [for_each]. unfold bind at 1. cbn [snd fst when]. unfold archive_add at 1.
    destruct (IH (mkWorld (w_fs w) (w_heap w) (w_next w) (known_songs w)
                    (errors w) ({[song_url s]} ∪ url_archive w) (trace w)))
      as (w' & Hrun & Ha & He).
    exists w'. split; [exact Hrun|]. cbn in Ha, He |- *.
    split; [rewrite Ha; set_solver | done].
  - cbn [for_each]. unfold bind at 1. cbn [snd fst when]. unfold ret at 1.
    destruct (IH w) as (w' & Hrun & Ha & He).
    exists w'. split; [exact Hrun|]. done.
Qed.

Lemma print_errors_keeps b :
  respects (λ w w', url_archive w' = url_archive w ∧ errors w' = errors w)
    (when b (λ w, for_each (errors w) (λ error, emit (EvError error)) w)).
Proof.
  intros w r w'. destruct b; cbn [when]; [|by intros [= _ <-]].
  generalize (errors w) at 1. intros l. revert w.
  induction l as [|e l IH]; intros w; cbn [for_each].
  - by intros [= _ <-].
  - unfold bind at 1. rewrite emit_run. intros H. apply IH in H. exact H.
Qed.

Lemma with_fs_keeps {A} (op : FS → res A * FS) w r w' :
  with_fs op w = (r, w') →
  url_archive w' = url_archive w ∧ errors w' = errors w.
Proof. unfold with_fs. destruct (op (w_fs w)). by intros [= _ <-]. Qed.

Lemma emit_then_fs_keeps {A} ev (op : FS → res A * FS) w r w' :
  bind (emit ev) (λ _, with_fs op) w = (r, w') →
  url_archive w' = url_archive w ∧ errors w' = errors w.
Proof.
  unfold bind at 1. rewrite emit_run. intros H.
  apply with_fs_keeps in H. exact H.
Qed.

(** What the part after [gather] does to the archive and to the error
    list. *)
Lemma epilogue_archive results w r w' :
  epilogue E results w = (Returned r, w') →
  url_archive w'
  = (if opt_truthy (archive (settings E))
     then list_to_set (downloaded_urls results) else ∅) ∪ url_archive w
  ∧ errors w' = errors w.
Proof.
  unfold epilogue. intros H.
  apply bind_returned in H as ([] & w1 & H1 & H).
  apply print_errors_keeps in H1 as [Ha1 He1].
  apply bind_returned in H as ([] & w2 & H2 & H).
  apply bind_returned in H as ([] & w3 & H3 & H).
  apply bind_returned in H as ([] & w4 & H4 & H).
  injection H as _ <-.
  assert (H43 : url_archive w4 = url_archive w3 ∧ errors w4 = errors w3).
  { destruct (as_truthy (save_file (settings E))).
    - unfold write_text in H4. by apply emit_then_fs_keeps in H4.
    - by injection H4 as <-. }
  assert (H32 : url_archive w3 = url_archive w2 ∧ errors w3 = errors w2).
  { destruct (as_truthy (m3u (settings E))).
    - by apply emit_then_fs_keeps in H3.
    - by injection H3 as <-. }
  assert (H21 : url_archive w2
                = (if opt_truthy (archive (settings E))
                   then list_to_set (downloaded_urls results) else ∅)
                  ∪ url_archive w1
                ∧ errors w2 = errors w1).
  { unfold opt_truthy, as_truthy in *.
    destruct (archive (settings E)) as [path|]; [destruct (str_truthy path)|].
    - apply bind_returned in H2 as ([] & wa & Hloop & H2).
      destruct (archive_loop results w1) as (wa' & Hrun & Ha & He).
      rewrite Hrun in Hloop. injection Hloop as <-.
      unfold bind at 1 in H2. rewrite emit_run in H2.
      apply with_fs_keeps in H2. cbn in H2. destruct H2 as [-> ->]. done.
    - injection H2 as <-. split; [set_solver | done].
    - injection H2 as <-. split; [set_solver | done]. }
  destruct H43 as [-> ->], H32 as [-> ->], H21 as [-> ->].
  by rewrite Ha1, He1.
Qed.

(** X13.  When the batch returns, the archive holds what it held before
    and, if an archive file is in the settings, the URL of every result
    that carries a path; the URL of a song that came back with no path is
    not added, and without an archive file nothing is. *)
Theorem archive_after_batch acts songs w results w' :
  download_multiple_songs E acts songs w = Some (Returned results, w') →
  url_archive w'
  = (if opt_truthy (archive (settings E))
     then list_to_set (downloaded_urls results) else ∅) ∪ url_archive w.
Proof.
  unfold download_multiple_songs. cbv zeta.
  destruct (run_actions E acts _) as [p|] eqn:Hrun; [|done].
  destruct (run_actions_ok E _ _ _ _ _ _ (init_pool_ok E _ _ _) Hrun)
    as (_ & _ & Ha).
  destruct (gather p) as [[rs|e]|] eqn:Hg; [|done..].
  intros [= Hep]. pose proof (epilogue_returns _ _ _ _ _ Hep) as ->.
  apply epilogue_archive in Hep as [-> _]. by rewrite Ha.
Qed.

Lemma count_insert {A} (f : A → bool) (l : list A) i t t' :
  l !! i = Some t →
  length (List.filter f (<[i := t']> l)) + (if f t then 1 else 0)
  = length (List.filter f l) + (if f t' then 1 else 0).
Proof.
  revert i. induction l as [|x l IH]; intros i Hi; [done|].
  destruct i as [|i]; simpl in *.
  - injection Hi as ->. destruct (f t), (f t'); simpl; lia.
  - specialize (IH i Hi). destruct (f x); simpl; lia.
Qed.

(** In every pool that an execution reaches, the error list has grown by
    no more entries than there are tasks done with no path. *)
Lemma pool_errors (errors0 : list string) acts p p' :
  (∃ new, errors (pool_world p) = errors0 ++ new
          ∧ (length new ≤ length (List.filter no_path_task (tasks p)))%nat) →
  run_actions E acts p = Some p' →
  ∃ new, errors (pool_world p') = errors0 ++ new
         ∧ (length new ≤ length (List.filter no_path_task (tasks p')))%nat.
Proof.
  revert p. induction acts as [|act acts IH]; intros p Hinv Hrun.
  - by injection Hrun as <-.
  - cbn in Hrun. destruct (pool_step E act p) as [p1|] eqn:Hstep; [|done].
    apply (IH p1); [|done]. clear IH Hrun.
    destruct Hinv as (new & Hnew & Hlen).
    unfold pool_step in Hstep. destruct (failed p); [done|].
    destruct act as [i|i].
    + destruct (tasks p !! i) as [[s [| |r|e0]]|] eqn:Hi; try done.
      destruct (permits p); [done|]. injection Hstep as <-. cbn.
      exists new. split; [done|].
      pose proof (count_insert no_path_task (tasks p) i _ (s, Running) Hi) as Hc.
      cbn in Hc. lia.
    + destruct (tasks p !! i) as [[s [| |r|e0]]|] eqn:Hi; try done.
      destruct (search_and_download E s (pool_world p)) as [[r|e] w1] eqn:Hsd;
        injection Hstep as <-; cbn.
      * pose proof (count_insert no_path_task (tasks p) i _ (s, Done r) Hi)
          as Hc. cbn in Hc.
        destruct (call_errors E _ _ _ _ Hsd) as [He | (s' & e & [= ->] & He)].
        -- exists new. split; [congruence|].
           destruct r as [s' [q|]]; lia.
        -- exists (new ++ [error_entry s' e]).
           split; [by rewrite He, Hnew, app_assoc|].
           rewrite length_app. cbn in Hc |- *. lia.
      * pose proof (count_insert no_path_task (tasks p) i _ (s, Broken e) Hi)
          as Hc. cbn in Hc.
        destruct (call_errors E _ _ _ _ Hsd) as [He | (s' & e' & [=] & _)].
        exists new. split; [congruence | lia].
Qed.

Lemma no_path_results (l : list (Song * TaskState)) results :
  mapM task_result l = Some results →
  length (List.filter no_path_task l) = without_path results.
Proof.
  intros Hm. apply mapM_Some_1 in Hm. unfold without_path.
  induction Hm as [|[s st] r ts rs Ht _ IH]; [done|].
  unfold task_result in Ht. cbn in Ht. destruct st; try done.
  injection Ht as ->. cbn [List.filter]. unfold no_path_task at 1.
  cbn [snd]. destruct r as [s' [p|]]; cbn; rewrite <- ?IH; reflexivity.
Qed.

(** X14.  When the batch returns, the error list is the list of before
    followed by new entries, and there are no more new entries than
    results with no path: every result that carries a path has left no
    entry. *)
Theorem errors_after_batch acts songs w results w' :
  download_multiple_songs E acts songs w = Some (Returned results, w') →
  ∃ new, errors w' = errors w ++ new
         ∧ (length new ≤ without_path results)%nat.
Proof.
  unfold download_multiple_songs. cbv zeta.
  destruct (run_actions E acts _) as [p|] eqn:Hrun; [|done].
  assert (Hinv : ∃ new, errors (pool_world p) = errors w ++ new
            ∧ (length new ≤ length (List.filter no_path_task (tasks p)))%nat).
  { eapply pool_errors; [|exact Hrun]. exists []. cbn.
    rewrite app_nil_r. split; [done | lia]. }
  unfold gather. destruct (failed p); [done|].
  destruct (mapM task_result (tasks p)) as [rs|] eqn:Hm; [|done].
  intros [= Hep]. pose proof (epilogue_returns _ _ _ _ _ Hep) as ->.
  apply epilogue_archive in Hep as [_ ->].
  destruct Hinv as (new & Hnew & Hlen). exists new. split; [done|].
  by rewrite <- (no_path_results _ _ Hm).
Qed.

(** X15.  [download_song] on a song whose URL is in the archive, with an
    archive file in the settings, never returns a result: the batch of the
    one song schedules nothing and gives an empty list, and taking its
    first element raises an [IndexError] (unless the steps after the
    empty [gather] have raised before). *)
Theorem download_song_of_archived_song acts song w r w' :
  opt_truthy (archive (settings E)) = true →
  song_url song ∈ url_archive w →
  download_song E acts song w = Some (r, w') →
  acts = []
  ∧ ∃ e, r = Raised e
         ∧ (e = Exn (OtherException "IndexError") "list index out of range"
            ∨ ∃ wi wi', epilogue E [] wi = (Raised e, wi')).
Proof.
  intros Harch Hin.
  assert (Hs : scheduled E [song] (emit (EvSetSongCount 1) w).2 = []).
  { unfold scheduled. rewrite Harch. cbn.
    rewrite decide_False; [done|]. intros Hn. by apply Hn. }
  unfold download_song, download_multiple_songs. cbv zeta. rewrite Hs.
  destruct acts as [|a rest].
  - cbn [run_actions init_pool map gather failed tasks mapM pool_world].
    cbn. match goal with
         | |- context [epilogue E [] ?wx] =>
             destruct (epilogue E [] wx) as [[results|e] w1] eqn:Hep
         end.
    + pose proof (epilogue_returns _ _ _ _ _ Hep) as ->.
      intros [= <- _]. eauto.
    + intros [= <- _]. split; [done|]. exists e. split; [done|]. eauto.
  - cbn. by destruct a.
Qed.

(** The executions of a pool with one task. *)
Lemma single_task_run k song w acts p :
  run_actions E acts (mkPool k [(song, Waiting)] w None) = Some p →
  (acts = [] ∧ p = mkPool k [(song, Waiting)] w None)
  ∨ (acts = [Acquire 0]
     ∧ ∃ k', k = S k' ∧ p = mkPool k' [(song, Running)] w None)
  ∨ (acts = [Acquire 0; Complete 0]
     ∧ ∃ k' r w1,
         k = S k'
         ∧ search_and_download E song w = (r, w1)
         ∧ p = mkPool (S k')
                 [(song, match r with
                         | Returned x => Done x
                         | Raised e => Broken e
                         end)]
                 w1
                 (match r with Returned _ => None | Raised e => Some e end)).
Proof.
  intros Hp.
  destruct acts as [|a acts]; [left; by injection Hp as <-|]. right.
  cbn [run_actions] in Hp. unfold pool_step at 1 in Hp.
  cbn [failed tasks permits] in Hp.
  destruct a as [[|i]|[|i]]; try done.
  cbn [lookup list_lookup] in Hp.
  destruct k as [|k]; [done|]. cbn [insert list_insert] in Hp.
  destruct acts as [|a acts]; [left; injection Hp as <-; eauto|]. right.
  cbn [run_actions] in Hp. unfold pool_step at 1 in Hp.
  cbn [failed tasks permits pool_world] in Hp.
  destruct a as [[|i]|[|i]]; try done.
  cbn [lookup list_lookup] in Hp.
  destruct (search_and_download E song w) as [[x|e] wx] eqn:Hsd;
    cbn [insert list_insert] in Hp.
  - destruct acts as [|a acts].
    + injection Hp as <-. split; [done|]. by exists k, (Returned x), wx.
    + cbn [run_actions] in Hp. unfold pool_step at 1 in Hp. cbn in Hp.
      by destruct a as [[|i]|[|i]].
  - destruct acts as [|a acts].
    + injection Hp as <-. split; [done|]. by exists k, (Raised e), wx.
    + cbn [run_actions] in Hp. unfold pool_step at 1 in Hp. cbn in Hp.
      done.
Qed.

(** X16.  When [download_song] returns, the one task of its batch has
    been started and run to its end, the song was not in the archive if
    there is an archive, and what is returned is what the call of
    [search_and_download] on the song returned, made in the world of the
    call of [download_song] after the two counts of one song that the
    progress display is told; the steps after [gather] then returned. *)
Theorem download_song_result acts song w r w' :
  download_song E acts song w = Some (Returned r, w') →
  acts = [Acquire 0; Complete 0]
  ∧ (opt_truthy (archive (settings E)) = true →
     song_url song ∉ url_archive w)
  ∧ ∃ wa,
      search_and_download E song
        (emit (EvSetSongCount 1) (emit (EvSetSongCount 1) w).2).2
      = (Returned r, wa)
      ∧ epilogue E [r] wa = (Returned [r], w').
Proof.
  unfold download_song.
  destruct (download_multiple_songs E acts [song] _)
    as [[[results|e] w1]|] eqn:Hrun; [|done..].
  destruct results as [|r0 rest]; [done|]. intros [= -> ->].
  destruct (batch_pool E _ _ _ _ _ Hrun) as (p & Hp & Hfst & Hm & Hep).
  destruct (results_of_tasks _ _ Hm) as [Hlen _].
  assert (Hsched : scheduled E [song] (emit (EvSetSongCount 1) w).2 = [song]
                   ∧ (opt_truthy (archive (settings E)) = true →
                      song_url song ∉ url_archive w)).
  { assert (Hl : length (scheduled E [song] (emit (EvSetSongCount 1) w).2)
                 = S (length rest))
      by (rewrite <- Hfst, length_map, <- Hlen; reflexivity).
    unfold scheduled in *. destruct (opt_truthy (archive (settings E))).
    - cbn in Hl |- *. case_decide; [done | cbn in Hl; lia].
    - split; [done | discriminate]. }
  destruct Hsched as [Hs Harch]. rewrite Hs in Hp. cbn [length] in Hp.
  unfold init_pool in Hp. cbn [map] in Hp.
  apply single_task_run in Hp
    as [[_ ->] | [[_ (k' & _ & ->)] | [-> (k' & r1 & wa & _ & Hsd & ->)]]];
    [done | done |].
  destruct r1 as [x|e]; [|done]. cbn in Hm. injection Hm as -> <-.
  split; [done|]. split; [exact Harch|]. exists wa. done.
Qed.

Lemma print_loop l w :
  for_each l (λ error, emit (EvError error)) w
  = (Returned (),
     mkWorld (w_fs w) (w_heap w) (w_next w) (known_songs w) (errors w)
       (url_archive w) (trace w ++ map EvError l)).
Proof.
  revert w. induction l as [|e l IH]; intros w; cbn [for_each map].
  - unfold ret. rewrite app_nil_r. by destruct w.
  - unfold bind. rewrite emit_run, IH. cbn. by rewrite <- app_assoc.
Qed.

Lemma epilogue_trace results w r w' :
  print_errors (settings E) = true →
  epilogue E results w = (Returned r, w') →
  ∃ after, trace w' = trace w ++ map EvError (errors w) ++ after
           ∧ forallb no_error_event after = true.
Proof.
  intros Hp. unfold epilogue. rewrite Hp. cbn [when]. intros H.
  apply bind_returned in H as ([] & w1 & H1 & H).
  rewrite print_loop in H1. injection H1 as <-.
  match type of H with
  | ?m _ = _ =>
      assert (Hg : respects (trace_grows no_error_event) m)
  end.
  { repeat case_match; respects_with grows_tac. }
  destruct (Hg _ _ _ H) as (after & Ht & Hq). cbn in Ht.
  exists after. split; [|done]. by rewrite Ht, <- app_assoc.
Qed.

(** X30.  The error list is never emptied.  With [print_errors] set, when
    the batch returns, every entry of the error list has been handed to
    the progress handler once [gather] had returned, in the order of the
    list: the entries that were there before the batch, printed again,
    then the new ones; nothing that comes after is such a print. *)
Theorem errors_are_printed_again acts songs w results w' :
  print_errors (settings E) = true →
  download_multiple_songs E acts songs w = Some (Returned results, w') →
  ∃ new before after,
    errors w' = errors w ++ new
    ∧ trace w' = before ++ map EvError (errors w ++ new) ++ after
    ∧ forallb no_error_event after = true.
Proof.
  intros Hp. unfold download_multiple_songs. cbv zeta.
  destruct (run_actions E acts _) as [p|] eqn:Hrun; [|done].
  assert (Hinv : ∃ new, errors (pool_world p) = errors w ++ new
            ∧ (length new ≤ length (List.filter no_path_task (tasks p)))%nat).
  { eapply pool_errors; [|exact Hrun]. exists []. cbn.
    rewrite app_nil_r. split; [done | lia]. }
  destruct Hinv as (new & Hnew & _).
  unfold gather. destruct (failed p); [done|].
  destruct (mapM task_result (tasks p)) as [rs|] eqn:Hm; [|done].
  intros [= Hep].
  pose proof (epilogue_returns _ _ _ _ _ Hep) as ->.
  destruct (epilogue_trace _ _ _ _ Hp Hep) as (after & Ht & Hq).
  apply epilogue_archive in Hep as [_ He].
  exists new, (trace (pool_world p)), after.
  rewrite He, Ht, Hnew. done.
Qed.
End BatchMore.

(** ** The constructor *)
Section Init.
Variable H : Host.
Variable o : Options.

Lemma map_st_pure {S A B} (f : A → ST S B) (g : A → res B) xs s :
  (∀ x s1, f x s1 = (g x, s1)) →
  ∃ r, map_st f xs s = (r, s)
       ∧ ∀ ys, r = Returned ys → Forall2 (λ x y, g x = Returned y) xs ys.
Proof.
  intros Hf. induction xs as [|x xs IH]; cbn.
  - eexists. split; [reflexivity|]. intros ys [= <-]. constructor.
  - unfold bind at 1. rewrite Hf. destruct (g x) as [y|e] eqn:Hg.
    + unfold bind. destruct IH as (r & -> & Hr). destruct r as [ys|e].
      * eexists. split; [reflexivity|]. intros ? [= <-].
        constructor; [done | by apply Hr].
      * eexists. split; [reflexivity|]. discriminate.
    + eexists. split; [reflexivity|]. discriminate.
Qed.

Lemma lyrics_provider_of_pure name w :
  lyrics_provider_of H name w
  = (match dict_get name LYRICS_PROVIDERS with
     | None => Raised (Exn DownloaderError
                         ("Invalid lyrics provider: " +:+ name))
     | Some c => new_lyrics_provider H c
     end, w).
Proof. unfold lyrics_provider_of. by destruct (dict_get _ _). Qed.

Lemma audio_provider_of_pure name w :
  audio_provider_of H o name w
  = (match dict_get name AUDIO_PROVIDERS with
     | None => Raised (Exn DownloaderError
                         ("Invalid audio provider: " +:+ name))
     | Some c => new_audio_provider H c (format (opt_settings o))
                   (opt_cookie_file o) (opt_search_query o)
                   (opt_filter_results o)
     end, w).
Proof. unfold audio_provider_of. by destruct (dict_get _ _). Qed.

Lemma store_known_keeps l w :
  ∃ w', for_each l store_known w = (Returned (), w')
        ∧ w_fs w' = w_fs w ∧ errors w' = errors w
        ∧ url_archive w' = url_archive w ∧ trace w' = trace w.
Proof.
  revert w. induction l as [|kv l IH]; intros w; cbn.
  - by eexists.
  - unfold bind, store_known at 1.
    edestruct IH as (w' & -> & ? & ? & ? & ?). by exists w'.
Qed.

(** X17.  A downloader that [__init__] has built.  There is at least one
    audio provider; the providers, of lyrics and of audio, are the ones
    made by the classes registered under the names of the settings, one
    for each name and in the order of the names, so that no downloader is
    built from a name that is not registered; the executable is the one
    of the settings, or else the one that spotdl brings; the error list is
    empty, no file is touched, and the index of known files and the
    archive are empty unless the settings ask for a scan or name an
    archive file. *)
Theorem init_result fs b w :
  __init__ H o (blank fs) = (Returned b, w) →
  opt_audio_providers o ≠ []
  ∧ resolved_ffmpeg H o = Some (b_ffmpeg b)
  ∧ Forall2 (lyrics_made_for H) (opt_lyrics_providers o)
      (b_lyrics_providers b)
  ∧ Forall2 (audio_made_for H o) (opt_audio_providers o)
      (b_audio_providers b)
  ∧ w_fs w = fs
  ∧ errors w = []
  ∧ (opt_scan_for_songs o = false → known_songs w = ∅)
  ∧ (opt_truthy (archive (opt_settings o)) = false → url_archive w = ∅).
Proof.
  unfold __init__. intros Hrun.
  apply bind_returned in Hrun as ([] & w1 & H1 & Hrun).
  assert (opt_audio_providers o ≠ [] ∧ w1 = blank fs) as [Hne ->].
  { destruct (opt_audio_providers o); cbn in H1; [done|].
    by injection H1 as <-. }
  apply bind_returned in Hrun as (ffmpeg & w2 & H2 & Hrun).
  assert (resolved_ffmpeg H o = Some ffmpeg ∧ w2 = blank fs) as [Hff ->].
  { unfold resolved_ffmpeg.
    destruct (String.eqb (opt_ffmpeg o) "ffmpeg") eqn:Heq; cbn in H2.
    - apply String.eqb_eq in Heq.
      destruct (which_ffmpeg H); cbn in H2.
      + injection H2 as <- <-. by rewrite Heq.
      + destruct (spotdl_ffmpeg H); [|done]. by injection H2 as <- <-.
    - by injection H2 as <- <-. }
  apply bind_returned in Hrun as ([] & w3 & H3 & Hrun).
  unfold call in H3. injection H3 as _ <-.
  apply bind_returned in Hrun as ([] & w4 & H4 & Hrun).
  unfold call in H4. injection H4 as _ <-.
  apply bind_returned in Hrun as (level & w5 & H5 & Hrun).
  assert (w5 = blank fs) as ->.
  { destruct (dict_get _ _); [|done]. by injection H5 as _ <-. }
  apply bind_returned in Hrun as ([] & w6 & H6 & Hrun).
  unfold call in H6. injection H6 as _ <-.
  apply bind_returned in Hrun as ([] & w7 & H7 & Hrun).
  assert (w_fs w7 = fs ∧ errors w7 = [] ∧ url_archive w7 = ∅
          ∧ (opt_scan_for_songs o = false → known_songs w7 = ∅))
    as (Hfs7 & Herr7 & Harch7 & Hknown7).
  { destruct (opt_scan_for_songs o); cbn in H7.
    - destruct (gather_known_songs H _ _ fs) as [known|e]; [|done].
      match type of H7 with
      | for_each _ _ ?wx = _ =>
          destruct (store_known_keeps known wx) as (w' & Hw' & ? & ? & ? & _)
      end.
      rewrite Hw' in H7. injection H7 as <-. done.
    - by injection H7 as <-. }
  apply bind_returned in Hrun as (lps & w8 & H8 & Hrun).
  destruct (map_st_pure (lyrics_provider_of H) _ (opt_lyrics_providers o) w7
              lyrics_provider_of_pure) as (r8 & Hr8 & Hlps).
  rewrite Hr8 in H8. injection H8 as -> <-.
  apply bind_returned in Hrun as (aps & w9 & H9 & Hrun).
  destruct (map_st_pure (audio_provider_of H o) _ (opt_audio_providers o) w7
              audio_provider_of_pure) as (r9 & Hr9 & Haps).
  rewrite Hr9 in H9. injection H9 as -> <-.
  apply bind_returned in Hrun as ([] & w10 & H10 & Hrun).
  assert (w_fs w10 = fs ∧ errors w10 = []
          ∧ known_songs w10 = known_songs w7
          ∧ (opt_truthy (archive (opt_settings o)) = false
             → url_archive w10 = ∅)) as (Hfs10 & Herr10 & Hk10 & Harch10).
  { unfold as_truthy, opt_truthy in *.
    destruct (archive (opt_settings o)) as [file|].
    - destruct (str_truthy file).
      + apply bind_returned in H10 as (urls & wl & Hl & H10).
        injection Hl as _ <-. injection H10 as <-. done.
      + by injection H10 as <-.
    - by injection H10 as <-. }
  unfold bind, debug in Hrun. rewrite emit_run in Hrun.
  injection Hrun as <- <-. cbn.
  split; [done|]. split; [done|].
  split.
  { specialize (Hlps _ eq_refl).
    eapply Forall2_impl; [exact Hlps|]. intros name p Hp.
    unfold lyrics_made_for. cbv beta in Hp. revert Hp.
    destruct (dict_get name LYRICS_PROVIDERS); [eauto | discriminate]. }
  split.
  { specialize (Haps _ eq_refl).
    eapply Forall2_impl; [exact Haps|]. intros name p Hp.
    unfold audio_made_for. cbv beta in Hp. revert Hp.
    destruct (dict_get name AUDIO_PROVIDERS); [eauto | discriminate]. }
  split; [done|]. split; [done|]. split; [|done].
  intros Hs. rewrite Hk10. by apply Hknown7.
Qed.

End Init.

(** ** The song object: loading, and the getters *)
Section SongObjMore.
Import Py SongObj SongObjGetters.

(** X18.  [from_dump] reads the four keys [rawTrackMeta], [rawAlbumMeta],
    [youtubeLink] and [lyrics] and nothing else: two dumps that agree on
    them load alike, whatever they hold under [rawArtistMeta]. *)
Theorem from_dump_reads_four_keys (d d' : list (string * pyval)) :
  (∀ k, k ∈ dump_keys → assoc k d = assoc k d') →
  from_dump (PDict d) = from_dump (PDict d')
  ∧ SongGatherer.from_dump (PDict d) = SongGatherer.from_dump (PDict d').
Proof.
  intros Hk.
  assert (H1 : assoc "rawTrackMeta" d = assoc "rawTrackMeta" d')
    by (apply Hk; set_solver).
  assert (H2 : assoc "rawAlbumMeta" d = assoc "rawAlbumMeta" d')
    by (apply Hk; set_solver).
  assert (H3 : assoc "youtubeLink" d = assoc "youtubeLink" d')
    by (apply Hk; set_solver).
  assert (H4 : assoc "lyrics" d = assoc "lyrics" d')
    by (apply Hk; set_solver).
  unfold from_dump, SongGatherer.from_dump, getitem.
  by rewrite H1, H2, H3, H4.
Qed.

(** X19.  A dump that lacks one of the four keys does not load:
    [from_dump] raises a [KeyError] that names a key the dump lacks. *)
Theorem from_dump_missing_key (d : list (string * pyval)) k :
  k ∈ dump_keys → assoc k d = None →
  ∃ k', from_dump (PDict d) = Raised (Exn KeyError k')
        ∧ k' ∈ dump_keys ∧ assoc k' d = None.
Proof.
  intros Hk Hnone. unfold from_dump, getitem, dump_keys in *.
  destruct (assoc "rawTrackMeta" d) eqn:H1; cbn;
    [|exists "rawTrackMeta"; repeat split; [set_solver | done]].
  destruct (assoc "rawAlbumMeta" d) eqn:H2; cbn;
    [|exists "rawAlbumMeta"; repeat split; [set_solver | done]].
  destruct (assoc "youtubeLink" d) eqn:H3; cbn;
    [|exists "youtubeLink"; repeat split; [set_solver | done]].
  destruct (assoc "lyrics" d) eqn:H4; cbn;
    [|exists "lyrics"; repeat split; [set_solver | done]].
  exfalso.
  apply elem_of_cons in Hk as [->|Hk]; [congruence|].
  apply elem_of_cons in Hk as [->|Hk]; [congruence|].
  apply elem_of_cons in Hk as [->|Hk]; [congruence|].
  apply elem_of_cons in Hk as [->|Hk]; [congruence|].
  by apply elem_of_nil in Hk.
Qed.

(** X20.  A song object after one cycle of saving and loading.  What is
    read from the track metadata is as before: track and disc number,
    display name, album name, album artists, release date and cover.  The
    genres are not: the loaded object gives the genres of the album twice,
    and the genres of the artist are lost. *)
Theorem getters_after_reload (s : t) :
  ∃ s', reloaded s = Returned s'
      ∧ get_track_number s' = get_track_number s
      ∧ get_disc_number s' = get_disc_number s
      ∧ get_display_name s' = get_display_name s
      ∧ get_album_name s' = get_album_name s
      ∧ get_album_artists s' = get_album_artists s
      ∧ get_album_release s' = get_album_release s
      ∧ get_album_cover_url s' = get_album_cover_url s
      ∧ get_lyrics s' = get_lyrics s
      ∧ get_genres s'
        = res_bind (getitem (rawAlbumMeta s) "genres") (λ album_genres,
            add album_genres album_genres).
Proof.
  exists (mk (rawTrackMeta s) (rawAlbumMeta s) (rawAlbumMeta s)
            (youtubeLink s) (lyrics s)).
  split; [reflexivity|].
  unfold get_track_number, get_disc_number, get_display_name,
    get_contributing_artists, get_song_name, get_album_name,
    get_album_artists, get_album_release, get_album_cover_url, get_lyrics,
    get_genres.
  cbn [rawTrackMeta rawAlbumMeta rawArtistMeta youtubeLink lyrics].
  do 8 (split; [reflexivity|]).
  by destruct (getitem (rawAlbumMeta s) "genres").
Qed.

(** X21.  The first cycle of saving and loading may change the dump, a
    second one never does: the dump of a loaded object loads to the same
    object, and the dump of an object comes back as it was exactly when
    the artist metadata of the object is its album metadata. *)
Theorem reload_is_idempotent (s s' : t) :
  reloaded s = Returned s' →
  reloaded s' = Returned s'
  ∧ (get_data_dump s' = get_data_dump s ↔ rawArtistMeta s = rawAlbumMeta s).
Proof.
  intros [= <-]. split; [reflexivity|]. cbn. unfold get_data_dump. cbn.
  split; [intros [= ->]; reflexivity | intros ->; reflexivity].
Qed.

Lemma string_app_assoc (a b c : string) :
  (a +:+ b) +:+ c = a +:+ (b +:+ c).
Proof.
  induction a as [|x a IH]; [reflexivity|].
  change (String x ((a +:+ b) +:+ c) = String x (a +:+ (b +:+ c))).
  by rewrite IH.
Qed.

Lemma names_of_named (names : list string) :
  names_of (map named names) = Returned (map PStr names).
Proof.
  induction names as [|n names IH]; [done|]. cbn. by rewrite IH.
Qed.

Lemma join_from_strings i (names : list string) :
  join_from i (map PStr names) = Returned names.
Proof.
  revert i. induction names as [|n names IH]; intros i; [done|].
  cbn. by rewrite IH.
Qed.

(** X22.  The display name of a track whose metadata is well formed: the
    names of the artists, in the order of the metadata and separated by a
    comma and a space, then a dash, then the title.  With no artist the
    name starts with the dash. *)
Theorem display_name_of_track (s : t) (d : list (string * pyval))
    (title : string) (artists : list string) :
  rawTrackMeta s = PDict d →
  assoc "name" d = Some (PStr title) →
  assoc "artists" d = Some (PList (map named artists)) →
  get_display_name s = Returned (PStr (join ", " artists +:+ " - " +:+ title)).
Proof.
  intros Hd Hname Hartists.
  unfold get_display_name, get_contributing_artists, get_song_name, str_join.
  rewrite Hd. unfold getitem. rewrite Hname, Hartists. cbn.
  rewrite names_of_named. cbn. rewrite join_from_strings. cbn.
  f_equal. f_equal. apply string_app_assoc.
Qed.

End SongObjMore.

(** ** The gatherers *)
Section GathererFacts.
Import Py SongObj SongObjGetters Gatherer.
Context {S : Type}.
Variable G : Services S.

Lemma len_iterate v n l :
  len v = Returned n → iterate v = Returned l → length l = n.
Proof.
  destruct v; try done; cbn; intros [= <-] [= <-]; [|done|].
  - induction s as [|c s IH]; cbn; [done | by rewrite IH].
  - by rewrite length_map.
Qed.

Lemma songobj_never_returns spotifyURL s :
  ∃ e s', songobj_from_spotify_url G spotifyURL s = (Raised e, s').
Proof.
  unfold songobj_from_spotify_url, bind, say, call, raise.
  destruct (metadata_from_url G spotifyURL _) as [[meta|e] s1]; [|eauto].
  destruct (unpack3 meta) as [[[rawTrackMeta rawArtistMeta] rawAlbumMeta]|e];
    [|eauto].
  destruct (track_fields rawTrackMeta); eauto.
Qed.

Lemma add_track_raises prefix track tracks s :
  ∃ e s', add_track G prefix track tracks s = (Raised e, s').
Proof.
  unfold add_track, bind, call.
  destruct (getitem track "id") as [id|e]; [|eauto].
  destruct (concat_str prefix id) as [u|e]; [|eauto].
  destruct (songobj_never_returns u s) as (e & s' & ->). eauto.
Qed.

Lemma fold_add_track_returned prefix tracks acc s acc' s' :
  fold_st (add_track G prefix) tracks acc s = (Returned acc', s') →
  tracks = [] ∧ acc' = acc ∧ s' = s.
Proof.
  destruct tracks as [|track tracks]; [by intros [= <- <-]|].
  cbn [fold_st]. unfold bind.
  by destruct (add_track_raises prefix track acc s) as (e & s1 & ->).
Qed.

Lemma fold_add_track_raises prefix track tracks acc s :
  ∃ e s', fold_st (add_track G prefix) (track :: tracks) acc s
          = (Raised e, s').
Proof.
  cbn [fold_st]. unfold bind.
  destruct (add_track_raises prefix track acc s) as (e & s1 & ->). eauto.
Qed.

Lemma add_entry_returned songEntry playlistTracks s acc' s' :
  add_entry G songEntry playlistTracks s = (Returned acc', s') →
  acc' = playlistTracks.
Proof.
  unfold add_entry, bind, call.
  destruct (getitem songEntry "track") as [track|e]; [|done].
  destruct (is_none track); [by intros [= <- _]|].
  destruct (getitem track "id") as [id|e]; [|done].
  destruct (is_none id); [by intros [= <- _]|].
  destruct (concat_str _ id) as [u|e]; [|done].
  by destruct (songobj_never_returns u s) as (e & s1 & ->).
Qed.

Lemma fold_add_entry_returned entries acc s acc' s' :
  fold_st (add_entry G) entries acc s = (Returned acc', s') → acc' = acc.
Proof.
  revert acc s. induction entries as [|entry entries IH]; intros acc s.
  - by intros [= <- _].
  - cbn [fold_st]. intros H.
    apply bind_returned in H as (acc1 & s1 & H1 & H).
    apply add_entry_returned in H1 as ->. by eapply IH.
Qed.

Lemma album_rounds_returned rounds albumUrl page acc s tracks s' :
  album_rounds G rounds albumUrl page acc s = (Returned (Some tracks), s') →
  tracks = acc.
Proof.
  revert page s. induction rounds as [|rounds IH]; intros page s; [done|].
  cbn [album_rounds]. intros H.
  apply bind_returned in H as (items & ? & _ & H).
  apply bind_returned in H as (l & ? & _ & H).
  apply bind_returned in H as (acc1 & s1 & Hfold & H).
  apply fold_add_track_returned in Hfold as (_ & -> & _).
  apply bind_returned in H as (next & ? & _ & H).
  destruct (truthy next).
  - apply bind_returned in H as (page' & s2 & _ & H). by eapply IH.
  - by injection H as <- _.
Qed.

Lemma playlist_rounds_returned rounds playlistUrl page acc s tracks s' :
  playlist_rounds G rounds playlistUrl page acc s
  = (Returned (Some tracks), s') →
  tracks = acc.
Proof.
  revert page s. induction rounds as [|rounds IH]; intros page s; [done|].
  cbn [playlist_rounds]. intros H.
  apply bind_returned in H as (items & ? & _ & H).
  apply bind_returned in H as (l & ? & _ & H).
  apply bind_returned in H as (acc1 & s1 & Hfold & H).
  apply fold_add_entry_returned in Hfold as ->.
  apply bind_returned in H as (next & ? & _ & H).
  destruct (truthy next).
  - apply bind_returned in H as (offset & ? & _ & H).
    apply bind_returned in H as (limit & ? & _ & H).
    apply bind_returned in H as (offset' & ? & _ & H).
    apply bind_returned in H as (page' & s2 & _ & H). by eapply IH.
  - by injection H as <- _.
Qed.

Lemma from_search_term_raises query s :
  ∃ e s', from_search_term G query s = (Raised e, s').
Proof.
  unfold from_search_term, bind, call.
  destruct (spotify_search G query s) as [[result|e] s1]; [|eauto].
  destruct (getitem result "tracks") as [found|e]; [|eauto].
  destruct (getitem found "items") as [items|e]; [|eauto].
  destruct (len items) as [n|e] eqn:Hlen; [|eauto].
  destruct (n =? 0)%nat eqn:Hn; [unfold raise; eauto|].
  destruct (iterate items) as [[|songResult songResults]|e] eqn:Hiter;
    [|apply fold_add_track_raises|eauto].
  pose proof (len_iterate _ _ _ Hlen Hiter) as <-. done.
Qed.


(** X24.  A request that is free text (no Spotify address, and not the
    word [saved]) never makes [from_query] raise: whatever goes wrong in
    the search, also that nothing is found, is printed and the answer is
    the empty list. *)
Theorem free_text_query_never_raises rounds request s :
  contains "open.spotify.com" request = false →
  request ≠ "saved" →
  ∃ songObjList s',
    from_query G rounds request s = (Returned (Some songObjList), s')
    ∧ ∀ e s1,
        from_search_term G request
          (print G ("Searching Spotify for song named " +:+ dquote
                    +:+ request +:+ dquote +:+ "...") s)
        = (Raised e, s1) →
        songObjList = [] ∧ s' = print G (exn_msg e) s1.
Proof.
  intros Hurl Hsaved. unfold from_query. rewrite Hurl. cbn [andb].
  destruct (String.eqb request "saved") eqn:Heq;
    [by apply String.eqb_eq in Heq|].
  unfold bind at 1, say at 1. unfold bind at 1, try_except.
  destruct (from_search_term G request _) as [[tracks|e] s1].
  - eexists _, _. split; [reflexivity|]. discriminate.
  - cbn. eexists _, _. split; [reflexivity|]. by intros ? ? [= <- <-].
Qed.

(** X25.  [get_album_tracks] gives no song.  When it returns, the list is
    empty; and when the first page of the album holds a track, it raises
    at that track, the call of [songobj_from_spotify_url] on it never
    returning: no second page is asked. *)
Theorem album_gives_no_song rounds albumUrl s :
  (∀ tracks s',
     get_album_tracks G rounds albumUrl s = (Returned (Some tracks), s') →
     tracks = [])
  ∧ ∀ page s1 track tracks,
      album_tracks G albumUrl None s = (Returned page, s1) →
      items_of page = Returned (track :: tracks) →
      ∃ e s2,
        get_album_tracks G (Datatypes.S rounds) albumUrl s = (Raised e, s2)
        ∧ ∃ r, add_track G "https://open.spotify.com/track/" track [] s1
               = (r, s2).
Proof.
  split.
  - intros tracks s'. unfold get_album_tracks. intros H.
    apply bind_returned in H as (page & s1 & _ & H).
    by apply album_rounds_returned in H.
  - intros page s1 track tracks Hreq Hitems.
    unfold get_album_tracks, bind at 1. rewrite Hreq. cbn [album_rounds].
    unfold items_of in Hitems.
    destruct (getitem page "items") as [items|e] eqn:Hi; [|done].
    cbn in Hitems. unfold bind at 1, call at 1.
    unfold bind at 1, call at 1. rewrite Hitems.
    unfold bind at 1. cbn [fold_st]. unfold bind at 1.
    destruct (add_track_raises "https://open.spotify.com/track/" track [] s1)
      as (e & s2 & Hadd).
    rewrite Hadd. exists e, s2. split; [done|]. by eexists.
Qed.

(** X26.  What [from_query] can answer.  On the address of a track it
    raises.  On a free text (no Spotify address, and not the word
    [saved]) it answers the empty list, the search never returning.  And
    whatever the request, a list that it returns is empty, unless the
    request is the address of an artist or the word [saved], which go to
    the two gatherers that are left open here. *)
Theorem from_query_gives_no_song rounds request s :
  (contains "open.spotify.com" request && contains "track" request = true →
   ∃ e s', from_query G rounds request s = (Raised e, s'))
  ∧ (contains "open.spotify.com" request = false → request ≠ "saved" →
     ∃ s', from_query G rounds request s = (Returned (Some []), s'))
  ∧ ∀ songObjList s',
      from_query G rounds request s = (Returned (Some songObjList), s') →
      songObjList = []
      ∨ (contains "open.spotify.com" request = true
         ∧ contains "artist" request = true)
      ∨ request = "saved".
Proof.
  split; [|split].
  - intros Htrack. unfold from_query. rewrite Htrack.
    unfold bind at 1, say at 1. unfold bind.
    destruct (songobj_never_returns request
                (print G "Fetching Song..." s)) as (e & s1 & ->). eauto.
  - intros Hurl Hsaved. unfold from_query. rewrite Hurl. cbn [andb].
    destruct (String.eqb request "saved") eqn:Heq;
      [by apply String.eqb_eq in Heq|].
    unfold bind at 1, say at 1. unfold bind at 1, try_except.
    match goal with
    | |- context [from_search_term G request ?s0] =>
        destruct (from_search_term_raises request s0) as (e & s1 & ->)
    end.
    cbn. eauto.
  - intros songObjList s'. unfold from_query.
    destruct (contains "open.spotify.com" request) eqn:Hurl; cbn [andb].
    + destruct (contains "track" request).
      { unfold bind at 1, say at 1. unfold bind.
        by destruct (songobj_never_returns request
                       (print G "Fetching Song..." s)) as (e & s1 & ->). }
      destruct (contains "album" request).
      { unfold bind at 1, say at 1. unfold get_album_tracks. intros H.
        apply bind_returned in H as (page & s1 & _ & H).
        apply album_rounds_returned in H. by left. }
      destruct (contains "playlist" request).
      { unfold bind at 1, say at 1. unfold get_playlist_tracks. intros H.
        apply bind_returned in H as (page & s1 & _ & H).
        apply playlist_rounds_returned in H. by left. }
      destruct (contains "artist" request); [intros _; right; by left|].
      destruct (String.eqb request "saved") eqn:Heq.
      { apply String.eqb_eq in Heq. intros _. right. by right. }
      unfold bind at 1, say at 1. unfold bind at 1, try_except.
      match goal with
      | |- context [from_search_term G request ?s0] =>
          destruct (from_search_term_raises request s0) as (e & s1 & ->)
      end.
      cbn. intros [= <- _]. by left.
    + destruct (String.eqb request "saved") eqn:Heq.
      { apply String.eqb_eq in Heq. intros _. right. by right. }
      unfold bind at 1, say at 1. unfold bind at 1, try_except.
      match goal with
      | |- context [from_search_term G request ?s0] =>
          destruct (from_search_term_raises request s0) as (e & s1 & ->)
      end.
      cbn. intros [= <- _]. by left.
Qed.

(** X27.  The entries of a playlist that have no track, or a track with no
    identifier, are passed over: a page gives the same songs, and leaves
    the same state, with and without them. *)
Theorem playlist_entries_without_track entries playlistTracks s :
  fold_st (add_entry G) entries playlistTracks s
  = fold_st (add_entry G) (List.filter has_track entries) playlistTracks s.
Proof.
  revert playlistTracks s.
  induction entries as [|entry entries IH]; intros acc s; [done|].
  cbn [List.filter fold_st]. unfold has_track.
  destruct (getitem entry "track") as [track|e] eqn:Ht.
  - destruct (is_none track) eqn:Hnone.
    + cbn [negb andb]. unfold bind at 1, add_entry at 1.
      unfold bind at 1, call at 1. rewrite Ht, Hnone. apply IH.
    + cbn [negb andb].
      destruct (getitem track "id") as [id|e] eqn:Hid.
      * destruct (is_none id) eqn:Hidn; cbn [negb].
        -- unfold bind at 1, add_entry at 1.
           unfold bind at 1, call at 1. rewrite Ht, Hnone.
           unfold bind at 1, call at 1. rewrite Hid, Hidn. apply IH.
        -- cbn [fold_st]. unfold bind.
           destruct (add_entry G entry acc s) as [[acc'|e] s1]; [|done].
           apply IH.
      * cbn [fold_st]. unfold bind.
        destruct (add_entry G entry acc s) as [[acc'|e'] s1]; [|done].
        apply IH.
  - cbn [fold_st]. unfold bind.
    destruct (add_entry G entry acc s) as [[acc'|e'] s1]; [|done].
    apply IH.
Qed.

End GathererFacts.
Import MoreExamples.

(** Four audio providers, of which the third is the first to find the
    song. *)
Lemma search_first_match_witness :
  ∃ w',
    search (with_audio_providers
              [ex_audio_none; ex_audio_empty; ex_audio; ex_audio_none]
              (ex_plain "skip"))
      (ex_song "Title" "u1") (ex_fresh_world [])
    = (Returned "https://yt/u1", w')
    ∧ trace w'
      = [EvAudioSearch "YouTube Music";
         EvDebug "YouTube Music failed to find Artist - Title";
         EvAudioSearch "Piped";
         EvDebug "Piped failed to find Artist - Title";
         EvAudioSearch "YouTube"].
Proof.
  edestruct (search_first_match
               (with_audio_providers
                  [ex_audio_none; ex_audio_empty; ex_audio; ex_audio_none]
                  (ex_plain "skip"))
               [ex_audio_none; ex_audio_empty] ex_audio [ex_audio_none]
               (ex_song "Title" "u1") (ex_fresh_world []) "https://yt/u1")
    as (w' & Hrun & Htrace & _).
  - reflexivity.
  - repeat constructor; eexists; split; reflexivity.
  - reflexivity.
  - discriminate.
  - exists w'. split; [exact Hrun|]. rewrite Htrace. reflexivity.
Defined.

(** Two audio providers that find nothing. *)
Lemma search_no_match_witness :
  ∃ w',
    search (with_audio_providers [ex_audio_none; ex_audio_empty]
              (ex_plain "skip"))
      (ex_song "Title" "u1") (ex_fresh_world [])
    = (Raised (Exn LookupError "No results found for song: Artist - Title"),
       w')
    ∧ length (trace w') = 4%nat.
Proof.
  edestruct (search_no_match
               (with_audio_providers [ex_audio_none; ex_audio_empty]
                  (ex_plain "skip"))
               (ex_song "Title" "u1") (ex_fresh_world []))
    as (w' & Hrun & Htrace & _).
  - repeat constructor; eexists; split; reflexivity.
  - exists w'. split; [exact Hrun|]. rewrite Htrace. reflexivity.
Defined.

(** Four lyrics providers, of which the third is the first to have the
    text. *)
Lemma search_lyrics_first_match_witness :
  ∃ w',
    search_lyrics
      (ex_env (ex_settings "skip")
         [ex_lyrics_none; ex_lyrics_empty; ex_lyrics_found; ex_lyrics]
         ex_convert)
      (ex_song "Broken" "u1") (ex_fresh_world [])
    = (Returned (Some "la la la"), w')
    ∧ length (trace w') = 6%nat.
Proof.
  edestruct (search_lyrics_first_match
               (ex_env (ex_settings "skip")
                  [ex_lyrics_none; ex_lyrics_empty; ex_lyrics_found; ex_lyrics]
                  ex_convert)
               [ex_lyrics_none; ex_lyrics_empty] ex_lyrics_found [ex_lyrics]
               (ex_song "Broken" "u1") (ex_fresh_world []) "la la la")
    as (w' & Hrun & Htrace & _).
  - reflexivity.
  - repeat constructor; eexists; split; reflexivity.
  - reflexivity.
  - discriminate.
  - exists w'. split; [exact Hrun|]. rewrite Htrace. reflexivity.
Defined.

(** Two lyrics providers without the text. *)
Lemma search_lyrics_no_match_witness :
  ∃ w',
    search_lyrics
      (ex_env (ex_settings "skip") [ex_lyrics_none; ex_lyrics_empty]
         ex_convert)
      (ex_song "Title" "u1") (ex_fresh_world [])
    = (Returned None, w')
    ∧ length (trace w') = 4%nat.
Proof.
  edestruct (search_lyrics_no_match
               (ex_env (ex_settings "skip") [ex_lyrics_none; ex_lyrics_empty]
                  ex_convert)
               (ex_song "Title" "u1") (ex_fresh_world []))
    as (w' & Hrun & Htrace & _).
  - repeat constructor; eexists; split; reflexivity.
  - exists w'. split; [exact Hrun|]. rewrite Htrace. reflexivity.
Defined.

(** A song that carries its download URL, with audio providers that would
    find nothing. *)
Lemma cached_source_is_used_witness :
  ∃ r sw',
    download_and_convert
      (with_audio_providers [ex_audio_none] (ex_plain "skip"))
      (mkCtx "/music/Artist - Title.mp3" "/tmp/spotdl" [])
      (ex_resolved_song "Title" "u1", ex_fresh_world [])
    = (r, sw')
    ∧ sw'.1 = ex_resolved_song "Title" "u1"
    ∧ ∀ cv, r = Returned cv → cv_url cv = "https://yt/u1".
Proof.
  edestruct (cached_source_is_used
               (with_audio_providers [ex_audio_none] (ex_plain "skip"))
               (mkCtx "/music/Artist - Title.mp3" "/tmp/spotdl" [])
               (ex_resolved_song "Title" "u1") (ex_fresh_world [])
               "https://yt/u1")
    as (Hsong & Hurl & _).
  - reflexivity.
  - vm_compute. reflexivity.
  - eexists _, _. split; [vm_compute; reflexivity|].
    split; [exact Hsong | exact Hurl].
Defined.

(** A first download that goes through. *)
Lemma successful_download_witness :
  ∃ s w3,
    search_and_download (ex_plain "skip") (ex_song "Title" "u1")
      (ex_fresh_world [])
    = (Returned (s, Some "/music/Artist - Title.mp3"), w3)
    ∧ song_download_url s = Some "https://yt/u1"
    ∧ errors w3 = [].
Proof.
  edestruct (successful_download (ex_plain "skip") (ex_song "Title" "u1")
               (ex_fresh_world []))
    as (w3 & Hrun & _ & Herr & _).
  - vm_compute. reflexivity.
  - vm_compute. reflexivity.
  - reflexivity.
  - vm_compute. intros H. inversion H.
  - reflexivity.
  - vm_compute. reflexivity.
  - eexists _, w3. split; [exact Hrun|]. split; [reflexivity | exact Herr].
Defined.

(** A download whose temporary file cannot be removed. *)
Lemma temp_file_cannot_be_removed_witness :
  ∃ s w3,
    search_and_download (ex_plain "skip") (ex_song "Title" "u1")
      (ex_locked_world [] ["/tmp/spotdl/vid.webm"])
    = (Returned (s, None), w3)
    ∧ errors w3
      = ["u1 - DownloaderError: Could not remove temp file: /tmp/spotdl/vid.webm, possible duplicate song"]
    ∧ files (w_fs w3) !! "/music/Artist - Title.mp3"
      = Some (mkFile 100 "audio").
Proof.
  edestruct (temp_file_cannot_be_removed (ex_plain "skip")
               (ex_song "Title" "u1")
               (ex_locked_world [] ["/tmp/spotdl/vid.webm"]))
    as (w3 & Hrun & Herr & Hfs).
  - vm_compute. reflexivity.
  - vm_compute. reflexivity.
  - vm_compute. reflexivity.
  - vm_compute. reflexivity.
  - eexists _, w3. split; [exact Hrun|]. split; [exact Herr|].
    rewrite Hfs. vm_compute. reflexivity.
Defined.

(** A fetch that hands back nothing. *)
Lemma missing_download_info_witness :
  ∃ s w3,
    search_and_download (with_fetch ex_fetch_nothing (ex_plain "skip"))
      (ex_song "Title" "u1") (ex_fresh_world [])
    = (Returned (s, None), w3)
    ∧ errors w3
      = ["u1 - TypeError: 'NoneType' object is not subscriptable"].
Proof.
  edestruct (missing_download_info
               (with_fetch ex_fetch_nothing (ex_plain "skip"))
               (ex_song "Title" "u1") (ex_fresh_world []))
    as (w3 & Hrun & Herr & _).
  - vm_compute. reflexivity.
  - vm_compute. reflexivity.
  - vm_compute. reflexivity.
  - eexists _, w3. split; [exact Hrun | exact Herr].
Defined.

(** An embedder that fails: the converted file stays. *)
Lemma embedding_failure_witness :
  ∃ s w3,
    search_and_download (with_embedder ex_embed_fails (ex_plain "skip"))
      (ex_song "Title" "u1") (ex_fresh_world [])
    = (Returned (s, None), w3)
    ∧ errors w3
      = ["u1 - MetadataError: Failed to embed metadata to the song"]
    ∧ files (w_fs w3) !! "/music/Artist - Title.mp3"
      = Some (mkFile 100 "audio").
Proof.
  edestruct (embedding_failure (with_embedder ex_embed_fails (ex_plain "skip"))
               (ex_song "Title" "u1") (ex_fresh_world []))
    as (w3 & Hrun & Herr & Hfs).
  - vm_compute. reflexivity.
  - vm_compute. reflexivity.
  - reflexivity.
  - vm_compute. intros H. inversion H.
  - reflexivity.
  - vm_compute. reflexivity.
  - eexists _, w3. split; [exact Hrun|]. split; [exact Herr|].
    rewrite Hfs. vm_compute. reflexivity.
Defined.

(** SponsorBlock is on and finds nothing. *)
Lemma sponsor_block_without_segments_witness :
  ∃ s w3,
    search_and_download (ex_env ex_sponsor_settings [] ex_convert)
      (ex_song "Title" "u1") (ex_fresh_world [])
    = (Returned (s, Some "/music/Artist - Title.mp3"), w3)
    ∧ errors w3 = [].
Proof.
  edestruct (sponsor_block_without_segments
               (ex_env ex_sponsor_settings [] ex_convert)
               (ex_song "Title" "u1") (ex_fresh_world []))
    as (w3 & Hrun & _ & Herr).
  - vm_compute. reflexivity.
  - vm_compute. reflexivity.
  - reflexivity.
  - vm_compute. intros H. inversion H.
  - reflexivity.
  - vm_compute. reflexivity.
  - reflexivity.
  - vm_compute. reflexivity.
  - eexists _, w3. split; [exact Hrun | exact Herr].
Defined.


(** The policy [force] with two duplicates, of which one cannot be
    removed. *)
Lemma force_policy_witness :
  ∃ c s1 w2,
    preamble (ex_plain "force") (ex_song "Title" "u1")
      (ex_song "Title" "u1",
       mkWorld (mkFS (list_to_map [("/old/a.mp3", mkFile 3 "A");
                                   ("/old/b.mp3", mkFile 7 "B")])
                  {[ "/old/b.mp3" ]} 100)
         {[ 0%nat := ["/old/a.mp3"; "/old/b.mp3"] ]} 1 {[ "u1" := 0%nat ]}
         [] ∅ [])
    = (Returned (Proceed c), (s1, w2))
    ∧ files (w_fs w2) !! "/old/a.mp3" = None
    ∧ files (w_fs w2) !! "/old/b.mp3" = Some (mkFile 7 "B").
Proof.
  edestruct (force_policy (ex_plain "force") (ex_song "Title" "u1")
               (mkWorld (mkFS (list_to_map [("/old/a.mp3", mkFile 3 "A");
                                            ("/old/b.mp3", mkFile 7 "B")])
                           {[ "/old/b.mp3" ]} 100)
                  {[ 0%nat := ["/old/a.mp3"; "/old/b.mp3"] ]} 1
                  {[ "u1" := 0%nat ]} [] ∅ []))
    as (w2 & Hrun & _ & Hfiles).
  - reflexivity.
  - vm_compute. reflexivity.
  - vm_compute. intros H. inversion H.
  - eexists _, _, w2. split; [exact Hrun|].
    rewrite !Hfiles. split; vm_compute; reflexivity.
Defined.

(** A policy that is none of the three, with the output file in place. *)
Lemma download_goes_ahead_witness :
  ∃ c sw,
    preamble (ex_plain "ask") (ex_song "Title" "u1")
      (ex_song "Title" "u1",
       ex_fresh_world [("/music/Artist - Title.mp3", mkFile 5 "old")])
    = (Returned (Proceed c), sw)
    ∧ w_fs sw.2
      = w_fs (ex_fresh_world [("/music/Artist - Title.mp3", mkFile 5 "old")]).
Proof.
  eexists _, _.
  erewrite (download_goes_ahead (ex_plain "ask") (ex_song "Title" "u1")
              (ex_fresh_world [("/music/Artist - Title.mp3", mkFile 5 "old")])).
  - split; reflexivity.
  - vm_compute. reflexivity.
  - right. repeat split; discriminate.
  - vm_compute. intros H. inversion H.
Defined.

(** A call that fails in the transcoder. *)
Lemma at_most_one_error_witness :
  ∃ r w',
    search_and_download
      (ex_env (ex_settings "skip") []
         (ex_convert_fails (Some [("error", "boom")])))
      (ex_song "Title" "u1") (ex_fresh_world [])
    = (r, w')
    ∧ (errors w' = [] ∨ ∃ entry, errors w' = [entry]).
Proof.
  edestruct (at_most_one_error
               (ex_env (ex_settings "skip") []
                  (ex_convert_fails (Some [("error", "boom")])))
               (ex_song "Title" "u1") (ex_fresh_world []))
    as [Herr | (s & e & _ & Herr)].
  - vm_compute. reflexivity.
  - eexists _, _. split; [vm_compute; reflexivity|]. left. exact Herr.
  - eexists _, _. split; [vm_compute; reflexivity|]. right.
    eexists. exact Herr.
Defined.

(** A batch with an archive: of two songs one is transcoded and one is
    not. *)
Lemma archive_after_batch_witness :
  ∃ results w',
    download_multiple_songs
      (with_fetch
         (λ url fs, if String.eqb url "https://yt/uA"
                    then ex_fetch url fs else ex_fetch_nothing url fs)
         (ex_env (ex_batch_settings (Some "/archive.txt") None) [] ex_convert))
      [Acquire 0; Acquire 1; Complete 0; Complete 1]
      [ex_song "A" "uA"; ex_song "C" "uC"] (ex_archived_world ["u0"])
    = Some (Returned results, w')
    ∧ url_archive w' = {[ "uA"; "u0" ]}.
Proof.
  eexists _, _.
  split; [vm_compute; reflexivity|].
  erewrite (archive_after_batch
              (with_fetch
                 (λ url fs, if String.eqb url "https://yt/uA"
                            then ex_fetch url fs else ex_fetch_nothing url fs)
                 (ex_env (ex_batch_settings (Some "/archive.txt") None) []
                    ex_convert))
              [Acquire 0; Acquire 1; Complete 0; Complete 1]
              [ex_song "A" "uA"; ex_song "C" "uC"] (ex_archived_world ["u0"]));
    [|vm_compute; reflexivity].
  cbn. set_solver.
Defined.

(** The same batch: one result has no path, and one entry is added to the
    error list. *)
Lemma errors_after_batch_witness :
  ∃ results w',
    download_multiple_songs
      (with_fetch
         (λ url fs, if String.eqb url "https://yt/uA"
                    then ex_fetch url fs else ex_fetch_nothing url fs)
         (ex_env (ex_batch_settings None None) [] ex_convert))
      [Acquire 0; Acquire 1; Complete 0; Complete 1]
      [ex_song "A" "uA"; ex_song "C" "uC"] (ex_fresh_world [])
    = Some (Returned results, w')
    ∧ (length (errors w') ≤ 1)%nat.
Proof.
  eexists _, _.
  split; [vm_compute; reflexivity|].
  edestruct (errors_after_batch
               (with_fetch
                  (λ url fs, if String.eqb url "https://yt/uA"
                             then ex_fetch url fs else ex_fetch_nothing url fs)
                  (ex_env (ex_batch_settings None None) [] ex_convert))
               [Acquire 0; Acquire 1; Complete 0; Complete 1]
               [ex_song "A" "uA"; ex_song "C" "uC"] (ex_fresh_world []))
    as (new & Herr & Hlen); [vm_compute; reflexivity|].
  vm_compute in Hlen. vm_compute. lia.
Defined.

(** [download_song] on a song of the archive. *)
Lemma download_song_of_archived_song_witness :
  ∃ r w',
    download_song
      (ex_env (ex_batch_settings (Some "/archive.txt") None) [] ex_convert)
      [] (ex_song "A" "uA") (ex_archived_world ["uA"])
    = Some (r, w')
    ∧ ∃ e, r = Raised e.
Proof.
  eexists _, _.
  edestruct (download_song_of_archived_song
               (ex_env (ex_batch_settings (Some "/archive.txt") None) []
                  ex_convert)
               [] (ex_song "A" "uA") (ex_archived_world ["uA"]))
    as (_ & e & He & _).
  - reflexivity.
  - vm_compute. reflexivity.
  - vm_compute. reflexivity.
  - split; [reflexivity|]. exists e. exact He.
Defined.

(** [download_song] on a song that is downloaded. *)
Lemma download_song_result_witness :
  ∃ r w' wa,
    download_song (ex_plain "skip") [Acquire 0; Complete 0]
      (ex_song "A" "uA") (ex_fresh_world [])
    = Some (Returned r, w')
    ∧ search_and_download (ex_plain "skip") (ex_song "A" "uA")
        (emit (EvSetSongCount 1)
           (emit (EvSetSongCount 1) (ex_fresh_world [])).2).2
      = (Returned r, wa)
    ∧ epilogue (ex_plain "skip") [r] wa = (Returned [r], w').
Proof.
  edestruct (download_song_result (ex_plain "skip") [Acquire 0; Complete 0]
               (ex_song "A" "uA") (ex_fresh_world []))
    as (_ & _ & wa & Hsd & Hep); [vm_compute; reflexivity|].
  eexists _, _, wa. split; [vm_compute; reflexivity|].
  split; [exact Hsd | exact Hep].
Defined.

(** The constructor on a host without [ffmpeg] on the path, with a scan
    and an archive. *)
Lemma init_result_witness :
  ∃ b w,
    __init__ ex_host ex_options (blank (ex_fs [])) = (Returned b, w)
    ∧ resolved_ffmpeg ex_host ex_options = Some (b_ffmpeg b)
    ∧ Forall2 (audio_made_for ex_host ex_options)
        ["youtube-music"; "youtube"] (b_audio_providers b)
    ∧ errors w = [].
Proof.
  edestruct (init_result ex_host ex_options (ex_fs []))
    as (_ & Hff & _ & Haudio & _ & Herr & _).
  - vm_compute. reflexivity.
  - eexists _, _. split; [vm_compute; reflexivity|].
    split; [exact Hff|]. split; [exact Haudio | exact Herr].
Defined.

(** A dump with artist metadata and the same dump without. *)
Lemma from_dump_reads_four_keys_witness :
  SongObj.from_dump
    (Py.PDict (("rawArtistMeta", Py.PDict [("genres", Py.PList [])])
               :: ex_dump))
  = SongObj.from_dump (Py.PDict ex_dump).
Proof.
  apply (from_dump_reads_four_keys
           (("rawArtistMeta", Py.PDict [("genres", Py.PList [])]) :: ex_dump)
           ex_dump).
  intros k Hk. unfold SongObjGetters.dump_keys in Hk.
  repeat (apply elem_of_cons in Hk as [->|Hk]; [reflexivity|]).
  by apply elem_of_nil in Hk.
Defined.

(** A dump without lyrics. *)
Lemma from_dump_missing_key_witness :
  ∃ k, SongObj.from_dump
         (Py.PDict [("youtubeLink", Py.PNone); ("rawTrackMeta", ex_track "t1");
                    ("rawAlbumMeta", Py.PDict [])])
       = Raised (Exn KeyError k).
Proof.
  edestruct (from_dump_missing_key
               [("youtubeLink", Py.PNone); ("rawTrackMeta", ex_track "t1");
                ("rawAlbumMeta", Py.PDict [])] "lyrics")
    as (k & Hrun & _).
  - unfold SongObjGetters.dump_keys. set_solver.
  - reflexivity.
  - exists k. exact Hrun.
Defined.

(** A song object whose artist metadata is not its album metadata. *)
Lemma reload_is_idempotent_witness :
  ∃ s',
    SongObjGetters.reloaded (ex_songobj "t1" Py.PNone) = Returned s'
    ∧ SongObjGetters.reloaded s' = Returned s'
    ∧ SongObj.get_data_dump s'
      ≠ SongObj.get_data_dump (ex_songobj "t1" Py.PNone).
Proof.
  edestruct (reload_is_idempotent (ex_songobj "t1" Py.PNone))
    as [Hagain Hsame].
  - reflexivity.
  - eexists. split; [reflexivity|]. split; [exact Hagain|].
    intros Heq. apply Hsame in Heq. discriminate Heq.
Defined.

(** The display name of a track of two artists. *)
Lemma display_name_of_track_witness :
  SongObjGetters.get_display_name (ex_songobj "t1" Py.PNone)
  = Returned (Py.PStr "First, Second - Song t1").
Proof.
  eapply (display_name_of_track (ex_songobj "t1" Py.PNone) _ "Song t1"
            ["First"; "Second"]); reflexivity.
Defined.


(** A free text for which the search finds nothing. *)
Lemma free_text_query_never_raises_witness :
  ∃ s',
    Gatherer.from_query
      (ex_services (Returned (Py.PDict [("tracks", ex_page [] Py.PNone)]))
         (ex_page [] Py.PNone))
      3 "some song" []
    = (Returned (Some []), s')
    ∧ last s' = Some "No song matches found on Spotify".
Proof.
  edestruct (free_text_query_never_raises
               (ex_services
                  (Returned (Py.PDict [("tracks", ex_page [] Py.PNone)]))
                  (ex_page [] Py.PNone))
               3 "some song" [])
    as (l & s' & Hrun & Hfail).
  - reflexivity.
  - discriminate.
  - edestruct Hfail as [-> Hs']; [vm_compute; reflexivity|].
    exists s'. split; [exact Hrun|]. rewrite Hs'. reflexivity.
Defined.

(** An album whose first page holds two tracks and announces a next
    page: the first track raises.  An album whose one page is empty. *)
Lemma album_gives_no_song_witness :
  (∃ e s',
     Gatherer.get_album_tracks
       (ex_services (Raised (Exn (OtherException "Exception") "no search"))
          (ex_page ["t1"; "t2"] (Py.PStr "https://next")))
       1 "https://open.spotify.com/album/a" []
     = (Raised e, s'))
  ∧ ∃ tracks s',
      Gatherer.get_album_tracks
        (ex_services (Raised (Exn (OtherException "Exception") "no search"))
           (ex_page [] Py.PNone))
        1 "https://open.spotify.com/album/a" []
      = (Returned (Some tracks), s')
      ∧ tracks = [].
Proof.
  split.
  - edestruct (album_gives_no_song
                 (ex_services
                    (Raised (Exn (OtherException "Exception") "no search"))
                    (ex_page ["t1"; "t2"] (Py.PStr "https://next")))
                 0 "https://open.spotify.com/album/a" [])
      as [_ Hraise].
    edestruct Hraise as (e & s2 & Hrun & _);
      [vm_compute; reflexivity | vm_compute; reflexivity |].
    exists e, s2. exact Hrun.
  - edestruct (album_gives_no_song
                 (ex_services
                    (Raised (Exn (OtherException "Exception") "no search"))
                    (ex_page [] Py.PNone))
                 1 "https://open.spotify.com/album/a" [])
      as [Hempty _].
    eexists _, _. split; [vm_compute; reflexivity|].
    eapply Hempty. vm_compute. reflexivity.
Defined.

(** The address of a track; a free text for which the search finds a
    track; the address of a playlist with no entry. *)
Lemma from_query_gives_no_song_witness :
  (∃ e s',
     Gatherer.from_query
       (ex_services
          (Returned (Py.PDict [("tracks", ex_page ["t1"] Py.PNone)]))
          (ex_page [] Py.PNone))
       3 "https://open.spotify.com/track/t1" []
     = (Raised e, s'))
  ∧ (∃ s',
       Gatherer.from_query
         (ex_services
            (Returned (Py.PDict [("tracks", ex_page ["t1"] Py.PNone)]))
            (ex_page [] Py.PNone))
         3 "some song" []
       = (Returned (Some []), s'))
  ∧ ∃ songObjList s',
      Gatherer.from_query
        (ex_services
           (Returned (Py.PDict [("tracks", ex_page ["t1"] Py.PNone)]))
           (ex_page [] Py.PNone))
        3 "https://open.spotify.com/playlist/p" []
      = (Returned (Some songObjList), s')
      ∧ songObjList = [].
Proof.
  split; [|split].
  - edestruct (from_query_gives_no_song
                 (ex_services
                    (Returned (Py.PDict [("tracks", ex_page ["t1"] Py.PNone)]))
                    (ex_page [] Py.PNone))
                 3 "https://open.spotify.com/track/t1" [])
      as (Htrack & _ & _).
    apply Htrack. reflexivity.
  - edestruct (from_query_gives_no_song
                 (ex_services
                    (Returned (Py.PDict [("tracks", ex_page ["t1"] Py.PNone)]))
                    (ex_page [] Py.PNone))
                 3 "some song" [])
      as (_ & Htext & _).
    apply Htext; [reflexivity | discriminate].
  - edestruct (from_query_gives_no_song
                 (ex_services
                    (Returned (Py.PDict [("tracks", ex_page ["t1"] Py.PNone)]))
                    (ex_page [] Py.PNone))
                 3 "https://open.spotify.com/playlist/p" [])
      as (_ & _ & Hany).
    eexists _, _. split; [vm_compute; reflexivity|].
    edestruct Hany as [Hnil | [[_ Hartist] | Hsaved]];
      [vm_compute; reflexivity | exact Hnil | discriminate Hartist
      | discriminate Hsaved].
Defined.

(** A batch that prints the errors, after a batch that has left one. *)
Lemma errors_are_printed_again_witness :
  ∃ results w',
    download_multiple_songs
      (with_fetch ex_fetch_nothing
         (ex_env ex_printing_settings [] ex_convert))
      [Acquire 0; Complete 0] [ex_song "A" "uA"]
      (ex_world_with_errors ["u0 - LookupError: earlier"])
    = Some (Returned results, w')
    ∧ ∃ new before after,
        errors w' = ["u0 - LookupError: earlier"] ++ new
        ∧ trace w'
          = before ++ map EvError (["u0 - LookupError: earlier"] ++ new)
            ++ after.
Proof.
  eexists _, _. split; [vm_compute; reflexivity|].
  edestruct (errors_are_printed_again
               (with_fetch ex_fetch_nothing
                  (ex_env ex_printing_settings [] ex_convert))
               [Acquire 0; Complete 0] [ex_song "A" "uA"]
               (ex_world_with_errors ["u0 - LookupError: earlier"]))
    as (new & before & after & Herr & Htrace & _).
  - reflexivity.
  - vm_compute. reflexivity.
  - exists new, before, after. split; [exact Herr | exact Htrace].
Defined.
